(** * Local financial analysis service: forecasting pipeline

    A shallow embedding of the analysis service of the transaction tracker
    (feature extraction, statistics, exponential smoothing, the guards around
    the regression model, and the orchestrator [analyzeFinances]) and of the
    transaction handlers of the component.

    The service is embedded twice.
    - The exact model reads JavaScript numbers as rationals ([Q]) and the
      objects used as dictionaries as finite maps over their own keys.  It
      carries the properties in which neither rounding nor an inherited
      property name decides anything: when the analysis fails, the guards
      of the regression model, the shape of the forecasts, the totals of
      the summary, the set of categories.
    - The module [Ieee] reads numbers as binary64 doubles and resolves the
      lookups of plain objects through [Object.prototype].  It carries the
      trend labels, the smoothing forecaster and the per-category entries
      of the report, where a comparison of rounded values or a category
      named like an inherited member decides the result.

    In both, [new Set()] followed by [Array.from] is a duplicate-free list
    kept in first-insertion order, and the tensor library is an explicit
    backend whose calls either return or throw. *)

From Stdlib Require Import QArith Qround Qminmax Qabs Lqa Lia Ascii Floats.
From stdpp Require Import gmap strings list pretty sorting.

(** ** JavaScript primitives used by the service *)

Module Js.

(** [a > b] and [a < b] on numbers. *)
Definition gt (a b : Q) : bool := negb (Qle_bool a b).
Definition lt (a b : Q) : bool := negb (Qle_bool b a).

(** [a || b] on numbers: [a] unless it is falsy, that is, zero. *)
Definition num_or (a b : Q) : Q := if Qeq_bool a 0 then b else a.

(** [n || 1] on an array length or a counter. *)
Definition count_or1 (n : nat) : nat := if Nat.eqb n 0 then 1%nat else n.

(** A number that is an array length or a counter. *)
Definition num (n : nat) : Q := inject_Z (Z.of_nat n).

(** [Math.max] and [Math.min] of two numbers. *)
Definition max (a b : Q) : Q := if Qle_bool a b then b else a.
Definition min (a b : Q) : Q := if Qle_bool a b then a else b.

(** [Math.ceil(n / 2)] for an array length [n]. *)
Definition ceil_half (n : nat) : nat := Z.to_nat (Qceiling (num n / 2)).

(** [arr.reduce((a, b) => a + b, 0)]. *)
Definition sum (l : list Q) : Q := fold_left Qplus l 0%Q.

(** [Array(n).fill(x)]. *)
Definition fill (n : nat) (x : Q) : list Q := replicate n x.

(** The relative index of [Array.prototype.slice]: negative indices count
    from the end, and everything is clamped to [0 .. len]. *)
Definition rel_index (len k : Z) : Z :=
  if (k <? 0)%Z then Z.max (len + k) 0 else Z.min k len.

(** [arr.slice(start)] and [arr.slice(start, stop)]. *)
Definition slice {A} (l : list A) (start : Z) (stop : option Z) : list A :=
  let len := Z.of_nat (length l) in
  let from := rel_index len start in
  let to := match stop with None => len | Some e => rel_index len e end in
  take (Z.to_nat (to - from)) (drop (Z.to_nat from) l).

(** [arr[i]] read as a number; a missing element reads as [0] here, the
    service only indexes inside the array. *)
Definition at_ (l : list Q) (i : nat) : Q := nth i l 0%Q.

(** [s.padStart(n, c)] for a one-character pad. *)
Definition padStart (n : nat) (c : Ascii.ascii) (s : string) : string :=
  String.string_of_list_ascii (replicate (n - String.length s) c) +:+ s.

(** [set.add(x)] on a [Set] listed in insertion order. *)
Definition set_add (x : string) (s : list string) : list string :=
  if bool_decide (x ∈ s) then s else s ++ [x].

(** [Object.keys(o).sort()]: keys in ascending order of their code units. *)
Definition str_le (a b : string) : Prop := String.leb a b = true.

#[global] Instance str_le_dec : RelDecision str_le.
Proof. intros a b. unfold str_le. apply _. Defined.

Definition sorted_keys {V} (o : gmap string V) : list string :=
  merge_sort str_le (map fst (map_to_list o)).

End Js.

Local Open Scope Q_scope.

(** * The service over exact numbers and own keys

    In this first embedding a number is a rational and a dictionary is the
    finite map of its own keys.  It carries what neither the rounding of
    doubles nor a member inherited by a plain object can change: which
    inputs make the analysis fail, when the regression model is trained,
    the length and the sign of the forecasts, the totals of the months,
    the set of categories.  The trend labels, the values of the forecasts
    and the entries by category are decided on doubles, in the module
    [Ieee] further down. *)

(** ** Data model *)

(** [new Date(tx.date)]: either an invalid date ([getTime()] is NaN) or a
    date with its local [getFullYear()] and [getMonth()] (January is 0). *)
Inductive JsDate :=
  | InvalidDate
  | LocalDate (fullYear : Z) (month : nat).

(** A transaction as the service reads it. [tx_category = None] is a missing
    category; [tx_amount = None] is an amount that [Number] maps to NaN. *)
Record Transaction := {
  tx_date : JsDate;
  tx_type : string;
  tx_category : option string;
  tx_amount : option Q
}.

(** [{ cost, revenue }] of one category inside one month. *)
Record CategoryBucket := { cb_cost : Q; cb_revenue : Q }.

(** [{ cost, revenue, categories }] of one month. *)
Record MonthBucket := {
  mb_cost : Q;
  mb_revenue : Q;
  mb_categories : gmap string CategoryBucket
}.

(** The pair returned by [extractFeatures]. *)
Record Features := {
  monthlyData : gmap string MonthBucket;
  categories : list string
}.

(** ** extractFeatures *)

(** [`${date.getFullYear()}-${String(date.getMonth() + 1).padStart(2, '0')}`] *)
Definition monthKey (fullYear : Z) (month : nat) : string :=
  pretty fullYear +:+ "-" +:+ Js.padStart 2 "0"%char (pretty (month + 1)%nat).

(** [tx.category || 'Other'] *)
Definition categoryOf (tx : Transaction) : string :=
  match tx_category tx with
  | Some c => if bool_decide (c = "") then "Other" else c
  | None => "Other"
  end.

(** [Number(tx.amount) || 0] *)
Definition amountOf (tx : Transaction) : Q :=
  match tx_amount tx with
  | Some a => Js.num_or a 0
  | None => 0
  end.

(** [tx.type === 'cost'] *)
Definition isCost (tx : Transaction) : bool := bool_decide (tx_type tx = "cost").

(** [if (!monthlyData[monthKey]) monthlyData[monthKey] = {...}] *)
Definition ensureMonth (k : string) (md : gmap string MonthBucket) :
    gmap string MonthBucket :=
  match md !! k with
  | Some _ => md
  | None => <[k := {| mb_cost := 0; mb_revenue := 0; mb_categories := ∅ |}]> md
  end.

(** [if (!m.categories[category]) m.categories[category] = {...}] *)
Definition ensureCategory (c : string) (m : MonthBucket) : MonthBucket :=
  match mb_categories m !! c with
  | Some _ => m
  | None =>
      {| mb_cost := mb_cost m; mb_revenue := mb_revenue m;
         mb_categories := <[c := {| cb_cost := 0; cb_revenue := 0 |}]> (mb_categories m) |}
  end.

(** [m.cost += amount; m.categories[category].cost += amount] *)
Definition addCost (c : string) (amount : Q) (m : MonthBucket) : MonthBucket :=
  {| mb_cost := mb_cost m + amount;
     mb_revenue := mb_revenue m;
     mb_categories :=
       alter (fun b => {| cb_cost := cb_cost b + amount; cb_revenue := cb_revenue b |})
             c (mb_categories m) |}.

(** [m.revenue += amount; m.categories[category].revenue += amount] *)
Definition addRevenue (c : string) (amount : Q) (m : MonthBucket) : MonthBucket :=
  {| mb_cost := mb_cost m;
     mb_revenue := mb_revenue m + amount;
     mb_categories :=
       alter (fun b => {| cb_cost := cb_cost b; cb_revenue := cb_revenue b + amount |})
             c (mb_categories m) |}.

(** The body of [transactions.forEach(tx => ...)]. *)
Definition extractStep (acc : Features) (tx : Transaction) : Features :=
  match tx_date tx with
  | InvalidDate => acc
  | LocalDate y m =>
      let key := monthKey y m in
      let category := categoryOf tx in
      let amount := amountOf tx in
      let cats := Js.set_add category (categories acc) in
      let md1 := ensureMonth key (monthlyData acc) in
      let md2 := alter (ensureCategory category) key md1 in
      let md3 :=
        if isCost tx then alter (addCost category amount) key md2
        else alter (addRevenue category amount) key md2 in
      {| monthlyData := md3; categories := cats |}
  end.

Definition extractFeatures (transactions : list Transaction) : Features :=
  fold_left extractStep transactions {| monthlyData := ∅; categories := [] |}.

(** ** calculateStatistics *)

(** [{ cost, revenue, count }] of one category over the whole history. *)
Record CategoryTotal := { ct_cost : Q; ct_revenue : Q; ct_count : nat }.

(** The object returned by [calculateStatistics], without [topCategories]. *)
Record Statistics := {
  avgMonthlyCost : Q;
  avgMonthlyRevenue : Q;
  totalCost : Q;
  totalRevenue : Q;
  trend : string;
  categoryTotals : gmap string CategoryTotal;
  months : list string;
  numMonths : nat
}.

(** [monthlyData[month]] for [month] among the keys of [monthlyData]. *)
Definition monthAt (md : gmap string MonthBucket) (month : string) : MonthBucket :=
  default {| mb_cost := 0; mb_revenue := 0; mb_categories := ∅ |} (md !! month).

(** [categories.forEach(cat => { categoryTotals[cat] = {...} })] *)
Definition initTotals (cats : list string) : gmap string CategoryTotal :=
  fold_left (fun totals cat => <[cat := {| ct_cost := 0; ct_revenue := 0; ct_count := 0 |}]> totals)
            cats ∅.

(** The inner [categories.forEach] of the month loop. *)
Definition addMonthToTotals (m : MonthBucket) (cats : list string)
    (totals : gmap string CategoryTotal) : gmap string CategoryTotal :=
  fold_left
    (fun totals cat =>
       match mb_categories m !! cat with
       | Some b =>
           alter (fun t => {| ct_cost := ct_cost t + cb_cost b;
                              ct_revenue := ct_revenue t + cb_revenue b;
                              ct_count := S (ct_count t) |}) cat totals
       | None => totals
       end)
    cats totals.

(** The state threaded through [months.forEach]. *)
Record Totals := {
  acc_cost : Q;
  acc_revenue : Q;
  acc_categories : gmap string CategoryTotal
}.

Definition totalsStep (md : gmap string MonthBucket) (cats : list string)
    (acc : Totals) (month : string) : Totals :=
  {| acc_cost := acc_cost acc + mb_cost (monthAt md month);
     acc_revenue := acc_revenue acc + mb_revenue (monthAt md month);
     acc_categories := addMonthToTotals (monthAt md month) cats (acc_categories acc) |}.

(** The trend label of [calculateStatistics], from the sorted month keys. *)
Definition overallTrend (md : gmap string MonthBucket) (months : list string) : string :=
  if (2 <=? length months)%nat then
    let recentMonths := Js.slice months (-3) None in
    let recentCosts := map (fun m => mb_cost (monthAt md m)) recentMonths in
    if (2 <=? length recentCosts)%nat then
      let half := Z.of_nat (Js.ceil_half (length recentCosts)) in
      let firstHalf := Js.slice recentCosts 0 (Some half) in
      let secondHalf := Js.slice recentCosts half None in
      let firstAvg := Js.sum firstHalf / Js.num (length firstHalf) in
      let secondAvg := Js.sum secondHalf / Js.num (length secondHalf) in
      if Js.gt secondAvg (firstAvg * (11 # 10)) then "increasing"
      else if Js.lt secondAvg (firstAvg * (9 # 10)) then "decreasing"
      else "stable"
    else "stable"
  else "stable".

Definition calculateStatistics (md : gmap string MonthBucket) (cats : list string) :
    Statistics :=
  let months := Js.sorted_keys md in
  let acc := fold_left (totalsStep md cats) months
               {| acc_cost := 0; acc_revenue := 0; acc_categories := initTotals cats |} in
  let numMonths := Js.count_or1 (length months) in
  {| avgMonthlyCost := acc_cost acc / Js.num numMonths;
     avgMonthlyRevenue := acc_revenue acc / Js.num numMonths;
     totalCost := acc_cost acc;
     totalRevenue := acc_revenue acc;
     trend := overallTrend md months;
     categoryTotals := acc_categories acc;
     months := months;
     numMonths := numMonths |}.

(** ** predictWithSmoothing *)

Definition predictWithSmoothing (values : list Q) (periods : nat)
    (alpha fallbackAverage : Q) : list Q :=
  let nonZeroValues := List.filter (fun v => Js.gt v 0) values in
  if (length nonZeroValues =? 0)%nat then
    if Js.gt fallbackAverage 0 then Js.fill periods fallbackAverage
    else Js.fill periods 0
  else if (length nonZeroValues =? 1)%nat then
    Js.fill periods (Js.at_ nonZeroValues 0)
  else
    (* for (let i = 1; i < values.length; i++) *)
    let smoothed :=
      fold_left (fun forecast i => alpha * Js.at_ values i + (1 - alpha) * forecast)
                (seq 1 (length values - 1)%nat) (Js.at_ values 0) in
    let avg := Js.sum nonZeroValues / Js.num (length nonZeroValues) in
    let forecast :=
      if Js.lt smoothed (avg * (1 # 10)) && Js.gt avg 0 then avg else smoothed in
    let recentValues :=
      Js.slice values (- Z.of_nat (Nat.min 6 (length values))) None in
    let trendFactor :=
      if (2 <=? length recentValues)%nat then
        (* for (let i = 1; i < recentValues.length; i++) changes.push(...) *)
        let changes :=
          map (fun i => Js.at_ recentValues i - Js.at_ recentValues (i - 1)%nat)
              (seq 1 (length recentValues - 1)%nat) in
        let mean := Js.sum changes / Js.num (length changes) in
        let maxChange := avg * (2 # 10) in
        Js.max (- maxChange) (Js.min maxChange mean)
      else 0 in
    (* for (let i = 0; i < periods; i++) predictions.push(...) *)
    map (fun i => Js.max 0 (forecast + trendFactor * Js.num (i + 1)%nat)) (seq 0 periods).

(** ** The tensor backend and the regression forecaster *)

(** The outcome of a call that may throw. *)
Inductive Completion (A : Type) :=
  | Returned (a : A)
  | Thrown (message : string).
Arguments Returned {A} a.
Arguments Thrown {A} message.

#[global] Instance completion_ret : MRet Completion := fun A a => Returned a.

#[global] Instance completion_bind : MBind Completion := fun A B k c =>
  match c with
  | Returned a => k a
  | Thrown e => Thrown e
  end.

(** A trained model: [predict] stands for building the input tensor, calling
    [model.predict], reading [values[0]] and [values[1]] and disposing the
    tensors; [dispose] is [model.dispose()]. *)
Record Model := {
  predict : list Q -> Completion (Q * Q);
  dispose : Completion unit
}.

(** [fit inputSize xs ys] stands for [tf.sequential], [model.compile],
    the two [tf.tensor2d] calls, [model.fit] and the disposal of the training
    tensors. *)
Record Backend := {
  fit : nat -> list (list Q) -> list (list Q) -> Completion Model
}.

(** [months[j]] *)
Definition monthName (months : list string) (j : nat) : string := nth j months "".

(** The input window of the example that ends before month [i]. *)
Definition inputWindow (md : gmap string MonthBucket) (months : list string)
    (windowSize i : nat) : list Q :=
  flat_map (fun j => [mb_cost (monthAt md (monthName months j)) / 1000;
                      mb_revenue (monthAt md (monthName months j)) / 1000])
           (seq (i - windowSize)%nat windowSize).

(** [xs] and [ys] of [buildAndTrainModel]. *)
Definition trainingInputs (md : gmap string MonthBucket) (months : list string)
    (windowSize : nat) : list (list Q) :=
  map (inputWindow md months windowSize) (seq windowSize (length months - windowSize)%nat).

Definition trainingTargets (md : gmap string MonthBucket) (months : list string)
    (windowSize : nat) : list (list Q) :=
  map (fun i => [mb_cost (monthAt md (monthName months i)) / 1000;
                 mb_revenue (monthAt md (monthName months i)) / 1000])
      (seq windowSize (length months - windowSize)%nat).

Definition buildAndTrainModel (tf : Backend) (md : gmap string MonthBucket)
    (cats : list string) : Completion (option Model) :=
  let months := Js.sorted_keys md in
  if (length months <? 3)%nat then Returned None
  else
    let windowSize := Nat.min 3 (length months - 1)%nat in
    let xs := trainingInputs md months windowSize in
    let ys := trainingTargets md months windowSize in
    if (length xs <? 2)%nat then Returned None
    else
      model ← fit tf (windowSize * 2)%nat xs ys;
      Returned (Some model).

(** [{ cost, revenue }] of one predicted month. *)
Record Prediction := { p_cost : Q; p_revenue : Q }.

(** The loop [for (let i = 0; i < 3; i++)] of [generateMLPredictions], with
    [n] iterations left. *)
Fixpoint predictLoop (model : Model) (n : nat) (lastWindow : list Q) :
    Completion (list Prediction) :=
  match n with
  | O => Returned []
  | S n' =>
      values ← predict model lastWindow;
      let predictedCost := Js.max 0 (fst values * 1000) in
      let predictedRevenue := Js.max 0 (snd values * 1000) in
      rest ← predictLoop model n'
               (Js.slice lastWindow 2 None ++ [predictedCost / 1000; predictedRevenue / 1000]);
      Returned ({| p_cost := predictedCost; p_revenue := predictedRevenue |} :: rest)
  end.

Definition generateMLPredictions (model : option Model) (md : gmap string MonthBucket)
    (months : list string) (windowSize : nat) : Completion (option (list Prediction)) :=
  match model with
  | None => Returned None
  | Some model =>
      if (length months <? windowSize)%nat then Returned None
      else
        let lastWindow := inputWindow md months windowSize (length months) in
        predictions ← predictLoop model 3 lastWindow;
        Returned (Some predictions)
  end.

(** ** Category trend and recommendation *)

(** [monthlyData[m].categories[cat]?.cost || 0] and its revenue twin. *)
Definition categoryCostAt (md : gmap string MonthBucket) (cat m : string) : Q :=
  match mb_categories (monthAt md m) !! cat with
  | Some b => Js.num_or (cb_cost b) 0
  | None => 0
  end.

Definition categoryRevenueAt (md : gmap string MonthBucket) (cat m : string) : Q :=
  match mb_categories (monthAt md m) !! cat with
  | Some b => Js.num_or (cb_revenue b) 0
  | None => 0
  end.

Definition getCategoryTrend (md : gmap string MonthBucket) (months : list string)
    (category : string) : string :=
  if (length months <? 2)%nat then "stable"
  else
    let values := map (categoryCostAt md category) months in
    let recentValues := Js.slice values (-3) None in
    if (length recentValues <? 2)%nat then "stable"
    else
      let half := Z.of_nat (Js.ceil_half (length recentValues)) in
      let firstHalf := Js.slice recentValues 0 (Some half) in
      let secondHalf := Js.slice recentValues half None in
      let firstAvg := Js.num_or (Js.sum firstHalf / Js.num (length firstHalf)) 0 in
      let secondAvg := Js.num_or (Js.sum secondHalf / Js.num (length secondHalf)) 0 in
      if Js.gt secondAvg (firstAvg * (115 # 100)) then "up"
      else if Js.lt secondAvg (firstAvg * (85 # 100)) then "down"
      else "stable".

Definition getRecommendation (category trend : string) (avgCost avgRevenue : Q) : string :=
  if bool_decide (trend = "up") && Js.gt avgCost 0 then
    category +:+ " spending is increasing. Consider setting a budget limit."
  else if bool_decide (trend = "down") && Js.gt avgCost 0 then
    "Good job! " +:+ category +:+ " spending is decreasing."
  else if Js.gt avgCost avgRevenue && Js.gt avgRevenue 0 then
    category +:+ " costs exceed revenue. Review expenses."
  else category +:+ " spending is stable.".

(** ** analyzeFinances *)

(** The report. The month labels, the insight sentences, the top categories
    and the time stamp are text and clock output and are not part of the
    embedding. *)
Record Summary := {
  averageMonthlySpending : Q;
  averageMonthlyRevenue : Q;
  spendingTrend : string;
  totalHistoricalCost : Q;
  totalHistoricalRevenue : Q
}.

Record Predictions := {
  pr_costs : gmap string (list Q);
  pr_revenue : option (gmap string (list Q));
  pr_totalCost : list Q;
  pr_totalRevenue : list Q;
  pr_netBalance : list Q
}.

Record BreakdownEntry := {
  currentAverage : Q;
  predictedTrend : string;
  recommendation : string
}.

Record Metadata := {
  transactionCount : nat;
  monthsAnalyzed : nat;
  modelType : string
}.

Record AnalysisReport := {
  summary : Summary;
  predictions : Predictions;
  categoryBreakdown : gmap string BreakdownEntry;
  metadata : Metadata
}.

(** The [try { ... } catch (e) { ... }] block: [mlPredictions] after it. *)
Definition tryMLPredictions (tf : Backend) (md : gmap string MonthBucket)
    (cats months : list string) : option (list Prediction) :=
  match buildAndTrainModel tf md cats with
  | Returned (Some model) =>
      match generateMLPredictions (Some model) md months 3 with
      | Returned mlPredictions =>
          (* the assignment precedes [model.dispose()] *)
          match dispose model with
          | Returned _ => mlPredictions
          | Thrown _ => mlPredictions
          end
      | Thrown _ => None
      end
  | Returned None => None
  | Thrown _ => None
  end.

(** [stats.categoryTotals[cat]] for [cat] among [categories]. *)
Definition totalAt (stats : Statistics) (cat : string) : CategoryTotal :=
  default {| ct_cost := 0; ct_revenue := 0; ct_count := 0 |} (categoryTotals stats !! cat).

(** [stats.categoryTotals[cat].cost / (stats.categoryTotals[cat].count || 1)] *)
Definition categoryAvgCost (stats : Statistics) (cat : string) : Q :=
  ct_cost (totalAt stats cat) / Js.num (Js.count_or1 (ct_count (totalAt stats cat))).

Definition categoryAvgRevenue (stats : Statistics) (cat : string) : Q :=
  ct_revenue (totalAt stats cat) / Js.num (Js.count_or1 (ct_count (totalAt stats cat))).

(** The first [categories.forEach]: the per-category forecasts. *)
Definition categoryForecastStep (md : gmap string MonthBucket) (stats : Statistics)
    (acc : gmap string (list Q) * gmap string (list Q)) (cat : string) :
    gmap string (list Q) * gmap string (list Q) :=
  let costValues := map (categoryCostAt md cat) (months stats) in
  let revenueValues := map (categoryRevenueAt md cat) (months stats) in
  let catAvgCost := categoryAvgCost stats cat in
  let catAvgRevenue := categoryAvgRevenue stats cat in
  let costs := <[cat := predictWithSmoothing costValues 3 (3 # 10) catAvgCost]> (fst acc) in
  let revenues :=
    if existsb (fun v => Js.gt v 0) revenueValues
    then <[cat := predictWithSmoothing revenueValues 3 (3 # 10) catAvgRevenue]> (snd acc)
    else snd acc in
  (costs, revenues).

(** The second [categories.forEach]: the category breakdown. *)
Definition breakdownStep (md : gmap string MonthBucket) (stats : Statistics)
    (acc : gmap string BreakdownEntry) (cat : string) : gmap string BreakdownEntry :=
  let avgCost := categoryAvgCost stats cat in
  let avgRevenue := categoryAvgRevenue stats cat in
  let trend := getCategoryTrend md (months stats) cat in
  <[cat := {| currentAverage := Js.num_or avgCost avgRevenue;
              predictedTrend := trend;
              recommendation := getRecommendation cat trend avgCost avgRevenue |}]> acc.

(** The total predictions before the degenerate-data guard. *)
Definition chosenTotals (md : gmap string MonthBucket) (stats : Statistics)
    (mlPredictions : option (list Prediction)) : list Q * list Q :=
  match mlPredictions with
  | Some ps =>
      if existsb (fun p => Js.gt (p_cost p) 0 || Js.gt (p_revenue p) 0) ps
      then (map p_cost ps, map p_revenue ps)
      else
        (predictWithSmoothing (map (fun m => mb_cost (monthAt md m)) (months stats))
           3 (3 # 10) (avgMonthlyCost stats),
         predictWithSmoothing (map (fun m => mb_revenue (monthAt md m)) (months stats))
           3 (3 # 10) (avgMonthlyRevenue stats))
  | None =>
      (predictWithSmoothing (map (fun m => mb_cost (monthAt md m)) (months stats))
         3 (3 # 10) (avgMonthlyCost stats),
       predictWithSmoothing (map (fun m => mb_revenue (monthAt md m)) (months stats))
         3 (3 # 10) (avgMonthlyRevenue stats))
  end.

(** [if (xs.every(v => v === 0) && avg > 0) xs = Array(3).fill(avg)] *)
Definition guardZeros (xs : list Q) (avg : Q) : list Q :=
  if forallb (fun v => Qeq_bool v 0) xs && Js.gt avg 0 then Js.fill 3 avg else xs.

(** The part of [analyzeFinances] after the two guards: from
    [const stats = calculateStatistics(...)] to [return analysis]. *)
Definition assembleReport (tf : Backend) (transactions : list Transaction)
    (md : gmap string MonthBucket) (cats : list string) : AnalysisReport :=
  let stats := calculateStatistics md cats in
  let mlPredictions := tryMLPredictions tf md cats (months stats) in
  let forecasts := fold_left (categoryForecastStep md stats) cats (∅, ∅) in
  let totals := chosenTotals md stats mlPredictions in
  let totalCostPredictions := guardZeros (fst totals) (avgMonthlyCost stats) in
  let totalRevenuePredictions := guardZeros (snd totals) (avgMonthlyRevenue stats) in
  let netBalancePredictions :=
    imap (fun i rev => rev - Js.at_ totalCostPredictions i) totalRevenuePredictions in
  let breakdown := fold_left (breakdownStep md stats) cats ∅ in
  {| summary :=
       {| averageMonthlySpending := avgMonthlyCost stats;
          averageMonthlyRevenue := avgMonthlyRevenue stats;
          spendingTrend := trend stats;
          totalHistoricalCost := totalCost stats;
          totalHistoricalRevenue := totalRevenue stats |};
     predictions :=
       {| pr_costs := fst forecasts;
          pr_revenue :=
            if (0 <? size (snd forecasts))%nat then Some (snd forecasts) else None;
          pr_totalCost := totalCostPredictions;
          pr_totalRevenue := totalRevenuePredictions;
          pr_netBalance := netBalancePredictions |};
     categoryBreakdown := breakdown;
     metadata :=
       {| transactionCount := length transactions;
          monthsAnalyzed := numMonths stats;
          modelType :=
            match mlPredictions with
            | Some _ => "neural-network"
            | None => "statistical"
            end |} |}.

Definition analyzeFinances (tf : Backend) (transactions : option (list Transaction)) :
    Completion AnalysisReport :=
  match transactions with
  | None => Thrown "No transactions available for analysis."
  | Some txs =>
      if (length txs =? 0)%nat then Thrown "No transactions available for analysis."
      else
        let md := monthlyData (extractFeatures txs) in
        let cats := categories (extractFeatures txs) in
        if (size md =? 0)%nat then
          Thrown "No valid transaction data found. Please add some transactions first."
        else Returned (assembleReport tf txs md cats)
  end.

(** ** Reference definitions

    The outcomes and the labels of a trend classification, and the window
    that the rules of the prose description look at.  The rules themselves
    are evaluated on doubles and are in [Ieee.Reference]. *)

Module Reference.

(** The three outcomes of a trend classification. *)
Inductive Direction := Rising | Falling | Steady.

(** The labels of the overall trend and of a category trend. *)
Definition overallLabel (d : Direction) : string :=
  match d with Rising => "increasing" | Falling => "decreasing" | Steady => "stable" end.

Definition categoryLabel (d : Direction) : string :=
  match d with Rising => "up" | Falling => "down" | Steady => "stable" end.

(** The last [n] values of a series. *)
Definition lastN {A} (n : nat) (l : list A) : list A := drop (length l - n)%nat l.

End Reference.

(** ** Views of the input used to state the properties *)

(** The transaction has a date that parses. *)
Definition parseable (tx : Transaction) : bool :=
  match tx_date tx with InvalidDate => false | LocalDate _ _ => true end.

(** The month key of a transaction with a parseable date. *)
Definition monthKeyOf (tx : Transaction) : string :=
  match tx_date tx with InvalidDate => "" | LocalDate y m => monthKey y m end.

(** The sum of the coerced amounts of the transactions selected by [sel]. *)
Definition amountSum (sel : Transaction -> bool) (txs : list Transaction) : Q :=
  foldr Qplus 0 (map amountOf (List.filter sel txs)).

(** The transactions of the month [key], and of the category [cat] in it. *)
Definition inMonth (key : string) (tx : Transaction) : bool :=
  parseable tx && bool_decide (monthKeyOf tx = key).

Definition inCell (key cat : string) (tx : Transaction) : bool :=
  inMonth key tx && bool_decide (categoryOf tx = cat).

(** The transactions of a category, in any month. *)
Definition inCategory (cat : string) (tx : Transaction) : bool :=
  parseable tx && bool_decide (categoryOf tx = cat).

(** The cost transactions and the other transactions of a selection. *)
Definition costsOf (sel : Transaction -> bool) (tx : Transaction) : bool :=
  sel tx && isCost tx.

Definition revenuesOf (sel : Transaction -> bool) (tx : Transaction) : bool :=
  sel tx && negb (isCost tx).

(** What the sub-bucket of a category holds after the transactions [txs]:
    it exists exactly when a selected transaction exists, and its two fields
    are the sums of the selected amounts. *)
Definition CellOk (sel : Transaction -> bool) (txs : list Transaction)
    (oc : option CategoryBucket) : Prop :=
  match oc with
  | None => existsb sel txs = false
  | Some c =>
      existsb sel txs = true /\
      cb_cost c == amountSum (costsOf sel) txs /\
      cb_revenue c == amountSum (revenuesOf sel) txs
  end.

(** What the bucket of the month [key] holds after the transactions [txs]. *)
Definition MonthOk (key : string) (txs : list Transaction)
    (ob : option MonthBucket) : Prop :=
  match ob with
  | None => existsb (inMonth key) txs = false
  | Some b =>
      existsb (inMonth key) txs = true /\
      mb_cost b == amountSum (costsOf (inMonth key)) txs /\
      mb_revenue b == amountSum (revenuesOf (inMonth key)) txs /\
      forall cat, CellOk (inCell key cat) txs (mb_categories b !! cat)
  end.

(** The empty buckets, and a bucket after one more transaction. *)
Definition zeroMonth : MonthBucket := {| mb_cost := 0; mb_revenue := 0; mb_categories := ∅ |}.
Definition zeroCell : CategoryBucket := {| cb_cost := 0; cb_revenue := 0 |}.

Definition bump (tx : Transaction) (b : MonthBucket) : MonthBucket :=
  if isCost tx then addCost (categoryOf tx) (amountOf tx) (ensureCategory (categoryOf tx) b)
  else addRevenue (categoryOf tx) (amountOf tx) (ensureCategory (categoryOf tx) b).

Definition bumpCell (tx : Transaction) (c : CategoryBucket) : CategoryBucket :=
  if isCost tx then {| cb_cost := cb_cost c + amountOf tx; cb_revenue := cb_revenue c |}
  else {| cb_cost := cb_cost c; cb_revenue := cb_revenue c + amountOf tx |}.

(** The monthly cost values of a history, oldest month first. *)
Definition monthlyCosts (md : gmap string MonthBucket) : list Q :=
  map (fun m => mb_cost (monthAt md m)) (Js.sorted_keys md).

(** ** Sample histories and backends *)

Module Sample.

(** A cost of [amount] in category [cat], dated in month [m] (January is 0)
    of 2024. *)
Definition cost (m : nat) (cat : string) (amount : Q) : Transaction :=
  {| tx_date := LocalDate 2024 m; tx_type := "cost";
     tx_category := Some cat; tx_amount := Some amount |}.

(** A transaction whose date does not parse. *)
Definition undated (cat : string) (amount : Q) : Transaction :=
  {| tx_date := InvalidDate; tx_type := "cost";
     tx_category := Some cat; tx_amount := Some amount |}.

(** A backend whose training throws. *)
Definition failingBackend : Backend :=
  {| fit := fun _ _ _ => Thrown "backend unavailable" |}.

(** A backend whose trained model predicts zero cost and zero revenue. *)
Definition zeroModel : Model :=
  {| predict := fun _ => Returned (0, 0); dispose := Returned tt |}.

Definition zeroBackend : Backend := {| fit := fun _ _ _ => Returned zeroModel |}.

(** Monthly costs 100, 100, 100, 200, 220 from January to May. *)
Definition fiveMonths : list Transaction :=
  [cost 0 "Food" 100; cost 1 "Food" 100; cost 2 "Food" 100;
   cost 3 "Food" 200; cost 4 "Food" 220].

(** Monthly costs 100 and 112. *)
Definition twoMonths : list Transaction := [cost 0 "Food" 100; cost 1 "Food" 112].



End Sample.

(** * Further parts of the service *)

(** ** The own keys of an object *)

(** The value of a decimal digit. *)
Definition digitValue (c : ascii) : option N :=
  let n := N_of_ascii c in
  if (48 <=? n)%N && (n <=? 57)%N then Some (n - 48)%N else None.

(** The number written by a string of decimal digits. *)
Fixpoint digitsValue (s : string) (acc : N) : option N :=
  match s with
  | EmptyString => Some acc
  | String c rest =>
      match digitValue c with
      | Some d => digitsValue rest (10 * acc + d)%N
      | None => None
      end
  end.

(** A property name that is an array index: the canonical decimal writing of
    an integer below [2^32 - 1]. *)
Definition arrayIndex (key : string) : option N :=
  match key with
  | EmptyString => None
  | _ =>
      match digitsValue key 0 with
      | Some n =>
          if bool_decide (pretty n = key) && (n <? 4294967295)%N then Some n else None
      | None => None
      end
  end.

(** The order in which [Object.entries] lists the properties created in the
    order [created]: array indices first, in ascending numeric order, then
    the other names in creation order. *)
Definition ownKeys (created : list string) : list string :=
  map pretty (merge_sort N.le (omap arrayIndex created)) ++
  List.filter (fun key => match arrayIndex key with None => true | Some _ => false end) created.

(** ** getNext3Months *)

(** [new Date(year, monthIndex, 1)] read back with [getFullYear] and
    [getMonth]: a year from 0 to 99 stands for 1900 + year, and the month
    index carries into the year. *)
Definition firstOfMonth (year monthIndex : Z) : Z * Z :=
  let y := if (0 <=? year)%Z && (year <=? 99)%Z then (1900 + year)%Z else year in
  ((y + monthIndex / 12)%Z, (monthIndex mod 12)%Z).

(** The labels of the 3 months after the month [nowMonth] of [nowYear];
    [monthShort] is the short month name of the locale. *)
Definition getNext3Months (monthShort : Z -> string) (nowYear nowMonth : Z) :
    list string :=
  map (fun i =>
         let futureDate := firstOfMonth nowYear (nowMonth + i) in
         monthShort (snd futureDate) +:+ " " +:+ pretty (fst futureDate))
      [1; 2; 3]%Z.

(** ** More sample data *)

Module Scenario.

(** A revenue of [amount] in category [cat], dated in month [m] of 2024. *)
Definition revenue (m : nat) (cat : string) (amount : Q) : Transaction :=
  {| tx_date := LocalDate 2024 m; tx_type := "revenue";
     tx_category := Some cat; tx_amount := Some amount |}.

(** Two salaries and one purchase. *)
Definition salaried : list Transaction :=
  [revenue 0 "Salary" 1000; Sample.cost 0 "Food" 100; revenue 1 "Salary" 1000].


(** The report for [Sample.fiveMonths] with a trained model. *)
Definition fiveMonthsReport : AnalysisReport :=
  assembleReport Sample.zeroBackend Sample.fiveMonths
    (monthlyData (extractFeatures Sample.fiveMonths))
    (categories (extractFeatures Sample.fiveMonths)).

End Scenario.

(** * The transaction handlers of [App] *)

(** The handlers of the component run against the browser and the store.
    A handler is embedded as the tree of its calls to them: each call names
    a request and continues with the reply, so that every [await] may be
    answered by a value or by a rejection, every [window.confirm] by yes or
    no, and the clock by any time.  The handlers read [cards],
    [transactions] and [selectedCardId] as they were when the handler was
    created; the state setters are requests like the others. *)

Module App.

(** A valid [Date]: its time value and the local year and month read from
    it. *)
Record Moment := { timeValue : Z; fullYear : Z; month : nat }.

(** An entry of [card.limits] or of [card.plans]. *)
Record MonthAmount := { ma_month : string; ma_amount : Q }.

Record Card := {
  card_id : string;
  card_amount : Q;
  card_limits : list MonthAmount;
  card_plans : list MonthAmount
}.

(** The fields of a transaction that the handlers read, with [new Date(date)]
    in place of [date] ([None] when the date is invalid).  The other fields
    are copied along and never read. *)
Record Entry := {
  e_cardId : string;
  e_type : string;
  e_amount : Q;
  e_date : option Moment
}.

(** A transaction of the local state or of the store; the two flags may be
    missing on it. *)
Record Stored := {
  s_id : string;
  s_entry : Entry;
  s_scheduled : option bool;
  s_isAffect : option bool
}.

(** What a handler sees of the state of the component. *)
Record State := {
  cards : list Card;
  transactions : list Stored;
  selectedCardId : option string
}.

(** The numbers shown by the two warnings of [addTransaction]. *)
Inductive Prompt :=
  | LimitWarning (limit currentMonthSpending newTotalSpending : Q)
  | PlanWarning (minimum currentBalance newBalance : Q).

(** The updaters passed to [setTransactions]. *)
Inductive TransactionsUpdate :=
  | Prepend (newTx : Stored)
  | Remove (txId : string)
  | Replace (updated : list Stored).

Inductive Request :=
  | Now
  | GetUserId
  | Confirm (p : Prompt)
  | AddTransactionToTable (tx : Entry) (scheduled isAffect : bool)
  | GetTransactions
  | UpdateTransaction (txId : string)
  | UpdateCard (cardId : string) (current_amount : Q)
  | DeleteDoc (txId : string)
  | SetCards (cardId : string) (amount : Q)
  | SetTransactions (update : TransactionsUpdate)
  | Alert (message : string).

(** [Now] is [new Date()], [GetUserId] is [localStorage.getItem("userId")],
    [GetTransactions] is [getDocs] on the whole collection,
    [UpdateTransaction] sets [isAffect: true] on a transaction document,
    [UpdateCard] sets [current_amount] on a card document, [SetCards] is
    [setCards(prev => prev.map(c => c.id === cardId ? {...c, amount} : c))].
    [addTransactionToTable] catches its own failure and returns it: [Thrown]
    stands for [{ error }] there, and for a rejected promise elsewhere. *)
Definition Reply (q : Request) : Type :=
  match q with
  | Now => Z
  | GetUserId => option string
  | Confirm _ => bool
  | AddTransactionToTable _ _ _ => Completion string
  | GetTransactions => Completion (list Stored)
  | UpdateTransaction _ | UpdateCard _ _ | DeleteDoc _ => Completion unit
  | SetCards _ _ | SetTransactions _ | Alert _ => unit
  end.

Inductive Handler :=
  | Done
  | Call (q : Request) (k : Reply q -> Handler).

(** ** Running a handler *)

(** The reply to the [n]-th call of a run. *)
Definition Host : Type := nat -> forall q : Request, Reply q.

Inductive Event := event (q : Request) (r : Reply q).

Definition request (e : Event) : Request := let 'event q _ := e in q.

Fixpoint exec (host : Host) (n : nat) (h : Handler) : list Event :=
  match h with
  | Done => []
  | Call q k => event q (host n q) :: exec host (S n) (k (host n q))
  end.

(** What a run shows of a reply: a warning answered by no, a call to the
    store answered by a failure, the documents fetched, the time read. *)
Definition isThrown {A} (c : Completion A) : bool :=
  match c with Thrown _ => true | Returned _ => false end.

Definition declined (e : Event) : bool :=
  let 'event q r := e in
  match q return Reply q -> bool with
  | Confirm _ => fun proceed => negb proceed
  | _ => fun _ => false
  end r.

Definition failed (e : Event) : bool :=
  let 'event q r := e in
  match q return Reply q -> bool with
  | AddTransactionToTable _ _ _ => fun c => isThrown c
  | GetTransactions => fun c => isThrown c
  | UpdateTransaction _ | UpdateCard _ _ | DeleteDoc _ => fun c => isThrown c
  | _ => fun _ => false
  end r.

Definition fetched (e : Event) : option (list Stored) :=
  let 'event q r := e in
  match q return Reply q -> option (list Stored) with
  | GetTransactions => fun c => match c with Returned l => Some l | Thrown _ => None end
  | _ => fun _ => None
  end r.

(** A host that accepts every warning and whose store never fails. *)
Definition cooperative (host : Host) : Prop :=
  forall n q, declined (event q (host n q)) = false /\ failed (event q (host n q)) = false.

(** A property of every call that a handler can make. *)
Inductive always (P : Request -> Prop) : Handler -> Prop :=
  | always_done : always P Done
  | always_call (q : Request) (k : Reply q -> Handler) :
      P q -> (forall r, always P (k r)) -> always P (Call q k).

(** The discipline of the state setters and of the alert: the balance of the
    state is set right after the store accepted the same balance, and an
    alert follows a failure of the store and ends the handler.  [prev] is
    the call made just before. *)
Definition permitted (prev : option Event) (q : Request) : Prop :=
  match q with
  | SetCards cardId amount =>
      exists e, prev = Some e /\ request e = UpdateCard cardId amount /\ failed e = false
  | Alert _ => exists e, prev = Some e /\ failed e = true
  | _ => True
  end.

Definition final (q : Request) (k : Reply q -> Handler) : Prop :=
  match q return (Reply q -> Handler) -> Prop with
  | Alert _ => fun k => forall r, k r = Done
  | _ => fun _ => True
  end k.

Inductive guarded : option Event -> Handler -> Prop :=
  | guarded_done (prev : option Event) : guarded prev Done
  | guarded_call (prev : option Event) (q : Request) (k : Reply q -> Handler) :
      permitted prev q -> final q k ->
      (forall r, guarded (Some (event q r)) (k r)) ->
      guarded prev (Call q k).

(** ** Dates and amounts *)

(** [txDate > now] and [txDate <= now]; both are false on an invalid date. *)
Definition isAfter (d : option Moment) (now : Z) : bool :=
  match d with Some m => (now <? timeValue m)%Z | None => false end.

Definition isPast (d : option Moment) (now : Z) : bool :=
  match d with Some m => (timeValue m <=? now)%Z | None => false end.

(** The month key of a date; an invalid date gives ["NaN-NaN"]. *)
Definition dateKey (d : option Moment) : string :=
  match d with Some m => monthKey (fullYear m) (month m) | None => "NaN-NaN" end.

(** [tx.type === "cost" ? balance - tx.amount : balance + tx.amount] *)
Definition applied (tx : Entry) (balance : Q) : Q :=
  if bool_decide (e_type tx = "cost") then balance - e_amount tx
  else balance + e_amount tx.

(** [transaction.type === "cost" ? balance + amount : balance - amount] *)
Definition reversed (tx : Entry) (balance : Q) : Q :=
  if bool_decide (e_type tx = "cost") then balance + e_amount tx
  else balance - e_amount tx.

(** [cards.find((c) => c.id === cardId)] *)
Definition findCard (cs : list Card) (cardId : string) : option Card :=
  List.find (fun c => bool_decide (card_id c = cardId)) cs.

Definition findMonth (l : list MonthAmount) (key : string) : option MonthAmount :=
  List.find (fun x => bool_decide (ma_month x = key)) l.

(** A flag that is present and true. *)
Definition truthy (flag : option bool) : bool := default false flag.

(** ** addTransaction *)

(** The spending of the month on the card, among the local transactions that
    affect the balance. *)
Definition currentMonthSpending (st : State) (tx : Entry) : Q :=
  Js.sum
    (map (fun t => e_amount (s_entry t))
       (List.filter
          (fun t =>
             if negb (bool_decide (e_cardId (s_entry t) = e_cardId tx)) ||
                negb (bool_decide (e_type (s_entry t) = "cost")) then false
             else if negb (truthy (s_isAffect t)) then false
             else bool_decide (dateKey (e_date (s_entry t)) = dateKey (e_date tx)))
          (transactions st))).

(** The limit check; [next] is the rest of the handler. *)
Definition checkLimit (st : State) (tx : Entry) (isFutureTransaction : bool)
    (next : Handler) : Handler :=
  if bool_decide (e_type tx = "cost") && negb isFutureTransaction then
    match findCard (cards st) (e_cardId tx) with
    | Some card =>
        if (0 <? length (card_limits card))%nat then
          match findMonth (card_limits card) (dateKey (e_date tx)) with
          | Some limit =>
              let spending := currentMonthSpending st tx in
              let newTotalSpending := spending + e_amount tx in
              if Js.gt newTotalSpending (ma_amount limit) then
                Call (Confirm (LimitWarning (ma_amount limit) spending newTotalSpending))
                     (fun proceed => if proceed then next else Done)
              else next
          | None => next
          end
        else next
    | None => next
    end
  else next.

(** The plan check. *)
Definition checkPlan (st : State) (tx : Entry) (isFutureTransaction : bool)
    (next : Handler) : Handler :=
  if negb isFutureTransaction then
    match findCard (cards st) (e_cardId tx) with
    | Some card =>
        if (0 <? length (card_plans card))%nat then
          match findMonth (card_plans card) (dateKey (e_date tx)) with
          | Some plan =>
              let currentBalance := Js.num_or (card_amount card) 0 in
              let newBalance := applied tx currentBalance in
              if Js.lt newBalance (ma_amount plan) then
                Call (Confirm (PlanWarning (ma_amount plan) currentBalance newBalance))
                     (fun proceed => if proceed then next else Done)
              else next
          | None => next
          end
        else next
    | None => next
    end
  else next.

(** The write of a new balance to the store and then to the state; a
    rejection ends in [alert(message)]. *)
Definition writeBalance (card : Card) (updatedAmount : Q) (message : string)
    (next : Handler) : Handler :=
  Call (UpdateCard (card_id card) updatedAmount) (fun r =>
    match r with
    | Returned _ => Call (SetCards (card_id card) updatedAmount) (fun _ => next)
    | Thrown _ => Call (Alert message) (fun _ => Done)
    end).

(** The [try] block: the transaction is stored with its two flags, added to
    the local list when its card is the selected one, and applied to the
    balance of its card when it affects it. *)
Definition storeTransaction (st : State) (tx : Entry) (isFutureTransaction : bool) :
    Handler :=
  let scheduled := isFutureTransaction in
  let isAffect := negb isFutureTransaction in
  let message := "Failed to add transaction. Please try again." in
  Call (AddTransactionToTable tx scheduled isAffect) (fun fsResult =>
    match fsResult with
    | Thrown _ => Call (Alert message) (fun _ => Done)
    | Returned id =>
        let newTx := {| s_id := id; s_entry := tx;
                        s_scheduled := Some scheduled;
                        s_isAffect := Some isAffect |} in
        let balance :=
          if isAffect then
            match findCard (cards st) (e_cardId (s_entry newTx)) with
            | Some card =>
                writeBalance card (applied (s_entry newTx) (card_amount card))
                             message Done
            | None => Done
            end
          else Done in
        if bool_decide (Some (e_cardId tx) = selectedCardId st) then
          Call (SetTransactions (Prepend newTx)) (fun _ => balance)
        else balance
    end).

Definition addTransaction (st : State) (tx : Entry) : Handler :=
  Call Now (fun now =>
    let isFutureTransaction := isAfter (e_date tx) now in
    checkLimit st tx isFutureTransaction
      (checkPlan st tx isFutureTransaction
         (storeTransaction st tx isFutureTransaction))).

(** ** deleteTransaction *)

Definition deleteTransaction (st : State) (txId : string) : Handler :=
  match List.find (fun t => bool_decide (s_id t = txId)) (transactions st) with
  | None => Done
  | Some transaction =>
      let message := "Failed to delete transaction. Please try again." in
      Call (DeleteDoc txId) (fun r =>
        match r with
        | Thrown _ => Call (Alert message) (fun _ => Done)
        | Returned _ =>
            Call (SetTransactions (Remove txId)) (fun _ =>
              if truthy (s_isAffect transaction) then
                match findCard (cards st) (e_cardId (s_entry transaction)) with
                | Some card =>
                    writeBalance card
                      (reversed (s_entry transaction) (card_amount card)) message Done
                | None => Done
                end
              else Done)
        end)
  end.

(** ** processScheduledTransactions *)

(** [for (const x of l) { body }], where the body may end the handler. *)
Fixpoint forEach {A} (l : list A) (body : A -> Handler -> Handler)
    (next : Handler) : Handler :=
  match l with
  | [] => next
  | x :: rest => body x (forEach rest body next)
  end.

(** [tx.scheduled === true && tx.isAffect === false && isPast] *)
Definition due (now : Z) (tx : Stored) : bool :=
  bool_decide (s_scheduled tx = Some true) &&
  bool_decide (s_isAffect tx = Some false) &&
  isPast (e_date (s_entry tx)) now.

(** The local transactions with the processed ones marked. *)
Definition markProcessed (processed local : list Stored) : list Stored :=
  map (fun t =>
         match List.find (fun ptx => bool_decide (s_id ptx = s_id t)) processed with
         | Some _ =>
             {| s_id := s_id t; s_entry := s_entry t;
                s_scheduled := s_scheduled t; s_isAffect := Some true |}
         | None => t
         end)
      local.

(** The body of the inner loop: the document is marked, then the balance of
    the card is written to the store and to the state.  A rejection leaves
    the [try] block, whose [catch] only logs. *)
Definition applyScheduled (st : State) (tx : Stored) (nextTx : Handler) : Handler :=
  Call (UpdateTransaction (s_id tx)) (fun r =>
    match r with
    | Thrown _ => Done
    | Returned _ =>
        match findCard (cards st) (e_cardId (s_entry tx)) with
        | Some cardToUpdate =>
            let updatedAmount := applied (s_entry tx) (card_amount cardToUpdate) in
            Call (UpdateCard (card_id cardToUpdate) updatedAmount) (fun r' =>
              match r' with
              | Thrown _ => Done
              | Returned _ =>
                  Call (SetCards (card_id cardToUpdate) updatedAmount)
                       (fun _ => nextTx)
              end)
        | None => nextTx
        end
    end).

(** The transactions of the card that are due at [now]. *)
Definition transactionsToProcess (allTransactions : list Stored) (card : Card)
    (now : Z) : list Stored :=
  List.filter (due now)
    (List.filter (fun tx => bool_decide (e_cardId (s_entry tx) = card_id card))
       allTransactions).

(** The body of the outer loop. *)
Definition processCard (st : State) (allTransactions : list Stored) (card : Card)
    (nextCard : Handler) : Handler :=
  Call Now (fun now =>
    let toProcess := transactionsToProcess allTransactions card now in
    if (length toProcess =? 0)%nat then nextCard
    else
      forEach toProcess (applyScheduled st)
        (if bool_decide (Some (card_id card) = selectedCardId st) then
           Call (SetTransactions (Replace (markProcessed toProcess (transactions st))))
                (fun _ => nextCard)
         else nextCard)).

Definition processScheduledTransactions (st : State) : Handler :=
  Call GetUserId (fun userId =>
    if bool_decide (userId = None) || bool_decide (userId = Some "") ||
       (length (cards st) =? 0)%nat
    then Done
    else
      Call GetTransactions (fun snapshot =>
        match snapshot with
        | Thrown _ => Done
        | Returned allTransactions =>
            forEach (cards st) (processCard st allTransactions) Done
        end)).

(** ** Views of a run *)

(** The transaction marked and the balance written by a request. *)
Definition marked (q : Request) : option string :=
  match q with UpdateTransaction txId => Some txId | _ => None end.

Definition balanceWritten (q : Request) : option (string * Q) :=
  match q with UpdateCard cardId amount => Some (cardId, amount) | _ => None end.

(** What a request of [processScheduledTransactions] may be, given the
    documents that were fetched: the clock, the mark of a due transaction of
    a card of the state, the balance of the card of a due transaction moved
    by its amount, the local list with some transactions marked. *)
Definition sound (st : State) (allTransactions : list Stored) (q : Request) : Prop :=
  match q with
  | Now => True
  | UpdateTransaction txId =>
      exists tx card,
        tx ∈ allTransactions /\ card ∈ cards st /\
        e_cardId (s_entry tx) = card_id card /\ txId = s_id tx /\
        s_scheduled tx = Some true /\ s_isAffect tx = Some false /\
        is_Some (e_date (s_entry tx))
  | UpdateCard cardId amount | SetCards cardId amount =>
      exists tx card,
        tx ∈ allTransactions /\
        s_scheduled tx = Some true /\ s_isAffect tx = Some false /\
        findCard (cards st) (e_cardId (s_entry tx)) = Some card /\
        cardId = card_id card /\
        amount = applied (s_entry tx) (card_amount card)
  | SetTransactions update =>
      exists processed, update = Replace (markProcessed processed (transactions st))
  | _ => False
  end.

(** The requests that [processCard] makes for a card when every call to the
    store succeeds and the clock reads [now]. *)
Definition requestsFor (st : State) (allTransactions : list Stored) (now : Z)
    (card : Card) : list Request :=
  let toProcess := transactionsToProcess allTransactions card now in
  Now ::
  flat_map
    (fun tx =>
       let updatedAmount := applied (s_entry tx) (card_amount card) in
       [UpdateTransaction (s_id tx);
        UpdateCard (card_id card) updatedAmount;
        SetCards (card_id card) updatedAmount])
    toProcess ++
  (if negb (length toProcess =? 0)%nat &&
      bool_decide (Some (card_id card) = selectedCardId st)
   then [SetTransactions (Replace (markProcessed toProcess (transactions st)))]
   else []).

End App.

(** ** Sample data for the handlers *)

Module Household.

Import App.

(** A day of March 2024 and a day of July 2024. *)
Definition march : Moment :=
  {| timeValue := 1710000000000; fullYear := 2024; month := 2 |}.

Definition july : Moment :=
  {| timeValue := 1720000000000; fullYear := 2024; month := 6 |}.

(** A card with 100 on it and a limit of 50 for March 2024. *)
Definition card : Card :=
  {| card_id := "card-1"; card_amount := 100;
     card_limits := [{| ma_month := "2024-03"; ma_amount := 50 |}];
     card_plans := [] |}.

Definition spend (amount : Q) (date : Moment) : Entry :=
  {| e_cardId := "card-1"; e_type := "cost"; e_amount := amount; e_date := Some date |}.

(** A cost of 45 in March that was applied to the balance. *)
Definition groceries : Stored :=
  {| s_id := "tx-1"; s_entry := spend 45 march;
     s_scheduled := Some false; s_isAffect := Some true |}.

Definition state : State :=
  {| cards := [card]; transactions := [groceries]; selectedCardId := Some "card-1" |}.

(** Two scheduled costs of March, of 10 and of 20, not applied yet. *)
Definition pending : list Stored :=
  [{| s_id := "tx-a"; s_entry := spend 10 march;
      s_scheduled := Some true; s_isAffect := Some false |};
   {| s_id := "tx-b"; s_entry := spend 20 march;
      s_scheduled := Some true; s_isAffect := Some false |}].

(** A host whose clock reads [now], whose user answers every warning by
    [answer], and whose store holds [documents] and never fails. *)
Definition host (now : Z) (answer : bool) (documents : list Stored) : Host :=
  fun _ q =>
    match q return Reply q with
    | Now => now
    | GetUserId => Some "user-1"
    | Confirm _ => answer
    | AddTransactionToTable _ _ _ => Returned "tx-new"
    | GetTransactions => Returned documents
    | UpdateTransaction _ | UpdateCard _ _ | DeleteDoc _ => Returned tt
    | SetCards _ _ | SetTransactions _ | Alert _ => tt
    end.

End Household.

(** * The service over IEEE doubles and plain objects *)

(** The trend labels, the forecasts and the category averages depend on
    how doubles round and on what a plain object inherits.  The module
    below embeds the same functions with JavaScript numbers as binary64
    floats (Rocq's primitive floats, evaluated by the kernel) and with the
    lookups of [{}] as JavaScript resolves them. *)

#[local] Set Warnings "-inexact-float".

Module Ieee.

Local Open Scope float_scope.

(** ** Numbers *)

Module Num.

(** [a > b] and [a < b]; both are false when an operand is NaN. *)
Definition gt (a b : float) : bool := PrimFloat.ltb b a.
Definition lt (a b : float) : bool := PrimFloat.ltb a b.

(** [v === 0]: true of both zeros, false of NaN. *)
Definition isZero (v : float) : bool := PrimFloat.eqb v 0.

(** A number is falsy when it is a zero or NaN. *)
Definition truthy (a : float) : bool := negb (isZero a || PrimFloat.is_nan a).

(** [a || b] on numbers. *)
Definition or_ (a b : float) : float := if truthy a then a else b.

(** An array length or a counter as a number (exact below 2^53). *)
Definition of_nat (n : nat) : float := PrimFloat.of_uint63 (Uint63.of_Z (Z.of_nat n)).

(** [Math.max] and [Math.min] of two numbers: NaN if an operand is NaN,
    and [+0] above [-0]. *)
Definition max (a b : float) : float :=
  if PrimFloat.is_nan a || PrimFloat.is_nan b then nan
  else if PrimFloat.ltb a b then b
  else if PrimFloat.ltb b a then a
  else if PrimFloat.get_sign a then b else a.

Definition min (a b : float) : float :=
  if PrimFloat.is_nan a || PrimFloat.is_nan b then nan
  else if PrimFloat.ltb a b then a
  else if PrimFloat.ltb b a then b
  else if PrimFloat.get_sign a then a else b.

(** [arr.reduce((a, b) => a + b, 0)]. *)
Definition sum (l : list float) : float := fold_left PrimFloat.add l 0.

(** [Array(n).fill(x)]. *)
Definition fill (n : nat) (x : float) : list float := replicate n x.

(** [arr[i]] in arithmetic: a missing element is [undefined], which
    arithmetic reads as NaN. *)
Definition at_ (l : list float) (i : nat) : float := nth i l nan.

End Num.

(** The two shapes of a double, as [Prim2SF] shows it, that the service
    tells apart: a falsy number is a zero or NaN, and a number above 0 is
    positive and finite or the positive infinity. *)
Definition falsyShape (f : spec_float) : bool :=
  match f with S754_zero _ | S754_nan => true | _ => false end.

Definition positiveShape (f : spec_float) : bool :=
  match f with S754_infinity false | S754_finite false _ _ => true | _ => false end.

(** ** Plain objects *)

(** The names every plain object inherits from [Object.prototype]. *)
Definition objectPrototype : list string :=
  ["constructor"; "hasOwnProperty"; "isPrototypeOf"; "propertyIsEnumerable";
   "toLocaleString"; "toString"; "valueOf"; "__proto__";
   "__defineGetter__"; "__defineSetter__"; "__lookupGetter__"; "__lookupSetter__"].

Definition inherited (key : string) : bool := bool_decide (key ∈ objectPrototype).

(** A dictionary that the service fills with [o[cat] = value] and reads
    with [o[cat]], for [cat] among the categories: the map holds what
    [o[cat]] reads back.  An assignment under an inherited function name
    creates an own property like any other; the assignment under
    ["__proto__"] makes the value the prototype of [o], where [o["__proto__"]]
    finds it again, and creates no own property. *)
Abbreviation Dict V := (gmap string V) (only parsing).

(** The own properties among the names assigned in the order [created],
    as [Object.keys] and [Object.entries] list them. *)
Definition ownNames (created : list string) : list string :=
  ownKeys (List.filter (fun key => negb (bool_decide (key = "__proto__"))) created).

(** ** Data model *)

(** A transaction as the service reads it: [tx_category = None] is a
    missing category and [tx_amount] is the value of [Number(tx.amount)],
    NaN included. *)
Record Transaction := {
  tx_date : JsDate;
  tx_type : string;
  tx_category : option string;
  tx_amount : float
}.

(** [{ cost, revenue }] of one category inside one month. *)
Record CategoryBucket := { cb_cost : float; cb_revenue : float }.

(** [{ cost, revenue, categories }] of one month; [mb_categories] holds the
    own properties of [categories]. *)
Record MonthBucket := {
  mb_cost : float;
  mb_revenue : float;
  mb_categories : gmap string CategoryBucket
}.

(** The pair returned by [extractFeatures].  The keys of [monthlyData] are
    month keys, which contain a hyphen and so are never inherited names. *)
Record Features := {
  monthlyData : gmap string MonthBucket;
  categories : list string
}.

(** What [m.categories[cat]] finds: a sub-bucket of the month, a member
    inherited from [Object.prototype] (a function, or the prototype itself
    under ["__proto__"]), or nothing. *)
Inductive Member :=
  | Bucket (b : CategoryBucket)
  | Builtin
  | Absent.

Definition member (m : MonthBucket) (cat : string) : Member :=
  match mb_categories m !! cat with
  | Some b => Bucket b
  | None => if inherited cat then Builtin else Absent
  end.

(** The [cost] or [revenue] of an inherited member: [undefined] until the
    service has written to it, NaN afterwards.  The service uses it in a
    sum and before [|| 0] only, where both act as NaN. *)
Definition builtinField : float := nan.

(** ** extractFeatures *)

(** [tx.category || 'Other'] *)
Definition categoryOf (tx : Transaction) : string :=
  match tx_category tx with
  | Some c => if bool_decide (c = "") then "Other" else c
  | None => "Other"
  end.

(** [Number(tx.amount) || 0] *)
Definition amountOf (tx : Transaction) : float := Num.or_ (tx_amount tx) 0.

(** [tx.type === 'cost'] *)
Definition isCost (tx : Transaction) : bool := bool_decide (tx_type tx = "cost").

(** [if (!monthlyData[monthKey]) monthlyData[monthKey] = {...}] *)
Definition ensureMonth (k : string) (md : gmap string MonthBucket) :
    gmap string MonthBucket :=
  match md !! k with
  | Some _ => md
  | None => <[k := {| mb_cost := 0; mb_revenue := 0; mb_categories := ∅ |}]> md
  end.

(** [if (!m.categories[category]) m.categories[category] = {...}]: an
    inherited member is truthy, so no sub-bucket is created under its
    name. *)
Definition ensureCategory (c : string) (m : MonthBucket) : MonthBucket :=
  match member m c with
  | Bucket _ | Builtin => m
  | Absent =>
      {| mb_cost := mb_cost m; mb_revenue := mb_revenue m;
         mb_categories := <[c := {| cb_cost := 0; cb_revenue := 0 |}]> (mb_categories m) |}
  end.

(** [m.cost += amount; m.categories[category].cost += amount]; under an
    inherited name the second assignment writes to the inherited member and
    leaves the month's own sub-buckets as they are. *)
Definition addCost (c : string) (amount : float) (m : MonthBucket) : MonthBucket :=
  {| mb_cost := mb_cost m + amount;
     mb_revenue := mb_revenue m;
     mb_categories :=
       alter (fun b => {| cb_cost := cb_cost b + amount; cb_revenue := cb_revenue b |})
             c (mb_categories m) |}.

(** [m.revenue += amount; m.categories[category].revenue += amount] *)
Definition addRevenue (c : string) (amount : float) (m : MonthBucket) : MonthBucket :=
  {| mb_cost := mb_cost m;
     mb_revenue := mb_revenue m + amount;
     mb_categories :=
       alter (fun b => {| cb_cost := cb_cost b; cb_revenue := cb_revenue b + amount |})
             c (mb_categories m) |}.

(** The body of [transactions.forEach(tx => ...)]. *)
Definition extractStep (acc : Features) (tx : Transaction) : Features :=
  match tx_date tx with
  | InvalidDate => acc
  | LocalDate y m =>
      let key := monthKey y m in
      let category := categoryOf tx in
      let amount := amountOf tx in
      let cats := Js.set_add category (categories acc) in
      let md1 := ensureMonth key (monthlyData acc) in
      let md2 := alter (ensureCategory category) key md1 in
      let md3 :=
        if isCost tx then alter (addCost category amount) key md2
        else alter (addRevenue category amount) key md2 in
      {| monthlyData := md3; categories := cats |}
  end.

Definition extractFeatures (transactions : list Transaction) : Features :=
  fold_left extractStep transactions {| monthlyData := ∅; categories := [] |}.

(** ** calculateStatistics *)

(** [{ cost, revenue, count }] of one category over the whole history. *)
Record CategoryTotal := { ct_cost : float; ct_revenue : float; ct_count : nat }.

(** The object returned by [calculateStatistics]. *)
Record Statistics := {
  avgMonthlyCost : float;
  avgMonthlyRevenue : float;
  totalCost : float;
  totalRevenue : float;
  trend : string;
  topCategories : list string;
  categoryTotals : Dict CategoryTotal;
  months : list string;
  numMonths : nat
}.

(** [monthlyData[month]] for [month] among the keys of [monthlyData]. *)
Definition monthAt (md : gmap string MonthBucket) (month : string) : MonthBucket :=
  default {| mb_cost := 0; mb_revenue := 0; mb_categories := ∅ |} (md !! month).

(** [categories.forEach(cat => { categoryTotals[cat] = {...} })] *)
Definition initTotals (cats : list string) : Dict CategoryTotal :=
  fold_left (fun totals cat => <[cat := {| ct_cost := 0; ct_revenue := 0; ct_count := 0 |}]> totals)
            cats ∅.

(** [categoryTotals[cat]] after one more month in which
    [monthlyData[month].categories[cat]] is truthy. *)
Definition addMember (cost revenue : float) (t : CategoryTotal) : CategoryTotal :=
  {| ct_cost := ct_cost t + cost;
     ct_revenue := ct_revenue t + revenue;
     ct_count := S (ct_count t) |}.

(** The inner [categories.forEach] of the month loop. *)
Definition addMonthToTotals (m : MonthBucket) (cats : list string)
    (totals : Dict CategoryTotal) : Dict CategoryTotal :=
  fold_left
    (fun totals cat =>
       match member m cat with
       | Bucket b => alter (addMember (cb_cost b) (cb_revenue b)) cat totals
       | Builtin => alter (addMember builtinField builtinField) cat totals
       | Absent => totals
       end)
    cats totals.

(** The state threaded through [months.forEach]. *)
Record Totals := {
  acc_cost : float;
  acc_revenue : float;
  acc_categories : Dict CategoryTotal
}.

Definition totalsStep (md : gmap string MonthBucket) (cats : list string)
    (acc : Totals) (month : string) : Totals :=
  {| acc_cost := acc_cost acc + mb_cost (monthAt md month);
     acc_revenue := acc_revenue acc + mb_revenue (monthAt md month);
     acc_categories := addMonthToTotals (monthAt md month) cats (acc_categories acc) |}.

(** The trend label of [calculateStatistics], from the sorted month keys. *)
Definition overallTrend (md : gmap string MonthBucket) (months : list string) : string :=
  if (2 <=? length months)%nat then
    let recentMonths := Js.slice months (-3) None in
    let recentCosts := map (fun m => mb_cost (monthAt md m)) recentMonths in
    if (2 <=? length recentCosts)%nat then
      let half := Z.of_nat (Js.ceil_half (length recentCosts)) in
      let firstHalf := Js.slice recentCosts 0 (Some half) in
      let secondHalf := Js.slice recentCosts half None in
      let firstAvg := Num.sum firstHalf / Num.of_nat (length firstHalf) in
      let secondAvg := Num.sum secondHalf / Num.of_nat (length secondHalf) in
      if Num.gt secondAvg (firstAvg * 1.1) then "increasing"
      else if Num.lt secondAvg (firstAvg * 0.9) then "decreasing"
      else "stable"
    else "stable"
  else "stable".

(** [entries.sort((a, b) => b[1].cost - a[1].cost)]: a stable sort.
    [insertEntry x l] puts [x], which preceded the entries of [l], behind
    the entries for which the comparison is positive. *)
Fixpoint insertEntry (x : string * CategoryTotal) (l : list (string * CategoryTotal)) :
    list (string * CategoryTotal) :=
  match l with
  | [] => [x]
  | y :: rest =>
      if Num.gt (ct_cost (snd y) - ct_cost (snd x)) 0 then y :: insertEntry x rest
      else x :: y :: rest
  end.

Definition sortByCost (l : list (string * CategoryTotal)) : list (string * CategoryTotal) :=
  foldr insertEntry [] l.

(** The comparison of the sort does not put [y] before [x]. *)
Definition keepsOrder (x y : string * CategoryTotal) : Prop :=
  Num.gt (ct_cost (snd y) - ct_cost (snd x)) 0 = false.

(** The [topCategories] of [calculateStatistics], from [categoryTotals] and
    the categories in the order in which they were assigned. *)
Definition topSpending (totals : Dict CategoryTotal) (cats : list string) : list string :=
  let entries := omap (fun key => pair key <$> totals !! key) (ownNames cats) in
  let spending := List.filter (fun e => Num.gt (ct_cost (snd e)) 0) entries in
  map fst (Js.slice (sortByCost spending) 0 (Some 3%Z)).

Definition calculateStatistics (md : gmap string MonthBucket) (cats : list string) :
    Statistics :=
  let months := Js.sorted_keys md in
  let acc := fold_left (totalsStep md cats) months
               {| acc_cost := 0; acc_revenue := 0; acc_categories := initTotals cats |} in
  let numMonths := Js.count_or1 (length months) in
  {| avgMonthlyCost := acc_cost acc / Num.of_nat numMonths;
     avgMonthlyRevenue := acc_revenue acc / Num.of_nat numMonths;
     totalCost := acc_cost acc;
     totalRevenue := acc_revenue acc;
     trend := overallTrend md months;
     topCategories := topSpending (acc_categories acc) cats;
     categoryTotals := acc_categories acc;
     months := months;
     numMonths := numMonths |}.

(** ** predictWithSmoothing *)

Definition predictWithSmoothing (values : list float) (periods : nat)
    (alpha fallbackAverage : float) : list float :=
  let nonZeroValues := List.filter (fun v => Num.gt v 0) values in
  if (length nonZeroValues =? 0)%nat then
    if Num.gt fallbackAverage 0 then Num.fill periods fallbackAverage
    else Num.fill periods 0
  else if (length nonZeroValues =? 1)%nat then
    Num.fill periods (Num.at_ nonZeroValues 0)
  else
    (* for (let i = 1; i < values.length; i++) *)
    let smoothed :=
      fold_left (fun forecast i => alpha * Num.at_ values i + (1 - alpha) * forecast)
                (seq 1 (length values - 1)%nat) (Num.at_ values 0) in
    let avg := Num.sum nonZeroValues / Num.of_nat (length nonZeroValues) in
    let forecast :=
      if Num.lt smoothed (avg * 0.1) && Num.gt avg 0 then avg else smoothed in
    let recentValues :=
      Js.slice values (- Z.of_nat (Nat.min 6 (length values))) None in
    let trendFactor :=
      if (2 <=? length recentValues)%nat then
        (* for (let i = 1; i < recentValues.length; i++) changes.push(...) *)
        let changes :=
          map (fun i => Num.at_ recentValues i - Num.at_ recentValues (i - 1)%nat)
              (seq 1 (length recentValues - 1)%nat) in
        let mean := Num.sum changes / Num.of_nat (length changes) in
        let maxChange := avg * 0.2 in
        Num.max (- maxChange) (Num.min maxChange mean)
      else 0 in
    (* for (let i = 0; i < periods; i++) predictions.push(...) *)
    map (fun i => Num.max 0 (forecast + trendFactor * Num.of_nat (i + 1)%nat)) (seq 0 periods).

(** ** The tensor backend and the regression forecaster *)

(** A trained model and the backend that trains it, as in the exact
    model above. *)
Record Model := {
  predict : list float -> Completion (float * float);
  dispose : Completion unit
}.

Record Backend := {
  fit : nat -> list (list float) -> list (list float) -> Completion Model
}.

(** The input window of the example that ends before month [i]. *)
Definition inputWindow (md : gmap string MonthBucket) (months : list string)
    (windowSize i : nat) : list float :=
  flat_map (fun j => [mb_cost (monthAt md (monthName months j)) / 1000;
                      mb_revenue (monthAt md (monthName months j)) / 1000])
           (seq (i - windowSize)%nat windowSize).

(** [xs] and [ys] of [buildAndTrainModel]. *)
Definition trainingInputs (md : gmap string MonthBucket) (months : list string)
    (windowSize : nat) : list (list float) :=
  map (inputWindow md months windowSize) (seq windowSize (length months - windowSize)%nat).

Definition trainingTargets (md : gmap string MonthBucket) (months : list string)
    (windowSize : nat) : list (list float) :=
  map (fun i => [mb_cost (monthAt md (monthName months i)) / 1000;
                 mb_revenue (monthAt md (monthName months i)) / 1000])
      (seq windowSize (length months - windowSize)%nat).

Definition buildAndTrainModel (tf : Backend) (md : gmap string MonthBucket)
    (cats : list string) : Completion (option Model) :=
  let months := Js.sorted_keys md in
  if (length months <? 3)%nat then Returned None
  else
    let windowSize := Nat.min 3 (length months - 1)%nat in
    let xs := trainingInputs md months windowSize in
    let ys := trainingTargets md months windowSize in
    if (length xs <? 2)%nat then Returned None
    else
      model ← fit tf (windowSize * 2)%nat xs ys;
      Returned (Some model).

(** [{ cost, revenue }] of one predicted month. *)
Record Prediction := { p_cost : float; p_revenue : float }.

(** The loop [for (let i = 0; i < 3; i++)] of [generateMLPredictions], with
    [n] iterations left. *)
Fixpoint predictLoop (model : Model) (n : nat) (lastWindow : list float) :
    Completion (list Prediction) :=
  match n with
  | O => Returned []
  | S n' =>
      values ← predict model lastWindow;
      let predictedCost := Num.max 0 (fst values * 1000) in
      let predictedRevenue := Num.max 0 (snd values * 1000) in
      rest ← predictLoop model n'
               (Js.slice lastWindow 2 None ++ [predictedCost / 1000; predictedRevenue / 1000]);
      Returned ({| p_cost := predictedCost; p_revenue := predictedRevenue |} :: rest)
  end.

Definition generateMLPredictions (model : option Model) (md : gmap string MonthBucket)
    (months : list string) (windowSize : nat) : Completion (option (list Prediction)) :=
  match model with
  | None => Returned None
  | Some model =>
      if (length months <? windowSize)%nat then Returned None
      else
        let lastWindow := inputWindow md months windowSize (length months) in
        predictions ← predictLoop model 3 lastWindow;
        Returned (Some predictions)
  end.

(** ** Category trend and recommendation *)

(** [monthlyData[m].categories[cat]?.cost || 0] and its revenue twin. *)
Definition categoryCostAt (md : gmap string MonthBucket) (cat m : string) : float :=
  match member (monthAt md m) cat with
  | Bucket b => Num.or_ (cb_cost b) 0
  | Builtin => Num.or_ builtinField 0
  | Absent => 0
  end.

Definition categoryRevenueAt (md : gmap string MonthBucket) (cat m : string) : float :=
  match member (monthAt md m) cat with
  | Bucket b => Num.or_ (cb_revenue b) 0
  | Builtin => Num.or_ builtinField 0
  | Absent => 0
  end.

Definition getCategoryTrend (md : gmap string MonthBucket) (months : list string)
    (category : string) : string :=
  if (length months <? 2)%nat then "stable"
  else
    let values := map (categoryCostAt md category) months in
    let recentValues := Js.slice values (-3) None in
    if (length recentValues <? 2)%nat then "stable"
    else
      let half := Z.of_nat (Js.ceil_half (length recentValues)) in
      let firstHalf := Js.slice recentValues 0 (Some half) in
      let secondHalf := Js.slice recentValues half None in
      let firstAvg := Num.or_ (Num.sum firstHalf / Num.of_nat (length firstHalf)) 0 in
      let secondAvg := Num.or_ (Num.sum secondHalf / Num.of_nat (length secondHalf)) 0 in
      if Num.gt secondAvg (firstAvg * 1.15) then "up"
      else if Num.lt secondAvg (firstAvg * 0.85) then "down"
      else "stable".

Definition getRecommendation (category trend : string) (avgCost avgRevenue : float) : string :=
  if bool_decide (trend = "up") && Num.gt avgCost 0 then
    category +:+ " spending is increasing. Consider setting a budget limit."
  else if bool_decide (trend = "down") && Num.gt avgCost 0 then
    "Good job! " +:+ category +:+ " spending is decreasing."
  else if Num.gt avgCost avgRevenue && Num.gt avgRevenue 0 then
    category +:+ " costs exceed revenue. Review expenses."
  else category +:+ " spending is stable.".

(** ** analyzeFinances *)

(** The report, without the month labels, the insight sentences and the
    time stamp. *)
Record Summary := {
  topSpendingCategories : list string;
  averageMonthlySpending : float;
  averageMonthlyRevenue : float;
  spendingTrend : string;
  totalHistoricalCost : float;
  totalHistoricalRevenue : float
}.

(** [pr_costs] and the map of [pr_revenue] are dictionaries filled under
    the category names; [pr_revenue] is [None] for [undefined]. *)
Record Predictions := {
  pr_costs : Dict (list float);
  pr_revenue : option (Dict (list float));
  pr_totalCost : list float;
  pr_totalRevenue : list float;
  pr_netBalance : list float
}.

Record BreakdownEntry := {
  currentAverage : float;
  predictedTrend : string;
  recommendation : string
}.

Record Metadata := {
  transactionCount : nat;
  monthsAnalyzed : nat;
  modelType : string
}.

Record AnalysisReport := {
  summary : Summary;
  predictions : Predictions;
  categoryBreakdown : Dict BreakdownEntry;
  metadata : Metadata
}.

(** The [try { ... } catch (e) { ... }] block: [mlPredictions] after it. *)
Definition tryMLPredictions (tf : Backend) (md : gmap string MonthBucket)
    (cats months : list string) : option (list Prediction) :=
  match buildAndTrainModel tf md cats with
  | Returned (Some model) =>
      match generateMLPredictions (Some model) md months 3 with
      | Returned mlPredictions =>
          (* the assignment precedes [model.dispose()] *)
          match dispose model with
          | Returned _ => mlPredictions
          | Thrown _ => mlPredictions
          end
      | Thrown _ => None
      end
  | Returned None => None
  | Thrown _ => None
  end.

(** [stats.categoryTotals[cat]] for [cat] among [categories]. *)
Definition totalAt (stats : Statistics) (cat : string) : CategoryTotal :=
  default {| ct_cost := 0; ct_revenue := 0; ct_count := 0 |} (categoryTotals stats !! cat).

(** [stats.categoryTotals[cat].cost / (stats.categoryTotals[cat].count || 1)] *)
Definition categoryAvgCost (stats : Statistics) (cat : string) : float :=
  ct_cost (totalAt stats cat) / Num.of_nat (Js.count_or1 (ct_count (totalAt stats cat))).

Definition categoryAvgRevenue (stats : Statistics) (cat : string) : float :=
  ct_revenue (totalAt stats cat) / Num.of_nat (Js.count_or1 (ct_count (totalAt stats cat))).

(** The first [categories.forEach]: the per-category forecasts. *)
Definition categoryForecastStep (md : gmap string MonthBucket) (stats : Statistics)
    (acc : Dict (list float) * Dict (list float)) (cat : string) :
    Dict (list float) * Dict (list float) :=
  let costValues := map (categoryCostAt md cat) (months stats) in
  let revenueValues := map (categoryRevenueAt md cat) (months stats) in
  let catAvgCost := categoryAvgCost stats cat in
  let catAvgRevenue := categoryAvgRevenue stats cat in
  let costs := <[cat := predictWithSmoothing costValues 3 0.3 catAvgCost]> (fst acc) in
  let revenues :=
    if existsb (fun v => Num.gt v 0) revenueValues
    then <[cat := predictWithSmoothing revenueValues 3 0.3 catAvgRevenue]> (snd acc)
    else snd acc in
  (costs, revenues).

(** The second [categories.forEach]: the category breakdown. *)
Definition breakdownStep (md : gmap string MonthBucket) (stats : Statistics)
    (acc : Dict BreakdownEntry) (cat : string) : Dict BreakdownEntry :=
  let avgCost := categoryAvgCost stats cat in
  let avgRevenue := categoryAvgRevenue stats cat in
  let trend := getCategoryTrend md (months stats) cat in
  <[cat := {| currentAverage := Num.or_ avgCost avgRevenue;
              predictedTrend := trend;
              recommendation := getRecommendation cat trend avgCost avgRevenue |}]> acc.

(** The total predictions before the degenerate-data guard. *)
Definition chosenTotals (md : gmap string MonthBucket) (stats : Statistics)
    (mlPredictions : option (list Prediction)) : list float * list float :=
  match mlPredictions with
  | Some ps =>
      if existsb (fun p => Num.gt (p_cost p) 0 || Num.gt (p_revenue p) 0) ps
      then (map p_cost ps, map p_revenue ps)
      else
        (predictWithSmoothing (map (fun m => mb_cost (monthAt md m)) (months stats))
           3 0.3 (avgMonthlyCost stats),
         predictWithSmoothing (map (fun m => mb_revenue (monthAt md m)) (months stats))
           3 0.3 (avgMonthlyRevenue stats))
  | None =>
      (predictWithSmoothing (map (fun m => mb_cost (monthAt md m)) (months stats))
         3 0.3 (avgMonthlyCost stats),
       predictWithSmoothing (map (fun m => mb_revenue (monthAt md m)) (months stats))
         3 0.3 (avgMonthlyRevenue stats))
  end.

(** [if (xs.every(v => v === 0) && avg > 0) xs = Array(3).fill(avg)] *)
Definition guardZeros (xs : list float) (avg : float) : list float :=
  if forallb Num.isZero xs && Num.gt avg 0 then Num.fill 3 avg else xs.

(** The own properties of a dictionary, which [Object.keys],
    [Object.entries] and [JSON.stringify] see: all that it holds but the
    entry under ["__proto__"]. *)
Definition own {V} (o : Dict V) : gmap string V := delete "__proto__" o.

(** [Object.keys(o).length] for a dictionary. *)
Definition ownSize {V} (o : Dict V) : nat := size (own o).

(** The part of [analyzeFinances] after the two guards: from
    [const stats = calculateStatistics(...)] to [return analysis]. *)
Definition assembleReport (tf : Backend) (transactions : list Transaction)
    (md : gmap string MonthBucket) (cats : list string) : AnalysisReport :=
  let stats := calculateStatistics md cats in
  let mlPredictions := tryMLPredictions tf md cats (months stats) in
  let forecasts := fold_left (categoryForecastStep md stats) cats (∅, ∅) in
  let totals := chosenTotals md stats mlPredictions in
  let totalCostPredictions := guardZeros (fst totals) (avgMonthlyCost stats) in
  let totalRevenuePredictions := guardZeros (snd totals) (avgMonthlyRevenue stats) in
  let netBalancePredictions :=
    imap (fun i rev => rev - Num.at_ totalCostPredictions i) totalRevenuePredictions in
  let breakdown := fold_left (breakdownStep md stats) cats ∅ in
  {| summary :=
       {| topSpendingCategories := topCategories stats;
          averageMonthlySpending := avgMonthlyCost stats;
          averageMonthlyRevenue := avgMonthlyRevenue stats;
          spendingTrend := trend stats;
          totalHistoricalCost := totalCost stats;
          totalHistoricalRevenue := totalRevenue stats |};
     predictions :=
       {| pr_costs := fst forecasts;
          pr_revenue :=
            if (0 <? ownSize (snd forecasts))%nat then Some (snd forecasts) else None;
          pr_totalCost := totalCostPredictions;
          pr_totalRevenue := totalRevenuePredictions;
          pr_netBalance := netBalancePredictions |};
     categoryBreakdown := breakdown;
     metadata :=
       {| transactionCount := length transactions;
          monthsAnalyzed := numMonths stats;
          modelType :=
            match mlPredictions with
            | Some _ => "neural-network"
            | None => "statistical"
            end |} |}.

Definition analyzeFinances (tf : Backend) (transactions : option (list Transaction)) :
    Completion AnalysisReport :=
  match transactions with
  | None => Thrown "No transactions available for analysis."
  | Some txs =>
      if (length txs =? 0)%nat then Thrown "No transactions available for analysis."
      else
        let md := monthlyData (extractFeatures txs) in
        let cats := categories (extractFeatures txs) in
        if (size md =? 0)%nat then
          Thrown "No valid transaction data found. Please add some transactions first."
        else Returned (assembleReport tf txs md cats)
  end.

(** ** Reference rules over doubles

    Written from the prose description; sums run over a series from its
    first value to its last, starting from 0. *)

Module Reference.

(** The arithmetic mean of a series. *)
Definition mean (l : list float) : float :=
  fold_left PrimFloat.add l 0 / PrimFloat.of_uint63 (Uint63.of_Z (Z.of_nat (length l))).

(** Trend rule: with fewer than two values the trend is steady; otherwise
    the window is the last up-to-3 values, its first half has [ceil(n/2)]
    values, and the second half's mean is compared with the first half's
    mean times [up] and times [down]. *)
Definition classify (up down : float) (series : list float) : Reference.Direction :=
  match series with
  | [] | [_] => Reference.Steady
  | _ =>
      let window := Reference.lastN 3 series in
      let h := Nat.div2 (length window + 1) in
      let firstMean := mean (take h window) in
      let secondMean := mean (drop h window) in
      if PrimFloat.ltb (firstMean * up) secondMean then Reference.Rising
      else if PrimFloat.ltb secondMean (firstMean * down) then Reference.Falling
      else Reference.Steady
  end.

(** The same rule with a mean that is zero or not a number taken as 0. *)
Definition classifyOrZero (up down : float) (series : list float) : Reference.Direction :=
  match series with
  | [] | [_] => Reference.Steady
  | _ =>
      let window := Reference.lastN 3 series in
      let h := Nat.div2 (length window + 1) in
      let firstMean := Num.or_ (mean (take h window)) 0 in
      let secondMean := Num.or_ (mean (drop h window)) 0 in
      if PrimFloat.ltb (firstMean * up) secondMean then Reference.Rising
      else if PrimFloat.ltb secondMean (firstMean * down) then Reference.Falling
      else Reference.Steady
  end.

(** [x] limited to the interval from [- bound] to [bound]. *)
Definition clamp (bound x : float) : float := Num.max (- bound) (Num.min bound x).

(** Consecutive differences [l[i+1] - l[i]]. *)
Fixpoint differences (l : list float) : list float :=
  match l with
  | a :: (b :: _) as rest => (b - a) :: differences rest
  | _ => []
  end.

(** The smoothing forecaster as described: fallback, single value, or
    exponential smoothing with a clamped linear trend. *)
Definition predict (series : list float) (periods : nat) (alpha fallbackAverage : float) :
    list float :=
  match List.filter (fun v => PrimFloat.ltb 0 v) series with
  | [] =>
      if PrimFloat.ltb 0 fallbackAverage then replicate periods fallbackAverage
      else replicate periods 0
  | [v] => replicate periods v
  | positives =>
      let smoothed :=
        match series with
        | [] => 0
        | first :: rest => fold_left (fun forecast v => alpha * v + (1 - alpha) * forecast) rest first
        end in
      let avg := mean positives in
      let forecast := if PrimFloat.ltb smoothed (0.1 * avg) then avg else smoothed in
      let window := Reference.lastN (Nat.min 6 (length series)) series in
      let trendFactor := clamp (0.2 * avg) (mean (differences window)) in
      map (fun i => Num.max 0 (forecast + trendFactor * Num.of_nat (i + 1)))
          (seq 0 periods)
  end.

End Reference.

(** ** Views of the input used to state the properties *)

(** The transaction has a date that parses. *)
Definition parseable (tx : Transaction) : bool :=
  match tx_date tx with InvalidDate => false | LocalDate _ _ => true end.

(** The month key of a transaction with a parseable date. *)
Definition monthKeyOf (tx : Transaction) : string :=
  match tx_date tx with InvalidDate => "" | LocalDate y m => monthKey y m end.

(** The coerced amounts of the transactions selected by [sel], added up
    from 0 in the order of the list, as [+=] adds them. *)
Definition amountSum (sel : Transaction -> bool) (txs : list Transaction) : float :=
  Num.sum (map amountOf (List.filter sel txs)).

(** The transactions of the month [key], and of the category [cat] in it. *)
Definition inMonth (key : string) (tx : Transaction) : bool :=
  parseable tx && bool_decide (monthKeyOf tx = key).

Definition inCell (key cat : string) (tx : Transaction) : bool :=
  inMonth key tx && bool_decide (categoryOf tx = cat).

(** The transactions of a category, in any month. *)
Definition inCategory (cat : string) (tx : Transaction) : bool :=
  parseable tx && bool_decide (categoryOf tx = cat).

(** The cost transactions and the other transactions of a selection. *)
Definition costsOf (sel : Transaction -> bool) (tx : Transaction) : bool :=
  sel tx && isCost tx.

Definition revenuesOf (sel : Transaction -> bool) (tx : Transaction) : bool :=
  sel tx && negb (isCost tx).

(** What the own sub-bucket of the category [cat] holds after the
    transactions [txs], of which [sel] selects those of the sub-bucket: a
    category named like an inherited member has none; another category has
    one exactly when a selected transaction exists, and its two fields are
    the sums of the selected amounts. *)
Definition CellOk (cat : string) (sel : Transaction -> bool) (txs : list Transaction)
    (oc : option CategoryBucket) : Prop :=
  match oc with
  | None => inherited cat = true \/ existsb sel txs = false
  | Some c =>
      inherited cat = false /\
      existsb sel txs = true /\
      cb_cost c = amountSum (costsOf sel) txs /\
      cb_revenue c = amountSum (revenuesOf sel) txs
  end.

(** What the bucket of the month [key] holds after the transactions [txs]. *)
Definition MonthOk (key : string) (txs : list Transaction)
    (ob : option MonthBucket) : Prop :=
  match ob with
  | None => existsb (inMonth key) txs = false
  | Some b =>
      existsb (inMonth key) txs = true /\
      mb_cost b = amountSum (costsOf (inMonth key)) txs /\
      mb_revenue b = amountSum (revenuesOf (inMonth key)) txs /\
      forall cat, CellOk cat (inCell key cat) txs (mb_categories b !! cat)
  end.

(** The empty buckets, and a bucket after one more transaction. *)
Definition zeroMonth : MonthBucket := {| mb_cost := 0; mb_revenue := 0; mb_categories := ∅ |}.
Definition zeroCell : CategoryBucket := {| cb_cost := 0; cb_revenue := 0 |}.

Definition bump (tx : Transaction) (b : MonthBucket) : MonthBucket :=
  if isCost tx then addCost (categoryOf tx) (amountOf tx) (ensureCategory (categoryOf tx) b)
  else addRevenue (categoryOf tx) (amountOf tx) (ensureCategory (categoryOf tx) b).

Definition bumpCell (tx : Transaction) (c : CategoryBucket) : CategoryBucket :=
  if isCost tx then {| cb_cost := cb_cost c + amountOf tx; cb_revenue := cb_revenue c |}
  else {| cb_cost := cb_cost c; cb_revenue := cb_revenue c + amountOf tx |}.

(** The own sub-buckets of a category over the months, oldest month first. *)
Definition cellsOf (md : gmap string MonthBucket) (months : list string)
    (cat : string) : list CategoryBucket :=
  omap (fun m => mb_categories (monthAt md m) !! cat) months.

(** The months, oldest first, in which a transaction of the category with a
    date that parses is recorded. *)
Definition activeMonths (txs : list Transaction) (cat : string) : list string :=
  List.filter (fun m => existsb (inCell m cat) txs)
    (Js.sorted_keys (monthlyData (extractFeatures txs))).

(** [categoryTotals[cat]] after the months [months], starting from [t]. *)
Definition memberTotals (md : gmap string MonthBucket) (months : list string)
    (cat : string) (t : CategoryTotal) : CategoryTotal :=
  fold_left
    (fun t m =>
       match member (monthAt md m) cat with
       | Bucket b => addMember (cb_cost b) (cb_revenue b) t
       | Builtin => addMember builtinField builtinField t
       | Absent => t
       end)
    months t.

(** The sub-bucket that the transactions of the month [m] and the category
    [cat] add up to. *)
Definition cellFor (txs : list Transaction) (cat m : string) : CategoryBucket :=
  {| cb_cost := amountSum (costsOf (inCell m cat)) txs;
     cb_revenue := amountSum (revenuesOf (inCell m cat)) txs |}.

(** ** Sample histories *)

Module Sample.

(** A cost and a revenue of [amount] in category [cat], dated in month [m]
    (January is 0) of 2024. *)
Definition cost (m : nat) (cat : string) (amount : float) : Transaction :=
  {| tx_date := LocalDate 2024 m; tx_type := "cost";
     tx_category := Some cat; tx_amount := amount |}.

Definition revenue (m : nat) (cat : string) (amount : float) : Transaction :=
  {| tx_date := LocalDate 2024 m; tx_type := "revenue";
     tx_category := Some cat; tx_amount := amount |}.

(** A backend whose training throws. *)
Definition failingBackend : Backend :=
  {| fit := fun _ _ _ => Thrown "backend unavailable" |}.

(** Monthly costs 100, 100, 100, 200, 220 from January to May. *)
Definition fiveMonths : list Transaction :=
  [cost 0 "Food" 100; cost 1 "Food" 100; cost 2 "Food" 100;
   cost 3 "Food" 200; cost 4 "Food" 220].

(** Monthly costs 100 and 112, and 100 and 115. *)
Definition twoMonths : list Transaction := [cost 0 "Food" 100; cost 1 "Food" 112].
Definition risen : list Transaction := [cost 0 "Food" 100; cost 1 "Food" 115].

(** Monthly costs 1.10 and 0.99. *)
Definition eased : list Transaction := [cost 0 "Food" 1.1; cost 1 "Food" 0.99].

(** A category recorded in one of two analyzed months. *)
Definition partial : list Transaction := [cost 0 "Food" 100; cost 1 "Rent" 50].

(** Two salaries and one purchase. *)
Definition salaried : list Transaction :=
  [revenue 0 "Salary" 1000; cost 0 "Food" 100; revenue 1 "Salary" 1000].

(** Costs 0.1, 0.2 and 0.3 in one month. *)
Definition dimes : list Transaction :=
  [cost 0 "Food" 0.1; cost 0 "Food" 0.2; cost 0 "Food" 0.3].

(** A cost under the name of an inherited member. *)
Definition builtinNamed : list Transaction := [cost 0 "constructor" 100].
Definition toStringNamed : list Transaction := [cost 0 "toString" 100].

(** The report of a history when training fails. *)
Definition report (txs : list Transaction) : AnalysisReport :=
  assembleReport failingBackend txs
    (monthlyData (extractFeatures txs)) (categories (extractFeatures txs)).

(** A series that exponential smoothing brings below a tenth of the mean
    of its positive values. *)
Definition collapsed : list float := [147053; 323543; 0; 0; 0; 0; 0; 0].

End Sample.

End Ieee.

(** * Proofs *)

(** ** Facts about the primitives *)

Section js_facts.





Lemma slice_last {A} (n : nat) (l : list A) :
  (0 < n)%nat -> Js.slice l (- Z.of_nat n) None = Reference.lastN n l.
Proof.
  intros Hn. unfold Js.slice, Js.rel_index, Reference.lastN.
  destruct (Z.ltb_spec (- Z.of_nat n) 0); [|lia].
  replace (Z.to_nat (Z.max (Z.of_nat (length l) + - Z.of_nat n) 0))
    with (length l - n)%nat by lia.
  apply take_ge. rewrite length_drop. lia.
Qed.

Lemma slice_prefix {A} (h : nat) (l : list A) :
  Js.slice l 0 (Some (Z.of_nat h)) = take h l.
Proof.
  unfold Js.slice, Js.rel_index. simpl.
  destruct (Z.ltb_spec (Z.of_nat h) 0); [lia|].
  replace (Z.to_nat (Z.min 0 (Z.of_nat (length l)))) with 0%nat by lia.
  rewrite drop_0.
  destruct (decide (h <= length l)%nat) as [Hle|Hgt].
  - f_equal. lia.
  - rewrite (take_ge l h) by lia. apply take_ge. lia.
Qed.

Lemma slice_suffix {A} (h : nat) (l : list A) :
  Js.slice l (Z.of_nat h) None = drop h l.
Proof.
  unfold Js.slice, Js.rel_index.
  destruct (Z.ltb_spec (Z.of_nat h) 0); [lia|].
  destruct (decide (h <= length l)%nat).
  - replace (Z.to_nat (Z.min (Z.of_nat h) (Z.of_nat (length l)))) with h by lia.
    apply take_ge. rewrite length_drop. lia.
  - replace (Z.to_nat (Z.min (Z.of_nat h) (Z.of_nat (length l)))) with (length l) by lia.
    rewrite take_ge by (rewrite length_drop; lia).
    rewrite !drop_ge; auto; lia.
Qed.

Lemma sorted_keys_perm {V} (o : gmap string V) :
  Js.sorted_keys o ≡ₚ map fst (map_to_list o).
Proof. apply merge_sort_Permutation. Qed.

Lemma sorted_keys_length {V} (o : gmap string V) :
  length (Js.sorted_keys o) = size o.
Proof.
  rewrite sorted_keys_perm, length_map. apply length_map_to_list.
Qed.

Lemma lastN_length {A} (n : nat) (l : list A) :
  length (Reference.lastN n l) = Nat.min n (length l).
Proof. unfold Reference.lastN. rewrite length_drop. lia. Qed.

Lemma lastN_map {A B} (f : A -> B) (n : nat) (l : list A) :
  map f (Reference.lastN n l) = Reference.lastN n (map f l).
Proof. unfold Reference.lastN. now rewrite length_map, skipn_map. Qed.

End js_facts.

(** ** The smoothing forecaster *)

Section smoothing.



End smoothing.

(** ** Feature extraction *)

Section extract_step.

Lemma extractStep_invalid (acc : Features) (tx : Transaction) :
  parseable tx = false -> extractStep acc tx = acc.
Proof. unfold parseable, extractStep. now destruct (tx_date tx). Qed.

Lemma extractStep_months (acc : Features) (tx : Transaction) :
  parseable tx = true ->
  monthlyData (extractStep acc tx) =
  <[monthKeyOf tx := bump tx (default zeroMonth (monthlyData acc !! monthKeyOf tx))]>
    (monthlyData acc).
Proof.
  unfold parseable, extractStep, monthKeyOf, bump.
  destruct (tx_date tx) as [|y m]; [discriminate|]. intros _. cbn [monthlyData].
  set (key := monthKey y m). set (md := monthlyData acc). unfold ensureMonth.
  destruct (md !! key) as [b|] eqn:Hb; cbn [default].
  - destruct (isCost tx); rewrite alter_alter_eq, (alter_alt_Some _ _ _ _ Hb); reflexivity.
  - destruct (isCost tx); now rewrite !alter_insert_eq.
Qed.

Lemma extractStep_categories (acc : Features) (tx : Transaction) :
  parseable tx = true ->
  categories (extractStep acc tx) = Js.set_add (categoryOf tx) (categories acc).
Proof.
  unfold parseable, extractStep. now destruct (tx_date tx).
Qed.

Lemma bump_cost (tx : Transaction) (b : MonthBucket) :
  mb_cost (bump tx b) = if isCost tx then mb_cost b + amountOf tx else mb_cost b.
Proof.
  unfold bump, ensureCategory.
  destruct (isCost tx), (mb_categories b !! categoryOf tx); reflexivity.
Qed.

Lemma bump_revenue (tx : Transaction) (b : MonthBucket) :
  mb_revenue (bump tx b) = if isCost tx then mb_revenue b else mb_revenue b + amountOf tx.
Proof.
  unfold bump, ensureCategory.
  destruct (isCost tx), (mb_categories b !! categoryOf tx); reflexivity.
Qed.

Lemma bump_categories (tx : Transaction) (b : MonthBucket) :
  mb_categories (bump tx b) =
  <[categoryOf tx := bumpCell tx (default zeroCell (mb_categories b !! categoryOf tx))]>
    (mb_categories b).
Proof.
  unfold bump, bumpCell, ensureCategory.
  destruct (mb_categories b !! categoryOf tx) as [c|] eqn:Hc; cbn [default];
    destruct (isCost tx); cbn [addCost addRevenue mb_categories];
    first [ rewrite (alter_alt_Some _ _ _ _ Hc) | rewrite alter_insert_eq ]; reflexivity.
Qed.

Lemma extractFeatures_snoc (txs : list Transaction) (tx : Transaction) :
  extractFeatures (txs ++ [tx]) = extractStep (extractFeatures txs) tx.
Proof. unfold extractFeatures. now rewrite fold_left_app. Qed.

End extract_step.

Section extract_invariant.

Lemma amountSum_snoc (sel : Transaction -> bool) (txs : list Transaction)
    (tx : Transaction) :
  amountSum sel (txs ++ [tx]) ==
  amountSum sel txs + (if sel tx then amountOf tx else 0).
Proof.
  unfold amountSum. rewrite List.filter_app, map_app, foldr_app. simpl.
  generalize (map amountOf (List.filter sel txs)) as l.
  destruct (sel tx); simpl; induction l as [|x l IH]; simpl; try rewrite IH; ring.
Qed.

Lemma costs_snoc (sel : Transaction -> bool) (txs : list Transaction)
    (tx : Transaction) :
  amountSum (costsOf sel) (txs ++ [tx]) ==
  amountSum (costsOf sel) txs + (if sel tx && isCost tx then amountOf tx else 0).
Proof. apply amountSum_snoc. Qed.

Lemma revenues_snoc (sel : Transaction -> bool) (txs : list Transaction)
    (tx : Transaction) :
  amountSum (revenuesOf sel) (txs ++ [tx]) ==
  amountSum (revenuesOf sel) txs + (if sel tx && negb (isCost tx) then amountOf tx else 0).
Proof. apply amountSum_snoc. Qed.

Lemma amountSum_none (sel sel' : Transaction -> bool) (txs : list Transaction) :
  existsb sel txs = false ->
  (forall tx, sel' tx = true -> sel tx = true) ->
  amountSum sel' txs == 0.
Proof.
  intros Hnone Himp. unfold amountSum.
  induction txs as [|tx txs IH]; [reflexivity|].
  simpl in Hnone. apply orb_false_iff in Hnone as [Htx Hrest].
  simpl. destruct (sel' tx) eqn:E.
  - apply Himp in E. congruence.
  - now apply IH.
Qed.

Lemma existsb_snoc (sel : Transaction -> bool) (txs : list Transaction)
    (tx : Transaction) :
  existsb sel (txs ++ [tx]) = existsb sel txs || sel tx.
Proof. rewrite existsb_app. simpl. now rewrite orb_false_r. Qed.

Lemma CellOk_skip (sel : Transaction -> bool) (txs : list Transaction)
    (tx : Transaction) (oc : option CategoryBucket) :
  sel tx = false -> CellOk sel txs oc -> CellOk sel (txs ++ [tx]) oc.
Proof.
  intros Hsel. unfold CellOk.
  destruct oc as [c|]; rewrite existsb_snoc, ?costs_snoc, ?revenues_snoc, Hsel, orb_false_r;
    cbn [andb].
  - intros (? & Hc & Hr). rewrite Hc, Hr. repeat split; auto; ring.
  - auto.
Qed.

Lemma CellOk_bump (sel : Transaction -> bool) (txs : list Transaction)
    (tx : Transaction) (oc : option CategoryBucket) :
  sel tx = true -> CellOk sel txs oc ->
  CellOk sel (txs ++ [tx]) (Some (bumpCell tx (default zeroCell oc))).
Proof.
  intros Hsel Hok. unfold CellOk.
  rewrite existsb_snoc, costs_snoc, revenues_snoc, Hsel, orb_true_r. cbn [andb].
  assert (Hc : cb_cost (default zeroCell oc) == amountSum (costsOf sel) txs /\
               cb_revenue (default zeroCell oc) == amountSum (revenuesOf sel) txs).
  { destruct oc as [c|]; simpl in *.
    - tauto.
    - split; symmetry; apply (amountSum_none sel); auto;
        unfold costsOf, revenuesOf; intros t Ht; now apply andb_true_iff in Ht. }
  destruct Hc as [Hc Hr]. unfold bumpCell.
  destruct (isCost tx); cbn [andb negb cb_cost cb_revenue];
    (split; [reflexivity|]); rewrite Hc, Hr; split; ring.
Qed.

Lemma inCell_inMonth (key cat : string) (tx : Transaction) :
  inMonth key tx = false -> inCell key cat tx = false.
Proof. unfold inCell. now intros ->. Qed.

Lemma MonthOk_skip (key : string) (txs : list Transaction) (tx : Transaction)
    (ob : option MonthBucket) :
  inMonth key tx = false -> MonthOk key txs ob -> MonthOk key (txs ++ [tx]) ob.
Proof.
  intros Hsel. unfold MonthOk.
  destruct ob as [b|]; rewrite existsb_snoc, ?costs_snoc, ?revenues_snoc, Hsel, orb_false_r;
    cbn [andb].
  - intros (? & Hc & Hr & Hcells). rewrite Hc, Hr. repeat split; auto; try ring.
    intros cat. apply CellOk_skip; auto using inCell_inMonth.
  - auto.
Qed.

Lemma MonthOk_bump (key : string) (txs : list Transaction) (tx : Transaction)
    (ob : option MonthBucket) :
  inMonth key tx = true -> MonthOk key txs ob ->
  MonthOk key (txs ++ [tx]) (Some (bump tx (default zeroMonth ob))).
Proof.
  intros Hsel Hok. unfold MonthOk.
  rewrite existsb_snoc, costs_snoc, revenues_snoc, Hsel, orb_true_r. cbn [andb].
  assert (Hb : mb_cost (default zeroMonth ob) == amountSum (costsOf (inMonth key)) txs /\
               mb_revenue (default zeroMonth ob) == amountSum (revenuesOf (inMonth key)) txs /\
               forall cat, CellOk (inCell key cat) txs
                             (mb_categories (default zeroMonth ob) !! cat)).
  { destruct ob as [b|]; simpl in *.
    - tauto.
    - repeat split.
      + symmetry; apply (amountSum_none (inMonth key)); auto.
        unfold costsOf; intros t Ht; now apply andb_true_iff in Ht.
      + symmetry; apply (amountSum_none (inMonth key)); auto.
        unfold revenuesOf; intros t Ht; now apply andb_true_iff in Ht.
      + intros cat. rewrite lookup_empty. simpl.
        clear -Hok. induction txs as [|t txs IH]; [reflexivity|].
        simpl in *. apply orb_false_iff in Hok as [H1 H2].
        rewrite (inCell_inMonth _ _ _ H1). now apply IH. }
  destruct Hb as (Hc & Hr & Hcells).
  split; [reflexivity|]. rewrite bump_cost, bump_revenue, bump_categories.
  split; [|split].
  - destruct (isCost tx); rewrite Hc; cbn [andb negb]; ring.
  - destruct (isCost tx); rewrite Hr; cbn [andb negb]; ring.
  - intros cat. destruct (decide (categoryOf tx = cat)) as [<-|Hne].
    + rewrite lookup_insert_eq. apply CellOk_bump; auto.
      unfold inCell. rewrite Hsel. now rewrite bool_decide_eq_true_2.
    + rewrite lookup_insert_ne by assumption. apply CellOk_skip; auto.
      unfold inCell. rewrite bool_decide_eq_false_2 by assumption. apply andb_false_r.
Qed.

Lemma extractFeatures_months (txs : list Transaction) (key : string) :
  MonthOk key txs (monthlyData (extractFeatures txs) !! key).
Proof.
  induction txs as [|tx txs IH] using rev_ind.
  - unfold extractFeatures. simpl. now rewrite lookup_empty.
  - rewrite extractFeatures_snoc.
    destruct (parseable tx) eqn:Hp.
    + rewrite extractStep_months by assumption.
      destruct (decide (monthKeyOf tx = key)) as [<-|Hne].
      * rewrite lookup_insert_eq. apply MonthOk_bump; auto.
        unfold inMonth. rewrite Hp. now rewrite bool_decide_eq_true_2.
      * rewrite lookup_insert_ne by assumption. apply MonthOk_skip; auto.
        unfold inMonth. rewrite bool_decide_eq_false_2 by assumption. apply andb_false_r.
    + rewrite extractStep_invalid by assumption. apply MonthOk_skip; auto.
      unfold inMonth. now rewrite Hp.
Qed.

End extract_invariant.

Section conservation.

(** No month bucket exists exactly when no date parses. *)
Lemma extractFeatures_empty (txs : list Transaction) :
  monthlyData (extractFeatures txs) = ∅ <-> Forall (fun tx => parseable tx = false) txs.
Proof.
  rewrite map_empty. split.
  - intros Hnone. apply Forall_forall. intros tx Htx.
    destruct (parseable tx) eqn:Hp; [|reflexivity].
    pose proof (extractFeatures_months txs (monthKeyOf tx)) as Hok.
    rewrite Hnone in Hok. simpl in Hok.
    assert (existsb (inMonth (monthKeyOf tx)) txs = true); [|congruence].
    apply existsb_exists. exists tx. split; [now apply list_elem_of_In|].
    unfold inMonth. rewrite Hp. now rewrite bool_decide_eq_true_2.
  - intros Hall key.
    pose proof (extractFeatures_months txs key) as Hok.
    destruct (monthlyData (extractFeatures txs) !! key); [|reflexivity].
    destruct Hok as [Hex _]. apply existsb_exists in Hex as (tx & Htx & Hin).
    rewrite Forall_forall in Hall. apply list_elem_of_In, Hall in Htx.
    unfold inMonth in Hin. rewrite Htx in Hin. discriminate.
Qed.

Lemma extractFeatures_categories (txs : list Transaction) :
  NoDup (categories (extractFeatures txs)) /\
  forall c, c ∈ categories (extractFeatures txs) <->
            exists tx, tx ∈ txs /\ parseable tx = true /\ categoryOf tx = c.
Proof.
  induction txs as [|tx txs [IHnd IHin]] using rev_ind.
  - split; [constructor|]. intros c. split.
    + intros H. inversion H.
    + intros (tx & H & _). inversion H.
  - rewrite extractFeatures_snoc. destruct (parseable tx) eqn:Hp.
    + rewrite extractStep_categories by assumption. unfold Js.set_add.
      case_bool_decide as Hmem.
      * split; [assumption|]. intros c. rewrite IHin. split.
        -- intros (t & Ht & H). exists t. rewrite elem_of_app. tauto.
        -- intros (t & Ht & Htp & Htc). apply elem_of_app in Ht as [Ht|Ht]; eauto.
           apply list_elem_of_singleton in Ht. subst t. apply IHin. now subst c.
      * split.
        -- apply NoDup_app. repeat split; auto.
           ++ intros x Hx Hx'. apply list_elem_of_singleton in Hx'. now subst x.
           ++ apply NoDup_singleton.
        -- intros c. rewrite elem_of_app, IHin, list_elem_of_singleton. split.
           ++ intros [(t & Ht & H)| ->].
              ** exists t. rewrite elem_of_app. tauto.
              ** exists tx. rewrite elem_of_app, list_elem_of_singleton. tauto.
           ++ intros (t & Ht & Htp & Htc). apply elem_of_app in Ht as [Ht|Ht]; eauto.
              apply list_elem_of_singleton in Ht. subst t. now right.
    + rewrite extractStep_invalid by assumption. split; [assumption|].
      intros c. rewrite IHin. split.
      * intros (t & Ht & H). exists t. rewrite elem_of_app. tauto.
      * intros (t & Ht & Htp & Htc). apply elem_of_app in Ht as [Ht|Ht]; eauto.
        apply list_elem_of_singleton in Ht. subst t. congruence.
Qed.

End conservation.

(** ** The orchestrator *)

Section orchestrator.

Lemma analyzeFinances_returned (tf : Backend) (transactions : option (list Transaction))
    (r : AnalysisReport) :
  analyzeFinances tf transactions = Returned r <->
  exists txs, transactions = Some txs /\ txs <> [] /\
              monthlyData (extractFeatures txs) <> ∅ /\
              r = assembleReport tf txs (monthlyData (extractFeatures txs))
                    (categories (extractFeatures txs)).
Proof.
  unfold analyzeFinances. split.
  - destruct transactions as [txs|]; [|discriminate].
    destruct (Nat.eqb_spec (length txs) 0) as [|Hlen]; [discriminate|].
    destruct (Nat.eqb_spec (size (monthlyData (extractFeatures txs))) 0) as [|Hsize];
      [discriminate|].
    intros [= <-]. exists txs. repeat split; auto.
    + intros ->. now apply Hlen.
    + now apply map_size_non_empty_iff.
  - intros (txs & -> & Hne & Hmd & ->).
    destruct (Nat.eqb_spec (length txs) 0) as [Hlen|_].
    + destruct txs; [congruence|discriminate].
    + apply map_size_non_empty_iff in Hmd.
      now destruct (Nat.eqb_spec (size (monthlyData (extractFeatures txs))) 0).
Qed.

Lemma analyzeFinances_total (tf : Backend) (transactions : option (list Transaction)) :
  (exists e, analyzeFinances tf transactions = Thrown e) <->
  ~ (exists r, analyzeFinances tf transactions = Returned r).
Proof.
  destruct (analyzeFinances tf transactions) as [r|e]; split.
  - intros [e [=]].
  - intros H. exfalso. apply H. now exists r.
  - intros _ [r [=]].
  - intros _. now exists e.
Qed.

(** C1. [analyzeFinances] fails exactly when the transaction list is null or
    empty, or when feature extraction yields no month bucket, which happens
    exactly when no date parses; the error is then one of the two "no data"
    errors. In every other case it returns a report, whatever the tensor
    backend does, including throwing during training or inference. *)
Theorem analyzeFinances_fails_iff_no_data (tf : Backend)
    (transactions : option (list Transaction)) :
  let noData :=
    transactions = None \/ transactions = Some [] \/
    exists txs, transactions = Some txs /\ monthlyData (extractFeatures txs) = ∅ in
  ((exists e, analyzeFinances tf transactions = Thrown e) <-> noData) /\
  ((exists r, analyzeFinances tf transactions = Returned r) <-> ~ noData) /\
  (forall e, analyzeFinances tf transactions = Thrown e ->
     e = "No transactions available for analysis." \/
     e = "No valid transaction data found. Please add some transactions first.") /\
  (forall txs, monthlyData (extractFeatures txs) = ∅ <->
               Forall (fun tx => tx_date tx = InvalidDate) txs).
Proof.
  cbv zeta.
  assert (Hret : (exists r, analyzeFinances tf transactions = Returned r) <->
                 ~ (transactions = None \/ transactions = Some [] \/
                    exists txs, transactions = Some txs /\
                                monthlyData (extractFeatures txs) = ∅)).
  { split.
    - intros [r Hr]. apply analyzeFinances_returned in Hr as (txs & -> & Hne & Hmd & _).
      intros [H|[H|(txs' & H & Hempty)]]; try discriminate; congruence.
    - intros Hno. destruct transactions as [txs|]; [|exfalso; apply Hno; now left].
      eexists. apply analyzeFinances_returned. exists txs.
      split; [reflexivity|]. split; [|split; [|reflexivity]].
      + intros ->. apply Hno. right. now left.
      + intros H. apply Hno. right. right. eauto. }
  split; [|split; [|split]].
  - rewrite analyzeFinances_total, Hret.
    destruct transactions as [[|tx txs]|]; [intuition| |intuition].
    destruct (decide (monthlyData (extractFeatures (tx :: txs)) = ∅)) as [He|Hne].
    + split; [eauto 6|]. intros _ Hno. apply Hno. eauto 6.
    + split; [|tauto]. intros H. exfalso. apply H.
      intros [H'|[H'|(txs' & H' & Hempty)]]; try discriminate; congruence.
  - exact Hret.
  - intros e. unfold analyzeFinances.
    destruct transactions as [txs|]; [|intros [= <-]; now left].
    destruct (length txs =? 0)%nat; [intros [= <-]; now left|].
    destruct (size _ =? 0)%nat; [intros [= <-]; now right|discriminate].
  - intros txs. rewrite extractFeatures_empty. apply Forall_iff. intros tx.
    unfold parseable. destruct (tx_date tx); split; congruence.
Qed.

End orchestrator.

(** ** The regression guards and the shape of the forecasts *)

Section regression.

Lemma trainingInputs_length (md : gmap string MonthBucket) (months : list string)
    (windowSize : nat) :
  length (trainingInputs md months windowSize) = (length months - windowSize)%nat.
Proof. unfold trainingInputs. now rewrite length_map, length_seq. Qed.

(** C5. With [n] distinct months and window size [min(3, n - 1)], the
    sliding windows give [n - windowSize] training examples;
    [buildAndTrainModel] returns null, without throwing and without calling
    the backend, when [n < 3] or when there are fewer than 2 examples, and
    calls the backend's training in every other case (that is, from 5 months
    on). *)
Theorem buildAndTrainModel_guards (tf : Backend) (md : gmap string MonthBucket)
    (cats : list string) :
  let months := Js.sorted_keys md in
  let windowSize := Nat.min 3 (size md - 1) in
  let xs := trainingInputs md months windowSize in
  let ys := trainingTargets md months windowSize in
  length xs = (size md - windowSize)%nat /\
  buildAndTrainModel tf md cats =
    (if bool_decide (size md < 3 \/ length xs < 2)%nat then Returned None
     else model ← fit tf (windowSize * 2)%nat xs ys; Returned (Some model)) /\
  (buildAndTrainModel tf md cats = Returned None <->
   (size md < 3 \/ length xs < 2)%nat) /\
  ((size md < 3 \/ length xs < 2)%nat <-> (size md < 5)%nat).
Proof.
  cbv zeta. rewrite trainingInputs_length, sorted_keys_length.
  assert (Hdef : buildAndTrainModel tf md cats =
    (if bool_decide (size md < 3 \/ size md - Nat.min 3 (size md - 1) < 2)%nat
     then Returned None
     else model ← fit tf (Nat.min 3 (size md - 1) * 2)%nat
                    (trainingInputs md (Js.sorted_keys md) (Nat.min 3 (size md - 1)))
                    (trainingTargets md (Js.sorted_keys md) (Nat.min 3 (size md - 1)));
          Returned (Some model))).
  { unfold buildAndTrainModel. rewrite trainingInputs_length, sorted_keys_length.
    destruct (Nat.ltb_spec (size md) 3) as [Hlt|Hge].
    - rewrite bool_decide_eq_true_2 by (now left). reflexivity.
    - destruct (Nat.ltb_spec (size md - Nat.min 3 (size md - 1)) 2) as [Hlt|Hge'].
      + rewrite bool_decide_eq_true_2 by (now right). reflexivity.
      + rewrite bool_decide_eq_false_2 by lia. reflexivity. }
  split; [reflexivity|]. split; [exact Hdef|]. split; [|lia].
  rewrite Hdef. case_bool_decide as Hguard.
  - tauto.
  - split; [|tauto]. intros H. exfalso.
    destruct (fit tf _ _ _); discriminate H.
Qed.



End regression.

Section nonnegative.





End nonnegative.

(** ** The maps of the report *)

Section report_maps.
Context {V : Type}.

(** A [forEach] that stores [g c] under every visited key [c] that passes
    [keep]. *)
Lemma fold_insert_lookup (keep : string -> bool) (g : string -> V)
    (cats : list string) (acc : gmap string V) (cat : string) :
  fold_left (fun acc c => if keep c then <[c := g c]> acc else acc) cats acc !! cat =
  if bool_decide (cat ∈ cats) && keep cat then Some (g cat) else acc !! cat.
Proof.
  revert acc. induction cats as [|c cats IH]; intros acc; [reflexivity|].
  cbn [fold_left]. rewrite IH.
  destruct (decide (cat = c)) as [->|Hne].
  - rewrite (bool_decide_eq_true_2 (c ∈ c :: cats)) by left.
    destruct (keep c) eqn:Hkeep; cbn [andb].
    + rewrite lookup_insert_eq. now destruct (bool_decide _).
    + now rewrite andb_false_r.
  - assert (Hmem : bool_decide (cat ∈ c :: cats) = bool_decide (cat ∈ cats)).
    { apply bool_decide_ext. rewrite elem_of_cons. tauto. }
    rewrite Hmem. destruct (bool_decide (cat ∈ cats) && keep cat); [reflexivity|].
    destruct (keep c); [now rewrite lookup_insert_ne|reflexivity].
Qed.

End report_maps.

Section report.
Context (tf : Backend) (txs : list Transaction).
Let md := monthlyData (extractFeatures txs).
Let cats := categories (extractFeatures txs).
Let stats := calculateStatistics md cats.



End report.

(** ** Sums by month *)

Section month_sums.

Lemma sorted_keys_elem {V} (o : gmap string V) (k : string) :
  k ∈ Js.sorted_keys o <-> is_Some (o !! k).
Proof.
  rewrite sorted_keys_perm. change (map fst (map_to_list o)) with ((map_to_list o).*1).
  rewrite list_elem_of_fmap. split.
  - intros ([k' v] & -> & Hin). apply elem_of_map_to_list in Hin. eauto.
  - intros [v Hv]. exists (k, v). split; [reflexivity|]. now apply elem_of_map_to_list.
Qed.

Lemma sorted_keys_NoDup {V} (o : gmap string V) : NoDup (Js.sorted_keys o).
Proof. rewrite sorted_keys_perm. apply NoDup_fst_map_to_list. Qed.







End month_sums.

Section category_average.
Context (txs : list Transaction).
Let md := monthlyData (extractFeatures txs).

Lemma months_cover (tx : Transaction) :
  tx ∈ txs -> parseable tx = true -> monthKeyOf tx ∈ Js.sorted_keys md.
Proof.
  intros Hin Hp. apply sorted_keys_elem.
  pose proof (extractFeatures_months txs (monthKeyOf tx)) as Hok. fold md in Hok.
  destruct (md !! monthKeyOf tx); [eauto|]. simpl in Hok. exfalso.
  assert (existsb (inMonth (monthKeyOf tx)) txs = true); [|congruence].
  apply existsb_exists. exists tx. split; [now apply list_elem_of_In|].
  unfold inMonth. rewrite Hp. now rewrite bool_decide_eq_true_2.
Qed.

End category_average.

(** ** Net balance, categories and model type of the report *)

Section claims.

(** C6 (evaluation at the failing input). With five months of history and a
    trained model that predicts zeros, the regression output exists but is
    not used: the totals are the smoothing forecasts of the monthly series,
    and yet the report says [modelType = "neural-network"]. *)
Theorem modelType_ignores_fallback :
  let md := monthlyData (extractFeatures Sample.fiveMonths) in
  let cats := categories (extractFeatures Sample.fiveMonths) in
  let stats := calculateStatistics md cats in
  exists r,
    analyzeFinances Sample.zeroBackend (Some Sample.fiveMonths) = Returned r /\
    tryMLPredictions Sample.zeroBackend md cats (months stats) =
      Some [ {| p_cost := 0; p_revenue := 0 |}; {| p_cost := 0; p_revenue := 0 |};
             {| p_cost := 0; p_revenue := 0 |} ] /\
    pr_totalCost (predictions r) =
      predictWithSmoothing (monthlyCosts md) 3 (3 # 10) (avgMonthlyCost stats) /\
    pr_totalCost (predictions r) <> [0; 0; 0] /\
    modelType (metadata r) = "neural-network".
Proof.
  cbv zeta. eexists. split; [vm_compute; reflexivity|].
  split; [vm_compute; reflexivity|].
  split; [vm_compute; reflexivity|].
  split; [vm_compute; discriminate|vm_compute; reflexivity].
Qed.




Lemma occurrences_NoDup (c : string) (l : list string) :
  NoDup l ->
  length (filter (fun x => x = c) l) = if bool_decide (c ∈ l) then 1%nat else 0%nat.
Proof.
  induction 1 as [|x l Hx Hnd IH]; [reflexivity|].
  rewrite filter_cons. destruct (decide (x = c)) as [->|Hne].
  - rewrite (bool_decide_eq_true_2 (c ∈ c :: l)) by left.
    rewrite (bool_decide_eq_false_2 (c ∈ l)) in IH by assumption.
    simpl. now rewrite IH.
  - rewrite IH.
    assert (Hmem : bool_decide (c ∈ x :: l) = bool_decide (c ∈ l)).
    { apply bool_decide_ext. rewrite elem_of_cons. split; [|tauto].
      intros [->|H]; [congruence|assumption]. }
    now rewrite Hmem.
Qed.

(** C9 (as amended). The category list returned by [extractFeatures] has no
    duplicates, and a category is in it exactly when it is the category (with
    a missing or empty one read as "Other") of a transaction whose date
    parses. So such a category occurs exactly once in the list, and a
    category that occurs only on transactions with unparseable dates does not
    occur in it. *)
Theorem categories_once_for_parseable (txs : list Transaction) (c : string) :
  NoDup (categories (extractFeatures txs)) /\
  (c ∈ categories (extractFeatures txs) <->
   exists tx, tx ∈ txs /\ parseable tx = true /\ categoryOf tx = c) /\
  length (filter (fun x => x = c) (categories (extractFeatures txs))) =
    if existsb (inCategory c) txs then 1%nat else 0%nat.
Proof.
  destruct (extractFeatures_categories txs) as [Hnd Hmem].
  split; [exact Hnd|]. split; [apply Hmem|].
  rewrite occurrences_NoDup by exact Hnd.
  assert (Hsame : bool_decide (c ∈ categories (extractFeatures txs)) =
                  existsb (inCategory c) txs); [|now rewrite Hsame].
  apply eq_true_iff_eq. rewrite bool_decide_eq_true, Hmem, existsb_exists.
  unfold inCategory. split.
  - intros (tx & Hin & Hp & Hc). exists tx. split; [now apply list_elem_of_In|].
    rewrite Hp. now rewrite bool_decide_eq_true_2.
  - intros (tx & Hin & Hsel). apply andb_true_iff in Hsel as [Hp Hc].
    apply bool_decide_eq_true in Hc. exists tx.
    split; [now apply list_elem_of_In|]. split; assumption.
Qed.

(** C9 (counterexample). A category carried only by a transaction with an
    unparseable date is not in the category list. *)
Lemma category_of_undated_missing :
  ~ (forall (txs : list Transaction) (tx : Transaction),
       tx ∈ txs -> categoryOf tx ∈ categories (extractFeatures txs)).
Proof.
  intros H. specialize (H [Sample.undated "Rent" 50] (Sample.undated "Rent" 50)).
  vm_compute in H. specialize (H ltac:(left)). inversion H.
Qed.

End claims.

(** ** Counters *)

Section counters.

Lemma count_or1_max (n : nat) : Js.count_or1 n = Nat.max 1 n.
Proof. unfold Js.count_or1. destruct n as [|n]; [reflexivity|]. cbn [Nat.eqb]. lia. Qed.

End counters.

(** * Further properties *)

Section report_facts.





Lemma months_count (txs : list Transaction) :
  length (Js.sorted_keys (monthlyData (extractFeatures txs))) =
  length (remove_dups (map monthKeyOf (List.filter parseable txs))).
Proof.
  apply Permutation_length, NoDup_Permutation.
  - apply sorted_keys_NoDup.
  - apply NoDup_remove_dups.
  - intros m. rewrite elem_of_remove_dups. split.
    + intros Hm. apply sorted_keys_elem in Hm as [b Hb].
      pose proof (extractFeatures_months txs m) as Hok. rewrite Hb in Hok.
      destruct Hok as [Hex _]. apply existsb_exists in Hex as (tx & Hin & Hsel).
      unfold inMonth in Hsel. apply andb_true_iff in Hsel as [Hp Hk].
      apply bool_decide_eq_true in Hk. apply list_elem_of_fmap. exists tx.
      split; [now symmetry|]. apply list_elem_of_In, List.filter_In. now split.
    + intros Hm. apply list_elem_of_fmap in Hm as (tx & -> & Hin).
      apply list_elem_of_In, List.filter_In in Hin as [Hin Hp].
      apply months_cover; [now apply list_elem_of_In|assumption].
Qed.



Lemma trained_needs_five (tf : Backend) (md : gmap string MonthBucket)
    (cats : list string) (model : Model) :
  buildAndTrainModel tf md cats = Returned (Some model) -> (5 <= size md)%nat.
Proof.
  unfold buildAndTrainModel. rewrite trainingInputs_length, sorted_keys_length.
  destruct (Nat.ltb_spec (size md) 3); [discriminate|].
  destruct (Nat.ltb_spec (size md - Nat.min 3 (size md - 1)) 2); [discriminate|].
  intros _. lia.
Qed.

Lemma untrained_below_five (tf : Backend) (md : gmap string MonthBucket)
    (cats : list string) :
  (size md < 5)%nat -> buildAndTrainModel tf md cats = Returned None.
Proof.
  intros Hsize. unfold buildAndTrainModel.
  rewrite trainingInputs_length, sorted_keys_length.
  destruct (Nat.ltb_spec (size md) 3); [reflexivity|].
  destruct (Nat.ltb_spec (size md - Nat.min 3 (size md - 1)) 2); [reflexivity|lia].
Qed.

(** X5. The label of a report is "neural-network" or "statistical".  It is
    "neural-network" only when at least 5 distinct months were analyzed;
    with fewer months the backend is not asked to train a model
    ([buildAndTrainModel] returns [null] whatever the backend would do) and
    the label is "statistical". *)
Theorem neural_network_needs_five_months (tf : Backend) (txs : list Transaction)
    (r : AnalysisReport) :
  analyzeFinances tf (Some txs) = Returned r ->
  (modelType (metadata r) = "neural-network" \/ modelType (metadata r) = "statistical") /\
  (modelType (metadata r) = "neural-network" -> (5 <= monthsAnalyzed (metadata r))%nat) /\
  ((monthsAnalyzed (metadata r) < 5)%nat ->
   modelType (metadata r) = "statistical" /\
   forall tf' : Backend,
     buildAndTrainModel tf' (monthlyData (extractFeatures txs))
       (categories (extractFeatures txs)) = Returned None).
Proof.
  intros Hr. apply analyzeFinances_returned in Hr as (txs' & [= <-] & _ & _ & ->).
  unfold assembleReport. cbn [metadata modelType monthsAnalyzed].
  unfold calculateStatistics. cbn [numMonths months].
  rewrite sorted_keys_length, count_or1_max.
  set (md := monthlyData (extractFeatures txs)).
  set (cats := categories (extractFeatures txs)).
  split; [|split].
  - destruct (tryMLPredictions tf md cats _); auto.
  - unfold tryMLPredictions.
    destruct (buildAndTrainModel tf md cats) as [[model|]|] eqn:Hb; try discriminate.
    intros _. apply trained_needs_five in Hb. lia.
  - intros Hfew. assert (Hsize : (size md < 5)%nat) by lia. split.
    + unfold tryMLPredictions. now rewrite (untrained_below_five tf md cats Hsize).
    + intros tf'. now apply untrained_below_five.
Qed.

End report_facts.

Section regression_shapes.

Lemma inputWindow_length (md : gmap string MonthBucket) (months : list string)
    (windowSize i : nat) :
  length (inputWindow md months windowSize i) = (2 * windowSize)%nat.
Proof.
  unfold inputWindow. generalize (i - windowSize)%nat as start.
  induction windowSize as [|w IH]; intros start; [reflexivity|].
  cbn [seq flat_map]. rewrite length_app, IH. simpl. lia.
Qed.

(** X6. From 5 distinct months on, [buildAndTrainModel] trains on windows of
    3 months: it passes input size 6 to the backend, one example per month
    after the third, every input row has 6 numbers and every target row 2. *)
Theorem training_examples_shape (tf : Backend) (md : gmap string MonthBucket)
    (cats : list string) :
  (5 <= size md)%nat ->
  let months := Js.sorted_keys md in
  let xs := trainingInputs md months 3 in
  let ys := trainingTargets md months 3 in
  buildAndTrainModel tf md cats = (model ← fit tf 6 xs ys; Returned (Some model)) /\
  length xs = (size md - 3)%nat /\
  length ys = length xs /\
  Forall (fun row => length row = 6%nat) xs /\
  Forall (fun row => length row = 2%nat) ys.
Proof.
  intros Hsize. cbv zeta. split; [|split; [|split; [|split]]].
  - unfold buildAndTrainModel. rewrite sorted_keys_length.
    replace (Nat.min 3 (size md - 1)) with 3%nat by lia.
    rewrite trainingInputs_length, sorted_keys_length.
    destruct (Nat.ltb_spec (size md) 3); [lia|].
    destruct (Nat.ltb_spec (size md - 3) 2); [lia|]. reflexivity.
  - now rewrite trainingInputs_length, sorted_keys_length.
  - unfold trainingInputs, trainingTargets. now rewrite !length_map.
  - apply Forall_forall. intros row Hrow. unfold trainingInputs in Hrow.
    apply list_elem_of_fmap in Hrow as (i & -> & _). apply inputWindow_length.
  - apply Forall_forall. intros row Hrow. unfold trainingTargets in Hrow.
    apply list_elem_of_fmap in Hrow as (i & -> & _). reflexivity.
Qed.



End regression_shapes.

Section month_keys.

Lemma append_length (s t : string) :
  String.length (s +:+ t) = (String.length s + String.length t)%nat.
Proof. induction s as [|a s IH]; simpl; [reflexivity|now rewrite IH]. Qed.

Lemma append_inj_suffix (s1 s2 t1 t2 : string) :
  String.length t1 = String.length t2 ->
  s1 +:+ t1 = s2 +:+ t2 -> s1 = s2 /\ t1 = t2.
Proof.
  intros Hlen. revert s2. induction s1 as [|a s1 IH]; intros [|b s2] H.
  - auto.
  - apply (f_equal String.length) in H. rewrite !append_length in H. simpl in H. lia.
  - apply (f_equal String.length) in H. rewrite !append_length in H. simpl in H. lia.
  - simpl in H. injection H as -> H. destruct (IH _ H) as [-> ->]. auto.
Qed.

(** X9. Two dates with a valid month index get the same month key only when
    they have the same year and the same month. *)
Theorem monthKey_injective (y y' : Z) (m m' : nat) :
  (m < 12)%nat -> (m' < 12)%nat ->
  monthKey y m = monthKey y' m' -> y = y' /\ m = m'.
Proof.
  intros Hm Hm' Hkey. unfold monthKey in Hkey.
  assert (Hpad : forall k, (k < 12)%nat ->
            String.length ("-" +:+ Js.padStart 2 "0" (pretty (k + 1)%nat)) = 3%nat).
  { intros k Hk. do 12 (destruct k as [|k]; [reflexivity|]). lia. }
  apply append_inj_suffix in Hkey as [Hy Hmonth];
    [|now rewrite !Hpad].
  split; [now apply (inj pretty)|].
  clear -Hm Hm' Hmonth.
  do 12 (destruct m as [|m];
         [do 12 (destruct m' as [|m']; [first [reflexivity|discriminate Hmonth]|]); lia|]).
  lia.
Qed.

End month_keys.

Section own_keys.

Lemma arrayIndex_pretty (key : string) (n : N) : arrayIndex key = Some n -> pretty n = key.
Proof.
  unfold arrayIndex. destruct key as [|c rest]; [discriminate|].
  destruct (digitsValue _ 0) as [m|]; [|discriminate].
  case_bool_decide as Hm; [|discriminate]. destruct (m <? 4294967295)%N; [|discriminate].
  now intros [= <-].
Qed.

Lemma index_keys (created : list string) :
  map pretty (omap arrayIndex created) =
  List.filter (fun key => match arrayIndex key with None => false | Some _ => true end) created.
Proof.
  induction created as [|key created IH]; [reflexivity|].
  change (omap arrayIndex (key :: created))
    with (match arrayIndex key with
          | Some n => n :: omap arrayIndex created
          | None => omap arrayIndex created
          end).
  simpl. destruct (arrayIndex key) as [n|] eqn:Hn; [|exact IH].
  simpl. now rewrite IH, (arrayIndex_pretty key n Hn).
Qed.

Lemma partition_perm {A} (p : A -> bool) (l : list A) :
  List.filter p l ++ List.filter (fun x => negb (p x)) l ≡ₚ l.
Proof.
  induction l as [|x l IH]; [reflexivity|]. simpl. destruct (p x); simpl.
  - now rewrite IH.
  - rewrite <- Permutation_middle. now rewrite IH.
Qed.

Lemma ownKeys_perm (created : list string) : ownKeys created ≡ₚ created.
Proof.
  unfold ownKeys.
  assert (Hsorted : map pretty (merge_sort N.le (omap arrayIndex created)) ≡ₚ
                    map pretty (omap arrayIndex created)).
  { apply Permutation_map. apply merge_sort_Permutation. }
  rewrite Hsorted, index_keys.
  etransitivity; [|apply (partition_perm
                (fun key => match arrayIndex key with None => false | Some _ => true end))].
  apply Permutation_app; [reflexivity|].
  rewrite (List.filter_ext _
             (fun key => negb match arrayIndex key with None => false | Some _ => true end));
    [reflexivity|].
  intros key. now destruct (arrayIndex key).
Qed.

End own_keys.

Section list_filters.

Lemma filter_elem {A} (p : A -> bool) (l : list A) (x : A) :
  x ∈ List.filter p l <-> x ∈ l /\ p x = true.
Proof. rewrite !list_elem_of_In. apply filter_In. Qed.

Lemma filter_sublist {A} (p : A -> bool) (l : list A) : List.filter p l `sublist_of` l.
Proof.
  induction l as [|x l IH]; [constructor|]. simpl.
  destruct (p x); now constructor.
Qed.

End list_filters.

Section month_labels.

Lemma firstOfMonth_carry (year monthIndex : Z) :
  (99 < year)%Z ->
  let d := firstOfMonth year monthIndex in
  (0 <= snd d < 12)%Z /\ (12 * fst d + snd d = 12 * year + monthIndex)%Z.
Proof.
  intros Hyear. unfold firstOfMonth.
  destruct (Z.leb_spec year 99); [lia|]. rewrite andb_false_r. cbn [fst snd].
  pose proof (Z.mod_pos_bound monthIndex 12 ltac:(lia)).
  pose proof (Z.div_mod monthIndex 12 ltac:(lia)). lia.
Qed.

(** X13. [getNext3Months] labels the 3 calendar months that follow the
    current one, carrying into the next year after December: the label at
    position [i] is the short name of month [m] followed by the year [y],
    where [12 * y + m] is [i + 1] more than for the current month. *)
Theorem getNext3Months_consecutive (monthShort : Z -> string) (year month : Z) :
  (99 < year)%Z ->
  let labels := getNext3Months monthShort year month in
  length labels = 3%nat /\
  forall (i : nat) (label : string),
    labels !! i = Some label ->
    exists y m,
      label = monthShort m +:+ " " +:+ pretty y /\
      (0 <= m < 12)%Z /\
      (12 * y + m = 12 * year + month + Z.of_nat i + 1)%Z.
Proof.
  intros Hyear labels. split; [reflexivity|]. intros i label Hi.
  assert (Hcase : exists k, (k = Z.of_nat i + 1)%Z /\
            label = monthShort (snd (firstOfMonth year (month + k))) +:+ " " +:+
                    pretty (fst (firstOfMonth year (month + k)))).
  { destruct i as [|[|[|i]]]; simpl in Hi; try discriminate;
      injection Hi as <-; eexists; (split; [|reflexivity]); lia. }
  destruct Hcase as (k & Hk & ->).
  destruct (firstOfMonth_carry year (month + k) Hyear) as [Hm Hsum].
  eexists _, _. split; [reflexivity|]. split; [exact Hm|]. lia.
Qed.

Lemma getNext3Months_consecutive_witness :
  (99 < 2024)%Z /\
  getNext3Months (fun m => pretty m) 2024 10 !! 1%nat = Some "0 2025" /\
  exists y m,
    "0 2025" = pretty m +:+ " " +:+ pretty y /\
    (0 <= m < 12)%Z /\
    (12 * y + m = 12 * 2024 + 10 + Z.of_nat 1 + 1)%Z.
Proof.
  assert (H1 : (99 < 2024)%Z) by lia.
  assert (H2 : getNext3Months (fun m => pretty m) 2024 10 !! 1%nat = Some "0 2025")
    by (vm_compute; reflexivity).
  split; [exact H1|]. split; [exact H2|].
  exact (proj2 (getNext3Months_consecutive (fun m => pretty m) 2024 10 H1) 1%nat _ H2).
Defined.

End month_labels.

Section examples.



Lemma neural_network_needs_five_months_witness :
  analyzeFinances Sample.zeroBackend (Some Sample.fiveMonths) =
    Returned Scenario.fiveMonthsReport /\
  modelType (metadata Scenario.fiveMonthsReport) = "neural-network" /\
  (5 <= monthsAnalyzed (metadata Scenario.fiveMonthsReport))%nat.
Proof.
  assert (H1 : analyzeFinances Sample.zeroBackend (Some Sample.fiveMonths) =
               Returned Scenario.fiveMonthsReport) by (vm_compute; reflexivity).
  assert (H2 : modelType (metadata Scenario.fiveMonthsReport) = "neural-network")
    by (vm_compute; reflexivity).
  split; [exact H1|]. split; [exact H2|].
  exact (proj1 (proj2 (neural_network_needs_five_months _ _ _ H1)) H2).
Defined.

Lemma training_examples_shape_witness :
  let md := monthlyData (extractFeatures Sample.fiveMonths) in
  (5 <= size md)%nat /\
  length (trainingInputs md (Js.sorted_keys md) 3) = (size md - 3)%nat.
Proof.
  cbv zeta.
  assert (H1 : (5 <= size (monthlyData (extractFeatures Sample.fiveMonths)))%nat)
    by (vm_compute; lia).
  split; [exact H1|].
  exact (proj1 (proj2 (training_examples_shape Sample.zeroBackend _ [] H1))).
Defined.


Lemma monthKey_injective_witness :
  (0 < 12)%nat /\ (0 < 12)%nat /\ monthKey 2024 0 = monthKey 2024 0 /\
  2024%Z = 2024%Z /\ 0%nat = 0%nat.
Proof.
  assert (H1 : (0 < 12)%nat) by lia.
  assert (H2 : monthKey 2024 0 = monthKey 2024 0) by reflexivity.
  split; [exact H1|]. split; [exact H1|]. split; [exact H2|].
  exact (monthKey_injective 2024 2024 0 0 H1 H1 H2).
Defined.

End examples.

Section backend_independence.

Lemma untrained (tf : Backend) (md : gmap string MonthBucket) (cats months : list string) :
  (size md < 5)%nat -> tryMLPredictions tf md cats months = None.
Proof.
  intros Hsize. unfold tryMLPredictions.
  destruct (buildAndTrainModel tf md cats) as [[model|]|failure] eqn:Hbuild;
    try reflexivity.
  apply trained_needs_five in Hbuild. lia.
Qed.

(** X22. With fewer than 5 distinct months of transactions whose date
    parses, the backend is irrelevant: [analyzeFinances] gives the same
    outcome, report or error, with any two backends. *)
Theorem small_history_ignores_backend (tf tf' : Backend) (txs : list Transaction) :
  (length (remove_dups (map monthKeyOf (List.filter parseable txs))) < 5)%nat ->
  analyzeFinances tf (Some txs) = analyzeFinances tf' (Some txs).
Proof.
  intros Hfew. rewrite <- months_count, sorted_keys_length in Hfew.
  unfold analyzeFinances.
  destruct (length txs =? 0)%nat; [reflexivity|].
  destruct (size (monthlyData (extractFeatures txs)) =? 0)%nat; [reflexivity|].
  unfold assembleReport.
  now rewrite (untrained tf), (untrained tf') by assumption.
Qed.

Lemma small_history_ignores_backend_witness :
  (length (remove_dups (map monthKeyOf (List.filter parseable Sample.twoMonths))) < 5)%nat /\
  analyzeFinances Sample.zeroBackend (Some Sample.twoMonths) =
  analyzeFinances Sample.failingBackend (Some Sample.twoMonths).
Proof.
  assert (H1 : (length (remove_dups (map monthKeyOf
                  (List.filter parseable Sample.twoMonths))) < 5)%nat)
    by (vm_compute; lia).
  split; [exact H1|].
  exact (small_history_ignores_backend Sample.zeroBackend Sample.failingBackend _ H1).
Defined.

End backend_independence.

(** * Properties over IEEE doubles *)

(** ** Facts about doubles *)

Section double_facts.

Local Open Scope float_scope.

(** Multiplication of doubles is commutative. *)
Lemma mul_comm (x y : float) : x * y = y * x.
Proof.
  apply Prim2SF_inj. rewrite !mul_spec. unfold SF64mul, SFmul.
  destruct (Prim2SF x) as [sx|sx| |sx mx ex], (Prim2SF y) as [sy|sy| |sy my ey];
    try reflexivity; rewrite ?(xorb_comm sx sy); try reflexivity.
  now rewrite (Pos.mul_comm mx my), (Z.add_comm ex ey).
Qed.

Lemma truthy_shape (x : float) : Ieee.Num.truthy x = negb (Ieee.falsyShape (Prim2SF x)).
Proof.
  unfold Ieee.Num.truthy, Ieee.Num.isZero, PrimFloat.is_nan.
  rewrite !FloatAxioms.eqb_spec. change (Prim2SF 0) with (S754_zero false).
  unfold SFeqb. destruct (Prim2SF x) as [s|s| |s m e]; try reflexivity.
  - now destruct s.
  - cbn. rewrite Z.compare_refl, Pos.compare_cont_refl. now destruct s.
Qed.

Lemma positive_shape (x : float) : PrimFloat.ltb 0 x = Ieee.positiveShape (Prim2SF x).
Proof.
  rewrite ltb_spec. change (Prim2SF 0) with (S754_zero false).
  unfold SFltb. destruct (Prim2SF x) as [s|[]| |[] m e]; reflexivity.
Qed.

(** Adding NaN gives NaN. *)
Lemma add_nan_r (x : float) : x + nan = nan.
Proof.
  apply Prim2SF_inj. rewrite add_spec. change (Prim2SF nan) with S754_nan.
  unfold SF64add, SFadd. destruct (Prim2SF x) as [[]|[]| |[] m e]; reflexivity.
Qed.

(** A falsy number is not above 0, and nothing above 0 is below it. *)
Lemma falsy_not_positive (x : float) :
  Ieee.Num.truthy x = false -> PrimFloat.ltb 0 x = false.
Proof.
  rewrite truthy_shape, positive_shape.
  destruct (Prim2SF x) as [s|[]| |[] m e]; cbn; congruence.
Qed.

Lemma positive_not_below_falsy (r c : float) :
  PrimFloat.ltb 0 r = true -> Ieee.Num.truthy c = false -> PrimFloat.ltb r c = false.
Proof.
  rewrite truthy_shape, positive_shape, ltb_spec. unfold SFltb.
  destruct (Prim2SF r) as [s|[]| |[] m e]; cbn; try discriminate;
    destruct (Prim2SF c) as [s'|[]| |[] m' e']; cbn; congruence.
Qed.

Lemma positive_not_negative (x : float) :
  PrimFloat.ltb 0 x = true -> PrimFloat.ltb x 0 = false.
Proof.
  intros H. apply positive_not_below_falsy; [exact H|reflexivity].
Qed.

(** [0 / x] is falsy whatever [x] is. *)
Lemma zero_div_falsy (x : float) : Ieee.Num.truthy (0 / x) = false.
Proof.
  rewrite truthy_shape, div_spec. change (Prim2SF 0) with (S754_zero false).
  unfold SF64div, SFdiv. destruct (Prim2SF x) as [s|s| |s m e]; reflexivity.
Qed.

Lemma gt_or_zero (x : float) : Ieee.Num.gt (Ieee.Num.or_ x 0) 0 = Ieee.Num.gt x 0.
Proof.
  unfold Ieee.Num.or_, Ieee.Num.gt. destruct (Ieee.Num.truthy x) eqn:E; [reflexivity|].
  now rewrite (falsy_not_positive x E).
Qed.

(** [Math.max(0, x)] is never below 0. *)
Lemma max0_not_negative (x : float) : PrimFloat.ltb (Ieee.Num.max 0 x) 0 = false.
Proof.
  unfold Ieee.Num.max.
  destruct (PrimFloat.is_nan 0 || PrimFloat.is_nan x); [reflexivity|].
  destruct (PrimFloat.ltb 0 x) eqn:Hpos; [now apply positive_not_negative|].
  destruct (PrimFloat.ltb x 0); reflexivity.
Qed.

(** A sum of zeros is zero. *)
Lemma sum_zeros (l : list float) :
  Forall (fun v => v = 0) l -> Ieee.Num.sum l = 0.
Proof.
  unfold Ieee.Num.sum. induction 1 as [|x l -> _ IH]; [reflexivity|].
  cbn [fold_left]. exact IH.
Qed.

(** The sign of a difference: when [y - x] is above 0, [x - y] is not. *)
Lemma binary_round_negative (prec emax : Z) (m : positive) (e : Z) :
  Ieee.positiveShape (binary_round prec emax true m e) = false.
Proof.
  unfold binary_round. destruct (shl_align _ _ _) as [mz ez].
  unfold binary_round_aux. destruct (shr_fexp _ _ _ _ _) as [mrs' e'].
  destruct (shr_fexp _ _ _ _ _) as [mrs'' e''].
  destruct (shr_m mrs''); [reflexivity| |reflexivity].
  now destruct (_ <=? _)%Z.
Qed.

Lemma sub_shape_antisym (prec emax : Z) (X Y : spec_float) :
  Ieee.positiveShape (SFsub prec emax X Y) = true ->
  Ieee.positiveShape (SFsub prec emax Y X) = false.
Proof.
  destruct X as [sx|sx| |sx mx ex], Y as [sy|sy| |sy my ey]; cbn;
    try (destruct sx, sy; cbn; congruence); try (destruct sx; cbn; congruence);
    try (destruct sy; cbn; congruence); try congruence.
  unfold SFsub.
  rewrite (Z.min_comm ey ex).
  set (a := cond_Zopp sx _). set (b := cond_Zopp sy _).
  replace (b - a)%Z with (- (a - b))%Z by lia.
  destruct (a - b)%Z as [|p|p]; cbn [Z.opp binary_normalize].
  - discriminate.
  - intros _. apply binary_round_negative.
  - now rewrite binary_round_negative.
Qed.

Lemma sub_antisym (x y : float) :
  Ieee.Num.gt (y - x) 0 = true -> Ieee.Num.gt (x - y) 0 = false.
Proof.
  unfold Ieee.Num.gt. rewrite !positive_shape, !sub_spec. apply sub_shape_antisym.
Qed.

End double_facts.

(** ** The smoothing forecaster over doubles *)

Section ieee_smoothing.

Local Open Scope float_scope.

(** The indexed smoothing loop visits the values after the first one. *)
Lemma ieee_indexed_fold (g : float -> float -> float) (pre suf : list float) (a : float) :
  fold_left (fun acc i => g (Ieee.Num.at_ (pre ++ suf) i) acc)
            (seq (length pre) (length suf)) a =
  fold_left (fun acc v => g v acc) suf a.
Proof.
  revert pre a. induction suf as [|x suf IH]; intros pre a; [reflexivity|].
  simpl. unfold Ieee.Num.at_ at 2. rewrite nth_middle.
  specialize (IH (pre ++ [x]) (g x a)).
  rewrite <- app_assoc, length_app in IH. simpl in IH.
  rewrite Nat.add_1_r in IH. exact IH.
Qed.

Lemma ieee_smoothing_loop (alpha first : float) (rest : list float) :
  fold_left (fun forecast i =>
               alpha * Ieee.Num.at_ (first :: rest) i + (1 - alpha) * forecast)
            (seq 1 (length (first :: rest) - 1)) (Ieee.Num.at_ (first :: rest) 0) =
  fold_left (fun forecast v => alpha * v + (1 - alpha) * forecast) rest first.
Proof.
  replace (length (first :: rest) - 1)%nat with (length rest) by (simpl; lia).
  apply (ieee_indexed_fold (fun v acc => alpha * v + (1 - alpha) * acc) [first] rest).
Qed.

(** The indexed loop that fills [changes] computes consecutive differences. *)
Lemma ieee_indexed_differences (pre : list float) (a : float) (suf : list float) :
  map (fun i => Ieee.Num.at_ (pre ++ a :: suf) i - Ieee.Num.at_ (pre ++ a :: suf) (i - 1)%nat)
      (seq (S (length pre)) (length suf)) =
  Ieee.Reference.differences (a :: suf).
Proof.
  revert pre a. induction suf as [|b suf IH]; intros pre a; [reflexivity|].
  simpl seq. simpl map.
  change (Ieee.Reference.differences (a :: b :: suf))
    with ((b - a) :: Ieee.Reference.differences (b :: suf)).
  f_equal.
  - unfold Ieee.Num.at_. rewrite Nat.sub_0_r, nth_middle.
    change (pre ++ a :: b :: suf) with (pre ++ [a] ++ b :: suf).
    rewrite app_assoc.
    replace (S (length pre)) with (length (pre ++ [a])) by (rewrite length_app; simpl; lia).
    now rewrite nth_middle.
  - specialize (IH (pre ++ [a]) b).
    rewrite <- app_assoc, length_app in IH. simpl in IH.
    rewrite Nat.add_1_r in IH. exact IH.
Qed.

Lemma ieee_changes_loop (recent : list float) :
  map (fun i => Ieee.Num.at_ recent i - Ieee.Num.at_ recent (i - 1)%nat)
      (seq 1 (length recent - 1)) =
  Ieee.Reference.differences recent.
Proof.
  destruct recent as [|a suf]; [reflexivity|].
  replace (length (a :: suf) - 1)%nat with (length suf) by (simpl; lia).
  apply (ieee_indexed_differences [] a suf).
Qed.

Lemma ieee_predictWithSmoothing_length (values : list float) (periods : nat)
    (alpha fallbackAverage : float) :
  length (Ieee.predictWithSmoothing values periods alpha fallbackAverage) = periods.
Proof.
  unfold Ieee.predictWithSmoothing, Ieee.Num.fill.
  repeat match goal with |- context [if ?c then _ else _] => destruct c end;
    rewrite ?length_replicate, ?length_map, ?length_seq; reflexivity.
Qed.

(** C2. For every series of doubles, number of periods, smoothing factor
    and fallback average, [predictWithSmoothing] returns exactly the list
    of [periods] doubles of the reference algorithm [Reference.predict]:
    the fallback (or zeros) without a positive value, copies of the single
    positive value, and otherwise exponential smoothing seeded at the first
    value, the override by the mean of the positive values when the
    forecast is below a tenth of it, the mean of the differences of the
    last [min(6, len)] values limited to a fifth of that mean, and
    [max(0, forecast + trendFactor * (i + 1))].  Every operation is the
    operation on doubles, rounded as the code rounds it.  Where the code
    also tests [avg > 0] before the override, the statement assumes what
    holds of a mean of two or more positive doubles, that it is positive.
    The function is total. *)
Theorem smoothing_forecaster_refinement (values : list float) (periods : nat)
    (alpha fallbackAverage : float) :
  let positives := List.filter (fun v => PrimFloat.ltb 0 v) values in
  ((2 <= length positives)%nat ->
   PrimFloat.ltb 0 (Ieee.Reference.mean positives) = true) ->
  Ieee.predictWithSmoothing values periods alpha fallbackAverage =
    Ieee.Reference.predict values periods alpha fallbackAverage /\
  length (Ieee.predictWithSmoothing values periods alpha fallbackAverage) = periods.
Proof.
  intros positives Hmean. split; [|apply ieee_predictWithSmoothing_length].
  unfold Ieee.predictWithSmoothing, Ieee.Reference.predict.
  pose proof (List.filter_length_le (fun v => Ieee.Num.gt v 0) values) as Hlen.
  change (List.filter (fun v => Ieee.Num.gt v 0) values) with positives in *.
  change (List.filter (fun v => PrimFloat.ltb 0 v) values) with positives.
  destruct positives as [|v1 [|v2 more]] eqn:Hfilter; [reflexivity..|].
  cbn [length Nat.eqb].
  destruct values as [|first rest]; [discriminate Hfilter|].
  assert (Hlen2 : (2 <= length (first :: rest))%nat) by (simpl in Hlen; simpl; lia).
  rewrite ieee_smoothing_loop.
  set (smoothed := fold_left _ rest first).
  set (pos := v1 :: v2 :: more) in *.
  change (S (S (length more))) with (length pos).
  change (Ieee.Num.sum pos / Ieee.Num.of_nat (length pos)) with (Ieee.Reference.mean pos).
  set (avg := Ieee.Reference.mean pos) in *.
  unfold Ieee.Num.gt at 1. rewrite Hmean by (simpl; lia). rewrite andb_true_r.
  rewrite slice_last by lia.
  set (recent := Reference.lastN _ (first :: rest)).
  assert (Hrecent : (2 <=? length recent)%nat = true).
  { apply Nat.leb_le. subst recent. rewrite lastN_length. lia. }
  rewrite Hrecent, ieee_changes_loop.
  unfold Ieee.Reference.clamp.
  rewrite (mul_comm avg 0.1), (mul_comm avg 0.2).
  unfold Ieee.Num.lt.
  change (Ieee.Num.sum (Ieee.Reference.differences recent) /
          Ieee.Num.of_nat (length (Ieee.Reference.differences recent)))
    with (Ieee.Reference.mean (Ieee.Reference.differences recent)).
  reflexivity.
Qed.

Lemma smoothing_forecaster_refinement_witness :
  let positives := List.filter (fun v => PrimFloat.ltb 0 v) Ieee.Sample.collapsed in
  ((2 <= length positives)%nat ->
   PrimFloat.ltb 0 (Ieee.Reference.mean positives) = true) /\
  Ieee.predictWithSmoothing Ieee.Sample.collapsed 3 0.3 0 =
    Ieee.Reference.predict Ieee.Sample.collapsed 3 0.3 0 /\
  Ieee.predictWithSmoothing Ieee.Sample.collapsed 3 0.3 0 = [235298; 235298; 235298].
Proof.
  cbv zeta.
  assert (H1 : (2 <= length (List.filter (fun v => PrimFloat.ltb 0 v)
                               Ieee.Sample.collapsed))%nat ->
               PrimFloat.ltb 0
                 (Ieee.Reference.mean
                    (List.filter (fun v => PrimFloat.ltb 0 v) Ieee.Sample.collapsed)) = true)
    by (intros _; vm_compute; reflexivity).
  split; [exact H1|].
  split; [exact (proj1 (smoothing_forecaster_refinement _ 3 0.3 0 H1))|].
  vm_compute. reflexivity.
Defined.

End ieee_smoothing.

(** ** The trend rules over doubles *)

Section ieee_trends.

Local Open Scope float_scope.

Lemma ceil_half_div2 (n : nat) : Js.ceil_half n = Nat.div2 (n + 1).
Proof.
  unfold Js.ceil_half, Js.num, Qceiling, Qfloor, Qdiv, Qmult, Qinv, Qopp. cbn.
  rewrite Nat.div2_div. apply Nat2Z.inj. rewrite Nat2Z.inj_div, Nat2Z.inj_add.
  change (Z.pos (1 * 2)) with 2%Z. rewrite Z.mul_1_r.
  change (Z.of_nat 2) with 2%Z. change (Z.of_nat 1) with 1%Z.
  Z.to_euclidean_division_equations. lia.
Qed.

(** The three-way comparison shared by the two trend functions; [wrap] is
    the identity for the overall trend and [|| 0] for a category. *)
Lemma ieee_halves (up down : float) (window : list float) (wrap : float -> float) :
  let half := Z.of_nat (Js.ceil_half (length window)) in
  let firstHalf := Js.slice window 0 (Some half) in
  let secondHalf := Js.slice window half None in
  (wrap (Ieee.Num.sum firstHalf / Ieee.Num.of_nat (length firstHalf)),
   wrap (Ieee.Num.sum secondHalf / Ieee.Num.of_nat (length secondHalf))) =
  let h := Nat.div2 (length window + 1) in
  (wrap (Ieee.Reference.mean (take h window)), wrap (Ieee.Reference.mean (drop h window))).
Proof.
  cbv zeta. now rewrite slice_prefix, slice_suffix, ceil_half_div2.
Qed.

Lemma ieee_overallTrend_classify (md : gmap string Ieee.MonthBucket) (months : list string) :
  Ieee.overallTrend md months =
  Reference.overallLabel
    (Ieee.Reference.classify 1.1 0.9 (map (fun m => Ieee.mb_cost (Ieee.monthAt md m)) months)).
Proof.
  destruct months as [|a [|b rest]]; [reflexivity..|].
  unfold Ieee.overallTrend, Ieee.Reference.classify.
  set (months := a :: b :: rest).
  change (map _ months) with (map (fun m => Ieee.mb_cost (Ieee.monthAt md m)) months) at 2.
  replace (2 <=? length months)%nat with true by (symmetry; apply Nat.leb_le; simpl; lia).
  change (-3)%Z with (- Z.of_nat 3)%Z. rewrite slice_last by lia.
  rewrite lastN_map.
  set (series := map _ months).
  assert (Hlen : (2 <= length (Reference.lastN 3 series))%nat).
  { rewrite lastN_length. subst series. rewrite length_map. simpl. lia. }
  replace (2 <=? length (Reference.lastN 3 series))%nat with true
    by (symmetry; now apply Nat.leb_le).
  pose proof (ieee_halves 1.1 0.9 (Reference.lastN 3 series) (fun x => x)) as H.
  cbv zeta in H. injection H as -> ->.
  unfold Ieee.Num.gt, Ieee.Num.lt.
  subst series months. cbn [map].
  repeat match goal with |- context [if ?c then _ else _] => destruct c end; reflexivity.
Qed.

Lemma ieee_getCategoryTrend_classify (md : gmap string Ieee.MonthBucket)
    (months : list string) (cat : string) :
  Ieee.getCategoryTrend md months cat =
  Reference.categoryLabel
    (Ieee.Reference.classifyOrZero 1.15 0.85 (map (Ieee.categoryCostAt md cat) months)).
Proof.
  destruct months as [|a [|b rest]]; [reflexivity..|].
  unfold Ieee.getCategoryTrend, Ieee.Reference.classifyOrZero.
  set (months := a :: b :: rest).
  change (map _ months) with (map (Ieee.categoryCostAt md cat) months) at 2.
  replace (length months <? 2)%nat with false by (symmetry; apply Nat.ltb_ge; simpl; lia).
  change (-3)%Z with (- Z.of_nat 3)%Z. rewrite slice_last by lia.
  set (series := map _ months).
  assert (Hlen : (2 <= length (Reference.lastN 3 series))%nat).
  { rewrite lastN_length. subst series. rewrite length_map. simpl. lia. }
  replace (length (Reference.lastN 3 series) <? 2)%nat with false
    by (symmetry; now apply Nat.ltb_ge).
  pose proof (ieee_halves 1.15 0.85 (Reference.lastN 3 series)
                (fun x => Ieee.Num.or_ x 0)) as H.
  cbv zeta in H. injection H as -> ->.
  unfold Ieee.Num.gt, Ieee.Num.lt.
  subst series months. cbn [map].
  repeat match goal with |- context [if ?c then _ else _] => destruct c end; reflexivity.
Qed.

(** C4. For every monthly history, the trend of [calculateStatistics] is the
    rule of the statistics engine evaluated on doubles: "stable" with fewer
    than 2 months; otherwise, over the last up-to-3 monthly costs split
    into a first half of [ceil(n/2)] values and the rest, "increasing" when
    the second half's mean exceeds the first half's mean times 1.1,
    "decreasing" when it is below the first half's mean times 0.9, and
    "stable" otherwise.  Monthly costs 100, 100, 100, 200, 220 are
    "increasing"; monthly costs 1.10 and 0.99 are "decreasing", 0.99 being
    below the double that [1.1 * 0.9] rounds to. *)
Theorem overall_trend_rule (md : gmap string Ieee.MonthBucket) (cats : list string) :
  Ieee.trend (Ieee.calculateStatistics md cats) =
    Reference.overallLabel
      (Ieee.Reference.classify 1.1 0.9
         (map (fun m => Ieee.mb_cost (Ieee.monthAt md m)) (Js.sorted_keys md))) /\
  Ieee.trend (Ieee.calculateStatistics
                (Ieee.monthlyData (Ieee.extractFeatures Ieee.Sample.fiveMonths))
                (Ieee.categories (Ieee.extractFeatures Ieee.Sample.fiveMonths)))
    = "increasing" /\
  Reference.overallLabel (Ieee.Reference.classify 1.1 0.9 [100; 100; 100; 200; 220])
    = "increasing" /\
  Ieee.trend (Ieee.calculateStatistics
                (Ieee.monthlyData (Ieee.extractFeatures Ieee.Sample.eased))
                (Ieee.categories (Ieee.extractFeatures Ieee.Sample.eased)))
    = "decreasing".
Proof.
  split; [apply ieee_overallTrend_classify|].
  split; [|split]; vm_compute; reflexivity.
Qed.

End ieee_trends.

(** ** The report over doubles *)

Section ieee_report.

Local Open Scope float_scope.

Lemma ieee_analyzeFinances_returned (tf : Ieee.Backend)
    (transactions : option (list Ieee.Transaction)) (r : Ieee.AnalysisReport) :
  Ieee.analyzeFinances tf transactions = Returned r <->
  exists txs, transactions = Some txs /\ txs <> [] /\
              Ieee.monthlyData (Ieee.extractFeatures txs) <> ∅ /\
              r = Ieee.assembleReport tf txs (Ieee.monthlyData (Ieee.extractFeatures txs))
                    (Ieee.categories (Ieee.extractFeatures txs)).
Proof.
  unfold Ieee.analyzeFinances. split.
  - destruct transactions as [txs|]; [|discriminate].
    destruct (Nat.eqb_spec (length txs) 0) as [|Hlen]; [discriminate|].
    destruct (Nat.eqb_spec (size (Ieee.monthlyData (Ieee.extractFeatures txs))) 0) as [|Hsize];
      [discriminate|].
    intros [= <-]. exists txs. repeat split; auto.
    + intros ->. now apply Hlen.
    + now apply map_size_non_empty_iff.
  - intros (txs & -> & Hne & Hmd & ->).
    destruct (Nat.eqb_spec (length txs) 0) as [Hlen|_].
    + destruct txs; [congruence|discriminate].
    + apply map_size_non_empty_iff in Hmd.
      now destruct (Nat.eqb_spec (size (Ieee.monthlyData (Ieee.extractFeatures txs))) 0).
Qed.

Context (tf : Ieee.Backend) (txs : list Ieee.Transaction).
Let md := Ieee.monthlyData (Ieee.extractFeatures txs).
Let cats := Ieee.categories (Ieee.extractFeatures txs).
Let stats := Ieee.calculateStatistics md cats.

Lemma ieee_breakdown_lookup (cat : string) :
  cat ∈ cats ->
  Ieee.categoryBreakdown (Ieee.assembleReport tf txs md cats) !! cat =
  Some {| Ieee.currentAverage :=
            Ieee.Num.or_ (Ieee.categoryAvgCost stats cat) (Ieee.categoryAvgRevenue stats cat);
          Ieee.predictedTrend := Ieee.getCategoryTrend md (Ieee.months stats) cat;
          Ieee.recommendation :=
            Ieee.getRecommendation cat (Ieee.getCategoryTrend md (Ieee.months stats) cat)
              (Ieee.categoryAvgCost stats cat) (Ieee.categoryAvgRevenue stats cat) |}.
Proof.
  intros Hcat. unfold Ieee.assembleReport. cbn [Ieee.categoryBreakdown].
  unfold Ieee.breakdownStep.
  rewrite (fold_insert_lookup (fun _ => true)
             (fun c => {| Ieee.currentAverage := _ ; Ieee.predictedTrend := _;
                          Ieee.recommendation := _ |})).
  now rewrite bool_decide_eq_true_2.
Qed.

Lemma ieee_forecast_fold (cs : list string) (a b : gmap string (list float)) :
  fold_left (Ieee.categoryForecastStep md stats) cs (a, b) =
  (fold_left (fun acc c =>
       <[c := Ieee.predictWithSmoothing (map (Ieee.categoryCostAt md c) (Ieee.months stats))
                3 0.3 (Ieee.categoryAvgCost stats c)]> acc) cs a,
   fold_left (fun acc c =>
       if existsb (fun v => Ieee.Num.gt v 0)
            (map (Ieee.categoryRevenueAt md c) (Ieee.months stats))
       then <[c := Ieee.predictWithSmoothing
                     (map (Ieee.categoryRevenueAt md c) (Ieee.months stats)) 3 0.3
                     (Ieee.categoryAvgRevenue stats c)]> acc
       else acc) cs b).
Proof.
  revert a b. induction cs as [|c cs IH]; intros a b; [reflexivity|].
  cbn [fold_left]. unfold Ieee.categoryForecastStep at 2. cbn [fst snd].
  destruct (existsb _ _); apply IH.
Qed.

Lemma ieee_costs_lookup (cat : string) :
  cat ∈ cats ->
  Ieee.pr_costs (Ieee.predictions (Ieee.assembleReport tf txs md cats)) !! cat =
  Some (Ieee.predictWithSmoothing (map (Ieee.categoryCostAt md cat) (Ieee.months stats))
          3 0.3 (Ieee.categoryAvgCost stats cat)).
Proof.
  intros Hcat. unfold Ieee.assembleReport. cbn [Ieee.predictions Ieee.pr_costs].
  fold md cats stats. rewrite ieee_forecast_fold. cbn [fst].
  rewrite (fold_insert_lookup (fun _ => true)
             (fun c => Ieee.predictWithSmoothing _ 3 0.3 (Ieee.categoryAvgCost stats c))).
  now rewrite bool_decide_eq_true_2.
Qed.

End ieee_report.

Section ieee_claims.

Local Open Scope float_scope.

(** C7 (as amended). For every category of a successful report,
    [predictedTrend] follows the trend rule applied to the category's
    monthly cost series, evaluated on doubles: a window of up to the last 3
    months, a first half of [ceil(n/2)] values, "up" when the second
    half's mean exceeds the first half's mean times 1.15, "down" when it
    is below the first half's mean times 0.85, "stable" otherwise and with
    fewer than 2 months.  The series holds, per analyzed month, the cost of
    the category's sub-bucket and 0 where the month has none, and a mean
    that is not a number counts as 0.  The entry of a category is what
    [categoryBreakdown[cat]] reads. *)
Theorem categoryTrend_rule (tf : Ieee.Backend) (txs : list Ieee.Transaction)
    (r : Ieee.AnalysisReport) (cat : string) :
  Ieee.analyzeFinances tf (Some txs) = Returned r ->
  cat ∈ Ieee.categories (Ieee.extractFeatures txs) ->
  let md := Ieee.monthlyData (Ieee.extractFeatures txs) in
  exists e, Ieee.categoryBreakdown r !! cat = Some e /\
    Ieee.predictedTrend e =
    Reference.categoryLabel
      (Ieee.Reference.classifyOrZero 1.15 0.85
         (map (Ieee.categoryCostAt md cat) (Js.sorted_keys md))).
Proof.
  intros Hr Hcat. apply ieee_analyzeFinances_returned in Hr as (txs' & [= <-] & _ & _ & ->).
  cbv zeta. eexists. split; [now apply ieee_breakdown_lookup|].
  cbn [Ieee.predictedTrend]. apply ieee_getCategoryTrend_classify.
Qed.

Lemma categoryTrend_rule_witness :
  Ieee.analyzeFinances Ieee.Sample.failingBackend (Some Ieee.Sample.risen) =
    Returned (Ieee.Sample.report Ieee.Sample.risen) /\
  "Food" ∈ Ieee.categories (Ieee.extractFeatures Ieee.Sample.risen) /\
  exists e, Ieee.categoryBreakdown (Ieee.Sample.report Ieee.Sample.risen) !! "Food" = Some e /\
    Ieee.predictedTrend e =
    Reference.categoryLabel
      (Ieee.Reference.classifyOrZero 1.15 0.85
         (map (Ieee.categoryCostAt (Ieee.monthlyData (Ieee.extractFeatures Ieee.Sample.risen))
                 "Food")
              (Js.sorted_keys (Ieee.monthlyData (Ieee.extractFeatures Ieee.Sample.risen))))).
Proof.
  assert (H1 : Ieee.analyzeFinances Ieee.Sample.failingBackend (Some Ieee.Sample.risen) =
               Returned (Ieee.Sample.report Ieee.Sample.risen)) by (vm_compute; reflexivity).
  assert (H2 : "Food" ∈ Ieee.categories (Ieee.extractFeatures Ieee.Sample.risen))
    by (vm_compute; left).
  split; [exact H1|]. split; [exact H2|].
  exact (categoryTrend_rule _ _ _ _ H1 H2).
Defined.

(** C7 (counterexample). With monthly costs 100 and 112 the rule of the
    overall trend (thresholds 1.1 and 0.9) classifies the series as rising,
    while the report says "stable". *)
Lemma categoryTrend_not_overall_rule :
  ~ (forall (tf : Ieee.Backend) (txs : list Ieee.Transaction) (r : Ieee.AnalysisReport)
            (cat : string) (e : Ieee.BreakdownEntry),
       Ieee.analyzeFinances tf (Some txs) = Returned r ->
       Ieee.categoryBreakdown r !! cat = Some e ->
       Ieee.predictedTrend e =
       Reference.categoryLabel
         (Ieee.Reference.classify 1.1 0.9
            (map (Ieee.categoryCostAt (Ieee.monthlyData (Ieee.extractFeatures txs)) cat)
                 (Js.sorted_keys (Ieee.monthlyData (Ieee.extractFeatures txs)))))).
Proof.
  intros H.
  destruct (Ieee.analyzeFinances Ieee.Sample.failingBackend (Some Ieee.Sample.twoMonths))
    as [r|] eqn:Hr; [|vm_compute in Hr; discriminate].
  destruct (Ieee.categoryBreakdown r !! "Food") as [e|] eqn:He.
  - specialize (H _ _ _ _ _ Hr He).
    vm_compute in Hr. injection Hr as <-. vm_compute in He. injection He as <-.
    vm_compute in H. discriminate.
  - vm_compute in Hr. injection Hr as <-. vm_compute in He. discriminate.
Qed.

(** C3 (the code at the failing input). A cost of 100 under the category
    "constructor" is added to its month, and the month gets no sub-bucket
    for it: the lookup that guards the creation finds the member that
    every object inherits under that name. *)
Theorem extractFeatures_inherited_category :
  Ieee.monthlyData (Ieee.extractFeatures Ieee.Sample.builtinNamed) !! "2024-01" =
    Some {| Ieee.mb_cost := 100; Ieee.mb_revenue := 0; Ieee.mb_categories := ∅ |} /\
  Ieee.categories (Ieee.extractFeatures Ieee.Sample.builtinNamed) = ["constructor"].
Proof. split; vm_compute; reflexivity. Qed.

(** C10 (the code at the failing input). After a single cost of 100 under
    the category "toString", the category has no sub-bucket in its month,
    its total is not a number, [currentAverage] is not a number and the
    forecast of its cost is 0 three times, where the total cost over the
    active months is 100. *)
Theorem category_average_inherited_category :
  let r := Ieee.Sample.report Ieee.Sample.toStringNamed in
  Ieee.analyzeFinances Ieee.Sample.failingBackend (Some Ieee.Sample.toStringNamed) =
    Returned r /\
  (exists e, Ieee.categoryBreakdown r !! "toString" = Some e /\
             PrimFloat.is_nan (Ieee.currentAverage e) = true) /\
  Ieee.pr_costs (Ieee.predictions r) !! "toString" = Some [0; 0; 0] /\
  Ieee.totalHistoricalCost (Ieee.summary r) = 100.
Proof.
  cbv zeta. split; [vm_compute; reflexivity|].
  split; [|split; vm_compute; reflexivity].
  eexists. split; [vm_compute; reflexivity|]. vm_compute. reflexivity.
Qed.

End ieee_claims.

(** ** Feature extraction over doubles and plain objects *)

Section ieee_extract.

Import Ieee.
Local Open Scope float_scope.

Lemma ieee_extractStep_invalid (acc : Features) (tx : Transaction) :
  parseable tx = false -> extractStep acc tx = acc.
Proof. unfold parseable, extractStep. now destruct (tx_date tx). Qed.

Lemma ieee_extractStep_months (acc : Features) (tx : Transaction) :
  parseable tx = true ->
  monthlyData (extractStep acc tx) =
  <[monthKeyOf tx := bump tx (default zeroMonth (monthlyData acc !! monthKeyOf tx))]>
    (monthlyData acc).
Proof.
  unfold parseable, extractStep, monthKeyOf, bump.
  destruct (tx_date tx) as [|y m]; [discriminate|]. intros _. cbn [monthlyData].
  set (key := monthKey y m). set (md := monthlyData acc). unfold ensureMonth.
  destruct (md !! key) as [b|] eqn:Hb; cbn [default].
  - destruct (isCost tx); rewrite alter_alter_eq, (alter_alt_Some _ _ _ _ Hb); reflexivity.
  - destruct (isCost tx); now rewrite !alter_insert_eq.
Qed.

Lemma ieee_extractStep_categories (acc : Features) (tx : Transaction) :
  parseable tx = true ->
  categories (extractStep acc tx) = Js.set_add (categoryOf tx) (categories acc).
Proof.
  unfold parseable, extractStep. now destruct (tx_date tx).
Qed.

Lemma ieee_bump_cost (tx : Transaction) (b : MonthBucket) :
  mb_cost (bump tx b) = if isCost tx then mb_cost b + amountOf tx else mb_cost b.
Proof.
  unfold bump, ensureCategory.
  destruct (isCost tx), (member b (categoryOf tx)); reflexivity.
Qed.

Lemma ieee_bump_revenue (tx : Transaction) (b : MonthBucket) :
  mb_revenue (bump tx b) = if isCost tx then mb_revenue b else mb_revenue b + amountOf tx.
Proof.
  unfold bump, ensureCategory.
  destruct (isCost tx), (member b (categoryOf tx)); reflexivity.
Qed.

(** The sub-buckets of a month after one more transaction: nothing changes
    under an inherited name that has no sub-bucket. *)
Lemma ieee_bump_categories (tx : Transaction) (b : MonthBucket) :
  mb_categories (bump tx b) =
  match mb_categories b !! categoryOf tx with
  | Some c => <[categoryOf tx := bumpCell tx c]> (mb_categories b)
  | None =>
      if inherited (categoryOf tx) then mb_categories b
      else <[categoryOf tx := bumpCell tx zeroCell]> (mb_categories b)
  end.
Proof.
  unfold bump, bumpCell, ensureCategory, member.
  destruct (mb_categories b !! categoryOf tx) as [c|] eqn:Hc.
  - destruct (isCost tx); cbn [addCost addRevenue mb_categories];
      rewrite (alter_alt_Some _ _ _ _ Hc); reflexivity.
  - destruct (inherited (categoryOf tx)).
    + destruct (isCost tx); cbn [addCost addRevenue mb_categories];
        apply map_eq; intros k; destruct (decide (k = categoryOf tx)) as [->|Hne];
        rewrite ?lookup_alter_eq, ?lookup_alter_ne, ?Hc by congruence; reflexivity.
    + destruct (isCost tx); cbn [addCost addRevenue mb_categories];
        rewrite alter_insert_eq; reflexivity.
Qed.

Lemma ieee_extractFeatures_snoc (txs : list Transaction) (tx : Transaction) :
  extractFeatures (txs ++ [tx]) = extractStep (extractFeatures txs) tx.
Proof. unfold extractFeatures. now rewrite fold_left_app. Qed.

Lemma ieee_amountSum_snoc (sel : Transaction -> bool) (txs : list Transaction)
    (tx : Transaction) :
  amountSum sel (txs ++ [tx]) =
  if sel tx then amountSum sel txs + amountOf tx else amountSum sel txs.
Proof.
  unfold amountSum, Num.sum. rewrite List.filter_app, map_app, fold_left_app. simpl.
  destruct (sel tx); reflexivity.
Qed.

Lemma ieee_amountSum_none (sel sel' : Transaction -> bool) (txs : list Transaction) :
  existsb sel txs = false ->
  (forall tx, sel' tx = true -> sel tx = true) ->
  amountSum sel' txs = 0.
Proof.
  intros Hnone Himp. unfold amountSum.
  replace (List.filter sel' txs) with (@nil Transaction); [reflexivity|].
  symmetry. induction txs as [|tx txs IH]; [reflexivity|].
  simpl in Hnone. apply orb_false_iff in Hnone as [Htx Hrest].
  simpl. destruct (sel' tx) eqn:E.
  - apply Himp in E. congruence.
  - now apply IH.
Qed.

Lemma ieee_existsb_snoc (sel : Transaction -> bool) (txs : list Transaction)
    (tx : Transaction) :
  existsb sel (txs ++ [tx]) = existsb sel txs || sel tx.
Proof. rewrite existsb_app. simpl. now rewrite orb_false_r. Qed.

Lemma ieee_CellOk_skip (cat : string) (sel : Transaction -> bool)
    (txs : list Transaction) (tx : Transaction) (oc : option CategoryBucket) :
  sel tx = false -> CellOk cat sel txs oc -> CellOk cat sel (txs ++ [tx]) oc.
Proof.
  intros Hsel. unfold CellOk, costsOf, revenuesOf.
  destruct oc as [c|]; rewrite ieee_existsb_snoc, ?ieee_amountSum_snoc, Hsel, orb_false_r;
    cbn [andb]; auto.
Qed.

Lemma ieee_CellOk_bump (cat : string) (sel : Transaction -> bool)
    (txs : list Transaction) (tx : Transaction) (oc : option CategoryBucket) :
  inherited cat = false -> sel tx = true -> CellOk cat sel txs oc ->
  CellOk cat sel (txs ++ [tx]) (Some (bumpCell tx (default zeroCell oc))).
Proof.
  intros Hown Hsel Hok. unfold CellOk.
  rewrite ieee_existsb_snoc, !ieee_amountSum_snoc, Hsel, orb_true_r.
  unfold costsOf at 1, revenuesOf at 1. rewrite Hsel. cbn [andb].
  assert (Hc : cb_cost (default zeroCell oc) = amountSum (costsOf sel) txs /\
               cb_revenue (default zeroCell oc) = amountSum (revenuesOf sel) txs).
  { destruct oc as [c|]; simpl in *.
    - tauto.
    - destruct Hok as [Hbad|Hnone]; [congruence|].
      split; symmetry; apply (ieee_amountSum_none sel); auto;
        unfold costsOf, revenuesOf; intros t Ht; now apply andb_true_iff in Ht. }
  destruct Hc as [Hc Hr]. unfold bumpCell.
  destruct (isCost tx); cbn [andb negb cb_cost cb_revenue]; rewrite Hc, Hr; auto.
Qed.

Lemma ieee_inCell_inMonth (key cat : string) (tx : Transaction) :
  inMonth key tx = false -> inCell key cat tx = false.
Proof. unfold inCell. now intros ->. Qed.

Lemma ieee_no_cell (key cat : string) (txs : list Transaction) :
  existsb (inMonth key) txs = false -> existsb (inCell key cat) txs = false.
Proof.
  induction txs as [|t txs IH]; [reflexivity|].
  simpl. intros H. apply orb_false_iff in H as [H1 H2].
  rewrite (ieee_inCell_inMonth _ _ _ H1). now apply IH.
Qed.

Lemma ieee_MonthOk_skip (key : string) (txs : list Transaction) (tx : Transaction)
    (ob : option MonthBucket) :
  inMonth key tx = false -> MonthOk key txs ob -> MonthOk key (txs ++ [tx]) ob.
Proof.
  intros Hsel. unfold MonthOk, costsOf, revenuesOf.
  destruct ob as [b|]; rewrite ieee_existsb_snoc, ?ieee_amountSum_snoc, Hsel, orb_false_r;
    cbn [andb]; [|auto].
  intros (? & Hc & Hr & Hcells). repeat split; auto.
  intros cat. apply ieee_CellOk_skip; auto using ieee_inCell_inMonth.
Qed.

Lemma ieee_MonthOk_bump (key : string) (txs : list Transaction) (tx : Transaction)
    (ob : option MonthBucket) :
  inMonth key tx = true -> MonthOk key txs ob ->
  MonthOk key (txs ++ [tx]) (Some (bump tx (default zeroMonth ob))).
Proof.
  intros Hsel Hok. unfold MonthOk.
  rewrite ieee_existsb_snoc, !ieee_amountSum_snoc, Hsel, orb_true_r.
  unfold costsOf at 1, revenuesOf at 1. rewrite Hsel. cbn [andb].
  assert (Hb : mb_cost (default zeroMonth ob) = amountSum (costsOf (inMonth key)) txs /\
               mb_revenue (default zeroMonth ob) = amountSum (revenuesOf (inMonth key)) txs /\
               forall cat, CellOk cat (inCell key cat) txs
                             (mb_categories (default zeroMonth ob) !! cat)).
  { destruct ob as [b|]; simpl in *.
    - tauto.
    - repeat split.
      + symmetry; apply (ieee_amountSum_none (inMonth key)); auto.
        unfold costsOf; intros t Ht; now apply andb_true_iff in Ht.
      + symmetry; apply (ieee_amountSum_none (inMonth key)); auto.
        unfold revenuesOf; intros t Ht; now apply andb_true_iff in Ht.
      + intros cat. rewrite lookup_empty. right. now apply ieee_no_cell. }
  destruct Hb as (Hc & Hr & Hcells).
  split; [reflexivity|]. rewrite ieee_bump_cost, ieee_bump_revenue, ieee_bump_categories.
  split; [|split].
  - destruct (isCost tx); rewrite Hc; reflexivity.
  - destruct (isCost tx); rewrite Hr; reflexivity.
  - intros cat.
    assert (Hin : inCell key (categoryOf tx) tx = true).
    { unfold inCell. rewrite Hsel. now rewrite bool_decide_eq_true_2. }
    assert (Hout : categoryOf tx <> cat -> inCell key cat tx = false).
    { intros Hne. unfold inCell. rewrite bool_decide_eq_false_2 by assumption.
      apply andb_false_r. }
    pose proof (Hcells (categoryOf tx)) as Hcell.
    destruct (mb_categories (default zeroMonth ob) !! categoryOf tx) as [c|] eqn:Hlook.
    + destruct (decide (categoryOf tx = cat)) as [<-|Hne].
      * rewrite lookup_insert_eq.
        apply (ieee_CellOk_bump _ _ _ _ (Some c)); [apply Hcell|exact Hin|exact Hcell].
      * rewrite lookup_insert_ne by assumption. apply ieee_CellOk_skip; auto.
    + destruct (inherited (categoryOf tx)) eqn:Hinh.
      * destruct (decide (categoryOf tx = cat)) as [<-|Hne].
        -- rewrite Hlook. now left.
        -- apply ieee_CellOk_skip; auto.
      * destruct (decide (categoryOf tx = cat)) as [<-|Hne].
        -- rewrite lookup_insert_eq.
           apply (ieee_CellOk_bump _ _ _ _ None); [exact Hinh|exact Hin|exact Hcell].
        -- rewrite lookup_insert_ne by assumption. apply ieee_CellOk_skip; auto.
Qed.

Lemma ieee_extractFeatures_months (txs : list Transaction) (key : string) :
  MonthOk key txs (monthlyData (extractFeatures txs) !! key).
Proof.
  induction txs as [|tx txs IH] using rev_ind.
  - unfold extractFeatures. simpl. now rewrite lookup_empty.
  - rewrite ieee_extractFeatures_snoc.
    destruct (parseable tx) eqn:Hp.
    + rewrite ieee_extractStep_months by assumption.
      destruct (decide (monthKeyOf tx = key)) as [<-|Hne].
      * rewrite lookup_insert_eq. apply ieee_MonthOk_bump; auto.
        unfold inMonth. rewrite Hp. now rewrite bool_decide_eq_true_2.
      * rewrite lookup_insert_ne by assumption. apply ieee_MonthOk_skip; auto.
        unfold inMonth. rewrite bool_decide_eq_false_2 by assumption. apply andb_false_r.
    + rewrite ieee_extractStep_invalid by assumption. apply ieee_MonthOk_skip; auto.
      unfold inMonth. now rewrite Hp.
Qed.

Lemma ieee_extractFeatures_categories (txs : list Transaction) :
  NoDup (categories (extractFeatures txs)) /\
  forall c, c ∈ categories (extractFeatures txs) <->
            exists tx, tx ∈ txs /\ parseable tx = true /\ categoryOf tx = c.
Proof.
  induction txs as [|tx txs [IHnd IHin]] using rev_ind.
  - split; [constructor|]. intros c. split.
    + intros H. inversion H.
    + intros (tx & H & _). inversion H.
  - rewrite ieee_extractFeatures_snoc. destruct (parseable tx) eqn:Hp.
    + rewrite ieee_extractStep_categories by assumption. unfold Js.set_add.
      case_bool_decide as Hmem.
      * split; [assumption|]. intros c. rewrite IHin. split.
        -- intros (t & Ht & H). exists t. rewrite elem_of_app. tauto.
        -- intros (t & Ht & Htp & Htc). apply elem_of_app in Ht as [Ht|Ht]; eauto.
           apply list_elem_of_singleton in Ht. subst t. apply IHin. now subst c.
      * split.
        -- apply NoDup_app. repeat split; auto.
           ++ intros x Hx Hx'. apply list_elem_of_singleton in Hx'. now subst x.
           ++ apply NoDup_singleton.
        -- intros c. rewrite elem_of_app, IHin, list_elem_of_singleton. split.
           ++ intros [(t & Ht & H)| ->].
              ** exists t. rewrite elem_of_app. tauto.
              ** exists tx. rewrite elem_of_app, list_elem_of_singleton. tauto.
           ++ intros (t & Ht & Htp & Htc). apply elem_of_app in Ht as [Ht|Ht]; eauto.
              apply list_elem_of_singleton in Ht. subst t. now right.
    + rewrite ieee_extractStep_invalid by assumption. split; [assumption|].
      intros c. rewrite IHin. split.
      * intros (t & Ht & H). exists t. rewrite elem_of_app. tauto.
      * intros (t & Ht & Htp & Htc). apply elem_of_app in Ht as [Ht|Ht]; eauto.
        apply list_elem_of_singleton in Ht. subst t. congruence.
Qed.

(** X23. What [extractFeatures] builds, over doubles and with the lookups
    of plain objects: a month has a bucket exactly when a transaction with
    a date that parses falls in it; the cost and the revenue of the bucket
    are the sums of the coerced amounts of its cost transactions and of
    its other transactions, added from 0 in the order of the input; the
    month has a sub-bucket for a category exactly when the category is not
    the name of a member inherited from [Object.prototype] and a
    transaction of the month carries it, and the sub-bucket holds the sums
    of those transactions in the same way. *)
Theorem extractFeatures_buckets (txs : list Transaction) (key : string) :
  match monthlyData (extractFeatures txs) !! key with
  | None => existsb (inMonth key) txs = false
  | Some b =>
      existsb (inMonth key) txs = true /\
      mb_cost b = amountSum (costsOf (inMonth key)) txs /\
      mb_revenue b = amountSum (revenuesOf (inMonth key)) txs /\
      forall cat,
        match mb_categories b !! cat with
        | None => inherited cat = true \/ existsb (inCell key cat) txs = false
        | Some c =>
            inherited cat = false /\
            existsb (inCell key cat) txs = true /\
            cb_cost c = amountSum (costsOf (inCell key cat)) txs /\
            cb_revenue c = amountSum (revenuesOf (inCell key cat)) txs
        end
  end.
Proof. exact (ieee_extractFeatures_months txs key). Qed.

End ieee_extract.

(** ** Category totals over doubles *)

Section ieee_category_totals.

Import Ieee.
Local Open Scope float_scope.

Lemma ieee_addMonthToTotals_lookup (m : MonthBucket) (cats : list string)
    (totals : Dict CategoryTotal) (cat : string) :
  NoDup cats ->
  addMonthToTotals m cats totals !! cat =
  if bool_decide (cat ∈ cats) then
    match member m cat with
    | Bucket b => addMember (cb_cost b) (cb_revenue b) <$> totals !! cat
    | Builtin => addMember builtinField builtinField <$> totals !! cat
    | Absent => totals !! cat
    end
  else totals !! cat.
Proof.
  unfold addMonthToTotals. intros Hnd. revert totals.
  induction Hnd as [|c cats Hc Hnd IH]; intros totals; [reflexivity|].
  cbn [fold_left]. rewrite IH. clear IH.
  destruct (decide (cat = c)) as [->|Hne].
  - rewrite (bool_decide_eq_true_2 (c ∈ c :: cats)) by left.
    rewrite (bool_decide_eq_false_2 (c ∈ cats)) by assumption.
    destruct (member m c); [| |reflexivity]; now rewrite lookup_alter_eq.
  - assert (Hmem : bool_decide (cat ∈ c :: cats) = bool_decide (cat ∈ cats)).
    { apply bool_decide_ext. rewrite elem_of_cons. tauto. }
    rewrite Hmem.
    assert (Hsame : match member m c with
                    | Bucket b => alter (addMember (cb_cost b) (cb_revenue b)) c totals
                    | Builtin => alter (addMember builtinField builtinField) c totals
                    | Absent => totals
                    end !! cat = totals !! cat).
    { destruct (member m c); [| |reflexivity]; now rewrite lookup_alter_ne. }
    now rewrite Hsame.
Qed.

Lemma ieee_totals_fold_lookup (md : gmap string MonthBucket) (cats months : list string)
    (acc : Totals) (cat : string) :
  NoDup cats -> cat ∈ cats ->
  acc_categories (fold_left (totalsStep md cats) months acc) !! cat =
  memberTotals md months cat <$> acc_categories acc !! cat.
Proof.
  intros Hnd Hcat. revert acc. induction months as [|m months IH]; intros acc.
  - simpl. now destruct (acc_categories acc !! cat).
  - cbn [fold_left]. rewrite IH. unfold totalsStep. cbn [acc_categories].
    rewrite ieee_addMonthToTotals_lookup by assumption.
    rewrite bool_decide_eq_true_2 by assumption.
    unfold memberTotals. cbn [fold_left].
    destruct (member (monthAt md m) cat); now destruct (acc_categories acc !! cat).
Qed.

Lemma ieee_initTotals_lookup (cats : list string) (cat : string) :
  cat ∈ cats ->
  initTotals cats !! cat = Some {| ct_cost := 0; ct_revenue := 0; ct_count := 0 |}.
Proof.
  intros Hcat. unfold initTotals.
  rewrite (fold_insert_lookup (fun _ => true)
             (fun _ => {| ct_cost := 0; ct_revenue := 0; ct_count := 0 |})).
  now rewrite bool_decide_eq_true_2.
Qed.

(** [stats.categoryTotals[cat]] of a category of the history. *)
Lemma ieee_totalAt_spec (md : gmap string MonthBucket) (cats : list string) (cat : string) :
  NoDup cats -> cat ∈ cats ->
  totalAt (calculateStatistics md cats) cat =
  memberTotals md (Js.sorted_keys md) cat {| ct_cost := 0; ct_revenue := 0; ct_count := 0 |}.
Proof.
  intros Hnd Hcat. unfold totalAt, calculateStatistics. cbn [categoryTotals].
  rewrite ieee_totals_fold_lookup by assumption. cbn [acc_categories].
  now rewrite ieee_initTotals_lookup by assumption.
Qed.

(** Over months without an inherited member under the name, the totals add
    up the own sub-buckets. *)
Lemma ieee_memberTotals_own (md : gmap string MonthBucket) (months : list string)
    (cat : string) (t : CategoryTotal) :
  inherited cat = false ->
  let t' := memberTotals md months cat t in
  let cells := cellsOf md months cat in
  ct_cost t' = fold_left PrimFloat.add (map cb_cost cells) (ct_cost t) /\
  ct_revenue t' = fold_left PrimFloat.add (map cb_revenue cells) (ct_revenue t) /\
  ct_count t' = (ct_count t + length cells)%nat.
Proof.
  intros Hown. cbv zeta. revert t. induction months as [|m months IH]; intros t.
  - simpl. auto.
  - unfold memberTotals, cellsOf in *. cbn [fold_left omap list_omap].
    assert (Hm : member (monthAt md m) cat =
                 match mb_categories (monthAt md m) !! cat with
                 | Some b => Bucket b
                 | None => Absent
                 end) by (unfold member; now rewrite Hown).
    rewrite Hm. destruct (mb_categories (monthAt md m) !! cat) as [b|].
    + destruct (IH (addMember (cb_cost b) (cb_revenue b) t)) as (-> & -> & ->).
      cbn [addMember ct_cost ct_revenue ct_count map fold_left length].
      repeat split. lia.
    + apply IH.
Qed.

(** Over months that all show an inherited member under the name, the
    totals are not numbers once a month was added. *)
Lemma ieee_memberTotals_builtin (md : gmap string MonthBucket) (months : list string)
    (cat : string) (t : CategoryTotal) :
  Forall (fun m => member (monthAt md m) cat = Builtin) months ->
  let t' := memberTotals md months cat t in
  ct_cost t' = match months with [] => ct_cost t | _ => nan end /\
  ct_revenue t' = match months with [] => ct_revenue t | _ => nan end /\
  ct_count t' = (ct_count t + length months)%nat.
Proof.
  intros Hall. cbv zeta. revert t. induction Hall as [|m months Hm Hall IH]; intros t.
  - simpl. auto.
  - unfold memberTotals in *. cbn [fold_left]. rewrite Hm.
    destruct (IH (addMember builtinField builtinField t)) as (Hc & Hr & Hn).
    rewrite Hc, Hr, Hn. cbn [addMember ct_cost ct_revenue ct_count length].
    unfold builtinField. rewrite !add_nan_r.
    split; [now destruct months|]. split; [now destruct months|]. lia.
Qed.

Context (txs : list Transaction).
Let md := monthlyData (extractFeatures txs).
Let cats := categories (extractFeatures txs).

Lemma ieee_cell_ok (m cat : string) :
  CellOk cat (inCell m cat) txs (mb_categories (monthAt md m) !! cat).
Proof.
  pose proof (ieee_extractFeatures_months txs m) as Hok. fold md in Hok.
  unfold monthAt. destruct (md !! m) as [b|]; simpl in *.
  - apply Hok.
  - rewrite lookup_empty. right. now apply ieee_no_cell.
Qed.

Lemma ieee_member_inherited (m cat : string) :
  inherited cat = true -> member (monthAt md m) cat = Builtin.
Proof.
  intros Hinh. unfold member. pose proof (ieee_cell_ok m cat) as Hok.
  destruct (mb_categories (monthAt md m) !! cat); simpl in Hok.
  - destruct Hok as [Hown _]. congruence.
  - now rewrite Hinh.
Qed.

Lemma ieee_months_cover (tx : Transaction) :
  tx ∈ txs -> parseable tx = true -> monthKeyOf tx ∈ Js.sorted_keys md.
Proof.
  intros Hin Hp. apply sorted_keys_elem.
  pose proof (ieee_extractFeatures_months txs (monthKeyOf tx)) as Hok. fold md in Hok.
  destruct (md !! monthKeyOf tx); [eauto|]. simpl in Hok. exfalso.
  assert (existsb (inMonth (monthKeyOf tx)) txs = true); [|congruence].
  apply existsb_exists. exists tx. split; [now apply list_elem_of_In|].
  unfold inMonth. rewrite Hp. now rewrite bool_decide_eq_true_2.
Qed.

Lemma ieee_inCell_spec (m cat : string) :
  existsb (inCell m cat) txs = true <->
  exists tx, tx ∈ txs /\ inCategory cat tx = true /\ monthKeyOf tx = m.
Proof.
  rewrite existsb_exists. unfold inCell, inMonth, inCategory.
  split; intros (tx & H1 & H2); exists tx.
  - apply list_elem_of_In in H1. split; [assumption|].
    apply andb_true_iff in H2 as [H2 H3]. apply andb_true_iff in H2 as [H2 H4].
    apply bool_decide_eq_true in H4. rewrite H2, H3. auto.
  - destruct H2 as [H2 H3]. apply list_elem_of_In in H1. split; [assumption|].
    apply andb_true_iff in H2 as [H2 H4].
    rewrite H2, H4, (bool_decide_eq_true_2 _ H3). reflexivity.
Qed.

(** The own sub-buckets of a category that is not an inherited name are
    those of its active months, each holding the sums of its
    transactions. *)
Lemma ieee_cells_active (cat : string) (months : list string) :
  inherited cat = false ->
  cellsOf md months cat =
  map (cellFor txs cat) (List.filter (fun m => existsb (inCell m cat) txs) months).
Proof.
  intros Hown. induction months as [|m months IH]; [reflexivity|].
  unfold cellsOf in *. cbn [omap list_omap List.filter].
  pose proof (ieee_cell_ok m cat) as Hok.
  destruct (mb_categories (monthAt md m) !! cat) as [c|]; simpl in Hok.
  - destruct Hok as (_ & -> & Hc & Hr). cbn [map]. rewrite IH. f_equal.
    destruct c as [cost revenue]. simpl in *. now subst.
  - destruct Hok as [Hbad| ->]; [congruence|]. exact IH.
Qed.

(** The number of active months of a category is the number of distinct
    months in which one of its transactions is recorded. *)
Lemma ieee_active_months_count (cat : string) :
  length (activeMonths txs cat) =
  length (remove_dups (map monthKeyOf (List.filter (inCategory cat) txs))).
Proof.
  unfold activeMonths. fold md.
  apply Permutation_length, NoDup_Permutation.
  - apply (sublist_NoDup _ (Js.sorted_keys md)); [apply sorted_keys_NoDup|].
    clear. induction (Js.sorted_keys md) as [|x l IH]; [constructor|]. simpl.
    destruct (existsb _ txs); now constructor.
  - apply NoDup_remove_dups.
  - intros m. rewrite list_elem_of_In, List.filter_In, <- list_elem_of_In.
    rewrite elem_of_remove_dups, ieee_inCell_spec. split.
    + intros [_ (tx & Htx & Hcat & Hm)]. apply list_elem_of_fmap. exists tx.
      split; [now symmetry|]. apply list_elem_of_In, List.filter_In.
      split; [now apply list_elem_of_In|assumption].
    + intros Hm. apply list_elem_of_fmap in Hm as (tx & -> & Hin).
      apply list_elem_of_In, List.filter_In in Hin as [Hin Hcat].
      apply list_elem_of_In in Hin.
      split; [|eauto]. apply ieee_months_cover; [assumption|].
      unfold inCategory in Hcat. now apply andb_true_iff in Hcat as [Hp _].
Qed.

Lemma ieee_active_bounds (cat : string) :
  cat ∈ cats ->
  (1 <= length (activeMonths txs cat) <= length (Js.sorted_keys md))%nat.
Proof.
  intros Hcat. split.
  - apply (ieee_extractFeatures_categories txs) in Hcat as (tx & Hin & Hp & Hc).
    assert (Hm : monthKeyOf tx ∈ activeMonths txs cat).
    { unfold activeMonths. apply list_elem_of_In, List.filter_In. split.
      - apply list_elem_of_In. now apply ieee_months_cover.
      - apply ieee_inCell_spec. exists tx. split; [assumption|]. split; [|reflexivity].
        unfold inCategory. rewrite Hp. now rewrite bool_decide_eq_true_2. }
    destruct (activeMonths txs cat); [inversion Hm|simpl; lia].
  - unfold activeMonths. fold md. apply List.filter_length_le.
Qed.

(** The totals of a category of the history that is not an inherited
    name. *)
Lemma ieee_totals_own (cat : string) :
  cat ∈ cats -> inherited cat = false ->
  let t := totalAt (calculateStatistics md cats) cat in
  let active := activeMonths txs cat in
  ct_cost t = Num.sum (map (fun m => amountSum (costsOf (inCell m cat)) txs) active) /\
  ct_revenue t = Num.sum (map (fun m => amountSum (revenuesOf (inCell m cat)) txs) active) /\
  ct_count t = length active.
Proof.
  intros Hcat Hown. cbv zeta.
  rewrite ieee_totalAt_spec
    by (try assumption; apply (ieee_extractFeatures_categories txs)).
  destruct (ieee_memberTotals_own md (Js.sorted_keys md) cat
              {| ct_cost := 0; ct_revenue := 0; ct_count := 0 |} Hown) as (-> & -> & ->).
  rewrite ieee_cells_active by assumption. fold (activeMonths txs cat).
  rewrite !map_map, length_map. cbn [ct_cost ct_revenue ct_count cellFor cb_cost cb_revenue].
  repeat split.
Qed.

(** The totals of a category named like an inherited member. *)
Lemma ieee_totals_inherited (cat : string) :
  cat ∈ cats -> inherited cat = true ->
  let t := totalAt (calculateStatistics md cats) cat in
  ct_cost t = nan /\ ct_revenue t = nan /\ ct_count t = length (Js.sorted_keys md).
Proof.
  intros Hcat Hinh. cbv zeta.
  rewrite ieee_totalAt_spec
    by (try assumption; apply (ieee_extractFeatures_categories txs)).
  destruct (ieee_memberTotals_builtin md (Js.sorted_keys md) cat
              {| ct_cost := 0; ct_revenue := 0; ct_count := 0 |}) as (-> & -> & ->).
  { apply Forall_forall. intros m _. now apply ieee_member_inherited. }
  pose proof (ieee_active_bounds cat Hcat) as [H1 H2].
  destruct (Js.sorted_keys md); [simpl in H2; lia|]. repeat split.
Qed.

End ieee_category_totals.

(** ** The per-category entries of the report over doubles *)

Section ieee_category_entries.

Import Ieee.
Local Open Scope float_scope.

Lemma ieee_revenue_lookup (tf : Backend) (txs : list Transaction) (cat : string)
    (revs : gmap string (list float)) (f : list float) :
  let md := monthlyData (extractFeatures txs) in
  let cats := categories (extractFeatures txs) in
  let stats := calculateStatistics md cats in
  pr_revenue (predictions (assembleReport tf txs md cats)) = Some revs ->
  revs !! cat = Some f ->
  f = predictWithSmoothing (map (categoryRevenueAt md cat) (months stats)) 3 0.3
        (categoryAvgRevenue stats cat).
Proof.
  cbv zeta. unfold assembleReport. cbn [predictions pr_revenue].
  rewrite ieee_forecast_fold. cbn [snd].
  destruct (0 <? ownSize _)%nat; [|discriminate]. intros [= <-].
  rewrite (fold_insert_lookup
             (fun c => existsb (fun v => Num.gt v 0)
                         (map (categoryRevenueAt (monthlyData (extractFeatures txs)) c)
                            (months (calculateStatistics (monthlyData (extractFeatures txs))
                                       (categories (extractFeatures txs))))))
             (fun c => predictWithSmoothing _ 3 0.3 (categoryAvgRevenue _ c))).
  destruct (_ && _); [intros [= <-]; reflexivity|]. rewrite lookup_empty. discriminate.
Qed.

(** X24. For every category of a successful analysis that is not the name
    of an inherited member, the average that serves as fallback of the
    category's forecasts and that [currentAverage] shows (the cost
    average, or the revenue average when the cost average is falsy) is the
    category's total divided by the number of its active months: the
    distinct months in which a transaction of the category with a date
    that parses is recorded, at least 1 and at most the months analyzed.
    The total adds, from 0 and oldest month first, the month sums of the
    category, each added from 0 in the order of the input. *)
Theorem category_average_of_own_name (tf : Backend) (txs : list Transaction)
    (r : AnalysisReport) (cat : string) :
  analyzeFinances tf (Some txs) = Returned r ->
  cat ∈ categories (extractFeatures txs) ->
  inherited cat = false ->
  let md := monthlyData (extractFeatures txs) in
  let months := Js.sorted_keys md in
  let active := activeMonths txs cat in
  let catCost := Num.sum (map (fun m => amountSum (costsOf (inCell m cat)) txs) active) in
  let catRevenue :=
    Num.sum (map (fun m => amountSum (revenuesOf (inCell m cat)) txs) active) in
  let avgCost := catCost / Num.of_nat (length active) in
  let avgRevenue := catRevenue / Num.of_nat (length active) in
  length active =
    length (remove_dups (map monthKeyOf (List.filter (inCategory cat) txs))) /\
  (1 <= length active <= monthsAnalyzed (metadata r))%nat /\
  pr_costs (predictions r) !! cat =
    Some (predictWithSmoothing (map (categoryCostAt md cat) months) 3 0.3 avgCost) /\
  (forall revs f, pr_revenue (predictions r) = Some revs -> revs !! cat = Some f ->
     f = predictWithSmoothing (map (categoryRevenueAt md cat) months) 3 0.3 avgRevenue) /\
  (exists e, categoryBreakdown r !! cat = Some e /\
             currentAverage e = Num.or_ avgCost avgRevenue).
Proof.
  intros Hr Hcat Hown.
  apply ieee_analyzeFinances_returned in Hr as (txs' & [= <-] & _ & _ & ->).
  cbv zeta.
  set (md := monthlyData (extractFeatures txs)).
  set (cats := categories (extractFeatures txs)).
  set (active := activeMonths txs cat).
  destruct (ieee_totals_own txs cat Hcat Hown) as (Hcost & Hrev & Hcount).
  fold md cats active in Hcost, Hrev, Hcount.
  destruct (ieee_active_bounds txs cat Hcat) as [Hone Hle]. fold md active in Hone, Hle.
  assert (Hdiv : Js.count_or1 (length active) = length active).
  { rewrite count_or1_max. lia. }
  assert (HavgC : categoryAvgCost (calculateStatistics md cats) cat =
            Num.sum (map (fun m => amountSum (costsOf (inCell m cat)) txs) active) /
            Num.of_nat (length active)).
  { unfold categoryAvgCost. now rewrite Hcost, Hcount, Hdiv. }
  assert (HavgR : categoryAvgRevenue (calculateStatistics md cats) cat =
            Num.sum (map (fun m => amountSum (revenuesOf (inCell m cat)) txs) active) /
            Num.of_nat (length active)).
  { unfold categoryAvgRevenue. now rewrite Hrev, Hcount, Hdiv. }
  split; [apply ieee_active_months_count|].
  split.
  { unfold assembleReport, calculateStatistics. cbn [metadata monthsAnalyzed numMonths].
    rewrite count_or1_max. lia. }
  split; [rewrite <- HavgC; now apply ieee_costs_lookup|].
  split.
  { intros revs f Hrevs Hf. rewrite <- HavgR.
    exact (ieee_revenue_lookup tf txs cat revs f Hrevs Hf). }
  eexists. split; [now apply ieee_breakdown_lookup|]. cbn [currentAverage].
  fold md cats. now rewrite HavgC, HavgR.
Qed.

End ieee_category_entries.

(** ** Series without a positive value *)

Section ieee_zero_series.

Import Ieee.
Local Open Scope float_scope.

Lemma div_nan_l (x : float) : nan / x = nan.
Proof.
  apply Prim2SF_inj. rewrite div_spec. reflexivity.
Qed.

Lemma ieee_mean_zeros (l : list float) :
  Forall (fun v => v = 0) l -> Num.or_ (Reference.mean l) 0 = 0.
Proof.
  intros Hz. unfold Reference.mean. fold (Num.sum l). rewrite (sum_zeros l Hz).
  unfold Num.or_. now rewrite zero_div_falsy.
Qed.

Lemma ieee_classify_zeros (up down : float) (series : list float) :
  Forall (fun v => v = 0) series ->
  PrimFloat.ltb (0 * up) 0 = false -> PrimFloat.ltb 0 (0 * down) = false ->
  Reference.classifyOrZero up down series = Reference.Steady.
Proof.
  intros Hz Hup Hdown. unfold Reference.classifyOrZero.
  destruct series as [|a [|b rest]]; [reflexivity..|].
  set (series := a :: b :: rest) in *.
  assert (Hwin : Forall (fun v => v = 0) (Reference.lastN 3 series)).
  { unfold Reference.lastN. now apply Forall_drop. }
  rewrite !ieee_mean_zeros by (apply Forall_take || apply Forall_drop; exact Hwin).
  now rewrite Hup, Hdown.
Qed.

Lemma ieee_getCategoryTrend_zeros (md : gmap string MonthBucket) (months : list string)
    (cat : string) :
  Forall (fun m => categoryCostAt md cat m = 0) months ->
  getCategoryTrend md months cat = "stable".
Proof.
  intros Hz. rewrite ieee_getCategoryTrend_classify, ieee_classify_zeros; try reflexivity.
  now apply Forall_fmap.
Qed.

Lemma ieee_no_positive (values : list float) :
  Forall (fun v => Num.gt v 0 = false) values ->
  List.filter (fun v => Num.gt v 0) values = [].
Proof.
  induction 1 as [|v values Hv _ IH]; [reflexivity|]. simpl. now rewrite Hv.
Qed.

Lemma ieee_smoothing_without_signal (values : list float) (fallbackAverage : float) :
  Forall (fun v => Num.gt v 0 = false) values ->
  Num.gt fallbackAverage 0 = false ->
  predictWithSmoothing values 3 0.3 fallbackAverage = [0; 0; 0].
Proof.
  intros Hz Hf. unfold predictWithSmoothing. rewrite (ieee_no_positive values Hz).
  cbn [length Nat.eqb]. now rewrite Hf.
Qed.

(** No forecast of the smoothing forecaster is below 0. *)
Lemma ieee_predictWithSmoothing_nonneg (values : list float) (periods : nat)
    (alpha fallbackAverage : float) :
  Forall (fun v => PrimFloat.ltb v 0 = false)
         (predictWithSmoothing values periods alpha fallbackAverage).
Proof.
  unfold predictWithSmoothing.
  destruct (List.filter _ values) as [|v1 [|v2 more]] eqn:Hfilter; cbn [length Nat.eqb].
  - destruct (Num.gt fallbackAverage 0) eqn:Hf; unfold Num.fill.
    + apply Forall_replicate. now apply positive_not_negative.
    + now apply Forall_replicate.
  - unfold Num.fill, Num.at_. cbn [nth]. apply Forall_replicate.
    assert (Hin : In v1 (List.filter (fun v => Num.gt v 0) values))
      by (rewrite Hfilter; now left).
    apply List.filter_In in Hin as [_ Hpos]. now apply positive_not_negative.
  - apply Forall_forall. intros v Hv. apply list_elem_of_In, in_map_iff in Hv as (i & <- & _).
    apply max0_not_negative.
Qed.

End ieee_zero_series.

(** ** Categories without spending, and categories named like inherited members *)

Section ieee_idle_categories.

Import Ieee.
Local Open Scope float_scope.

Context (tf : Backend) (txs : list Transaction).
Let md := monthlyData (extractFeatures txs).
Let cats := categories (extractFeatures txs).
Let stats := calculateStatistics md cats.

(** The entry of a category whose monthly costs all read 0 and whose cost
    average is falsy. *)
Lemma ieee_idle_entry (cat : string) :
  cat ∈ cats ->
  Forall (fun m => categoryCostAt md cat m = 0) (Js.sorted_keys md) ->
  Num.truthy (categoryAvgCost stats cat) = false ->
  exists e,
    categoryBreakdown (assembleReport tf txs md cats) !! cat = Some e /\
    predictedTrend e = "stable" /\
    recommendation e = cat +:+ " spending is stable." /\
    currentAverage e = categoryAvgRevenue stats cat /\
    pr_costs (predictions (assembleReport tf txs md cats)) !! cat = Some [0; 0; 0].
Proof.
  intros Hcat Hz Hfalsy.
  assert (Htrend : getCategoryTrend md (months stats) cat = "stable")
    by now apply ieee_getCategoryTrend_zeros.
  eexists. split; [now apply ieee_breakdown_lookup|].
  cbn [predictedTrend recommendation currentAverage]. fold md cats stats.
  rewrite Htrend. split; [reflexivity|]. split; [|split].
  - unfold getRecommendation.
    rewrite (bool_decide_eq_false_2 ("stable" = "up")) by discriminate.
    rewrite (bool_decide_eq_false_2 ("stable" = "down")) by discriminate.
    cbn [andb].
    destruct (Num.gt (categoryAvgRevenue stats cat) 0) eqn:Hpos; [|now rewrite andb_false_r].
    unfold Num.gt in *. now rewrite (positive_not_below_falsy _ _ Hpos Hfalsy).
  - unfold Num.or_. fold stats. now rewrite Hfalsy.
  - rewrite ieee_costs_lookup by assumption. fold md cats stats. f_equal.
    apply ieee_smoothing_without_signal.
    + apply Forall_fmap. eapply Forall_impl; [exact Hz|]. intros m Hm. cbn. now rewrite Hm.
    + unfold Num.gt. now apply falsy_not_positive.
Qed.

Lemma ieee_inherited_reads (cat m : string) :
  inherited cat = true ->
  categoryCostAt md cat m = 0 /\ categoryRevenueAt md cat m = 0.
Proof.
  intros Hinh. unfold categoryCostAt, categoryRevenueAt, md.
  rewrite (ieee_member_inherited txs m cat Hinh). split; reflexivity.
Qed.

Lemma ieee_inherited_averages (cat : string) :
  cat ∈ cats -> inherited cat = true ->
  categoryAvgCost stats cat = nan /\ categoryAvgRevenue stats cat = nan.
Proof.
  intros Hcat Hinh.
  destruct (ieee_totals_inherited txs cat Hcat Hinh) as (Hc & Hr & _).
  unfold categoryAvgCost, categoryAvgRevenue. fold md cats stats in Hc, Hr.
  rewrite Hc, Hr, !div_nan_l. split; reflexivity.
Qed.

(** The revenue forecasts of the report, by category. *)
Lemma ieee_revenue_entries (cat : string) :
  snd (fold_left (categoryForecastStep md stats) cats (∅, ∅)) !! cat =
  if bool_decide (cat ∈ cats) &&
     existsb (fun v => Num.gt v 0) (map (categoryRevenueAt md cat) (months stats))
  then Some (predictWithSmoothing (map (categoryRevenueAt md cat) (months stats)) 3 0.3
               (categoryAvgRevenue stats cat))
  else None.
Proof.
  rewrite (ieee_forecast_fold txs). cbn [snd].
  rewrite (fold_insert_lookup
             (fun c => existsb (fun v => Num.gt v 0)
                         (map (categoryRevenueAt md c) (months stats)))
             (fun c => predictWithSmoothing _ 3 0.3 (categoryAvgRevenue stats c))).
  now rewrite lookup_empty.
Qed.

(** A month with positive revenue in the sub-bucket of the category. *)
Lemma ieee_earning_month (cat : string) :
  existsb (fun v => Num.gt v 0) (map (categoryRevenueAt md cat) (Js.sorted_keys md)) = true <->
  inherited cat = false /\
  exists m, Num.gt (amountSum (revenuesOf (inCell m cat)) txs) 0 = true.
Proof.
  rewrite existsb_exists. split.
  - intros (v & Hin & Hv). apply in_map_iff in Hin as (m & <- & _).
    unfold categoryRevenueAt, member in Hv. pose proof (ieee_cell_ok txs m cat) as Hok.
    fold md in Hok.
    destruct (mb_categories (monthAt md m) !! cat) as [c|]; simpl in Hok.
    + destruct Hok as (Hown & _ & _ & Hr). split; [exact Hown|]. exists m.
      rewrite gt_or_zero in Hv. now rewrite <- Hr.
    + destruct (inherited cat); discriminate Hv.
  - intros (Hown & m & Hpos).
    assert (Hex : existsb (inCell m cat) txs = true).
    { destruct (existsb (inCell m cat) txs) eqn:Hex; [reflexivity|]. exfalso.
      rewrite (ieee_amountSum_none (inCell m cat)) in Hpos; [discriminate|exact Hex|].
      unfold revenuesOf. intros tx Htx. now apply andb_true_iff in Htx. }
    exists (categoryRevenueAt md cat m). split.
    + apply in_map. apply list_elem_of_In.
      apply ieee_inCell_spec in Hex as (tx & Hin & Hcat & <-).
      apply ieee_months_cover; [assumption|].
      unfold inCategory in Hcat. now apply andb_true_iff in Hcat as [Hp _].
    + unfold categoryRevenueAt, member. pose proof (ieee_cell_ok txs m cat) as Hok.
      fold md in Hok.
      destruct (mb_categories (monthAt md m) !! cat) as [c|]; simpl in Hok.
      * destruct Hok as (_ & _ & _ & Hr). rewrite gt_or_zero. now rewrite Hr.
      * destruct Hok as [Hbad|Hnone]; congruence.
Qed.

End ieee_idle_categories.

Section ieee_entries.

Import Ieee.
Local Open Scope float_scope.

Lemma ieee_inherited_entry (tf : Backend) (txs : list Transaction)
    (r : AnalysisReport) (cat : string) :
  analyzeFinances tf (Some txs) = Returned r ->
  cat ∈ categories (extractFeatures txs) ->
  inherited cat = true ->
  (forall m b, monthlyData (extractFeatures txs) !! m = Some b ->
               mb_categories b !! cat = None) /\
  (exists e,
     categoryBreakdown r !! cat = Some e /\
     PrimFloat.is_nan (currentAverage e) = true /\
     predictedTrend e = "stable" /\
     recommendation e = cat +:+ " spending is stable.") /\
  pr_costs (predictions r) !! cat = Some [0; 0; 0] /\
  (forall revs, pr_revenue (predictions r) = Some revs -> revs !! cat = None).
Proof.
  intros Hr Hcat Hinh.
  apply ieee_analyzeFinances_returned in Hr as (txs' & [= <-] & _ & _ & ->).
  destruct (ieee_inherited_averages txs cat Hcat Hinh) as [HavgC HavgR].
  destruct (ieee_idle_entry tf txs cat Hcat) as (e & He & Ht & Hrec & Hcur & Hcosts).
  { apply Forall_forall. intros m _. now apply ieee_inherited_reads. }
  { now rewrite HavgC. }
  split; [|split; [|split]].
  - intros m b Hb. pose proof (ieee_extractFeatures_months txs m) as Hok.
    rewrite Hb in Hok. destruct Hok as (_ & _ & _ & Hcells). specialize (Hcells cat).
    destruct (mb_categories b !! cat); [|reflexivity].
    destruct Hcells as [Hown _]. congruence.
  - exists e. split; [exact He|]. split; [now rewrite Hcur, HavgR|]. auto.
  - exact Hcosts.
  - intros revs. unfold assembleReport. cbn [predictions pr_revenue].
    destruct (0 <? ownSize _)%nat; [|discriminate]. intros [= <-].
    rewrite ieee_revenue_entries.
    assert (Hnone : existsb (fun v => Num.gt v 0)
              (map (categoryRevenueAt (monthlyData (extractFeatures txs)) cat)
                 (Js.sorted_keys (monthlyData (extractFeatures txs)))) = false).
    { apply not_true_iff_false. intros Hex. apply ieee_earning_month in Hex as [Hown _].
      congruence. }
    cbn [months calculateStatistics]. rewrite Hnone. now rewrite andb_false_r.
Qed.

(** X25. A category of a successful analysis that is named like a member
    inherited from [Object.prototype] ("constructor", "toString",
    "__proto__" and the like) gets no sub-bucket in any month, so its
    totals add values that are not numbers: [currentAverage] is not a
    number, the forecast of its cost is 0 three times, its trend is
    "stable" and its sentence is the stable one, and it has no revenue
    forecast, whatever its transactions are.  The entry of the category is
    what [categoryBreakdown[cat]] reads; under ["__proto__"] that is the
    prototype of the object and no own property. *)
Theorem inherited_category_entry (tf : Backend) (txs : list Transaction)
    (r : AnalysisReport) (cat : string) :
  analyzeFinances tf (Some txs) = Returned r ->
  cat ∈ categories (extractFeatures txs) ->
  inherited cat = true ->
  (forall m b, monthlyData (extractFeatures txs) !! m = Some b ->
               mb_categories b !! cat = None) /\
  (exists e,
     categoryBreakdown r !! cat = Some e /\
     PrimFloat.is_nan (currentAverage e) = true /\
     predictedTrend e = "stable" /\
     recommendation e = cat +:+ " spending is stable.") /\
  pr_costs (predictions r) !! cat = Some [0; 0; 0] /\
  (forall revs, pr_revenue (predictions r) = Some revs -> revs !! cat = None).
Proof. apply ieee_inherited_entry. Qed.

(** X10. A category without any cost transaction (among the transactions
    whose date parses) is reported with trend "stable", with the sentence
    "<category> spending is stable." and with a cost forecast of 0 three
    times; when its name is not that of an inherited member,
    [currentAverage] is its revenue average: the total of its revenue
    divided by the number of its active months. *)
Theorem revenue_only_category (tf : Backend) (txs : list Transaction)
    (r : AnalysisReport) (cat : string) :
  analyzeFinances tf (Some txs) = Returned r ->
  cat ∈ categories (extractFeatures txs) ->
  (forall tx, tx ∈ txs -> inCategory cat tx = true -> isCost tx = false) ->
  let active := activeMonths txs cat in
  exists e,
    categoryBreakdown r !! cat = Some e /\
    predictedTrend e = "stable" /\
    recommendation e = cat +:+ " spending is stable." /\
    pr_costs (predictions r) !! cat = Some [0; 0; 0] /\
    (inherited cat = false ->
     currentAverage e =
       Num.sum (map (fun m => amountSum (revenuesOf (inCell m cat)) txs) active) /
       Num.of_nat (length active)).
Proof.
  intros Hr Hcat Hno active.
  destruct (inherited cat) eqn:Hinh.
  { destruct (ieee_inherited_entry tf txs r cat Hr Hcat Hinh)
      as (_ & (e & He & _ & Ht & Hrec) & Hcosts & _).
    exists e. repeat split; auto. discriminate. }
  apply ieee_analyzeFinances_returned in Hr as (txs' & [= <-] & _ & _ & ->).
  set (md := monthlyData (extractFeatures txs)).
  set (cats := categories (extractFeatures txs)).
  assert (Hidle : forall m, amountSum (costsOf (inCell m cat)) txs = 0).
  { intros m. unfold amountSum.
    replace (List.filter (costsOf (inCell m cat)) txs) with (@nil Transaction);
      [reflexivity|].
    symmetry. clear -Hno. induction txs as [|tx l IH]; [reflexivity|].
    simpl. assert (Hsel : costsOf (inCell m cat) tx = false).
    { unfold costsOf, inCell, inMonth.
      destruct (parseable tx) eqn:Hp; [|reflexivity]. cbn [andb].
      destruct (bool_decide (monthKeyOf tx = m)); [|reflexivity]. cbn [andb].
      case_bool_decide as Hc; [|reflexivity]. cbn [andb].
      apply (Hno tx); [left|]. unfold inCategory. rewrite Hp.
      now rewrite bool_decide_eq_true_2. }
    rewrite Hsel. apply IH. intros t Ht. apply Hno. now right. }
  destruct (ieee_totals_own txs cat Hcat Hinh) as (Hcost & Hrev & Hcount).
  fold md cats active in Hcost, Hrev, Hcount.
  destruct (ieee_active_bounds txs cat Hcat) as [Hone _]. fold active in Hone.
  assert (Hdiv : Js.count_or1 (length active) = length active).
  { rewrite count_or1_max. lia. }
  destruct (ieee_idle_entry tf txs cat Hcat) as (e & He & Ht & Hrec & Hcur & Hcosts).
  { apply Forall_forall. intros m _. unfold categoryCostAt, member.
    pose proof (ieee_cell_ok txs m cat) as Hok.
    destruct (mb_categories (monthAt (monthlyData (extractFeatures txs)) m) !! cat) as [c|];
      simpl in Hok.
    - destruct Hok as (_ & _ & Hc & _). now rewrite Hc, Hidle.
    - now rewrite Hinh. }
  { unfold categoryAvgCost. fold md cats. rewrite Hcost.
    rewrite sum_zeros by (apply Forall_fmap, Forall_forall; intros m _; apply Hidle).
    apply zero_div_falsy. }
  exists e. split; [exact He|]. split; [exact Ht|]. split; [exact Hrec|].
  split; [exact Hcosts|]. intros _. rewrite Hcur.
  unfold categoryAvgRevenue. fold md cats. now rewrite Hrev, Hcount, Hdiv.
Qed.

End ieee_entries.

(** ** The forecasts by category *)

Section ieee_forecasts.

Import Ieee.
Local Open Scope float_scope.

(** X21. The category forecasts of a report over doubles.  The own
    properties of [predictions.costs] are the forecasts of the categories
    of the history other than ["__proto__"], whose forecast becomes the
    prototype of that object; [predictions.revenue] has an own property
    for a category exactly when the category is not named like an
    inherited member and some month holds a positive sum of revenue amounts
    for it, and the field is missing altogether exactly when no category
    has such a month; every forecast holds 3 values, none below 0. *)
Theorem category_forecasts_presence (tf : Backend) (txs : list Transaction)
    (r : AnalysisReport) (cat : string) :
  analyzeFinances tf (Some txs) = Returned r ->
  let earns c :=
    inherited c = false /\
    exists m, Num.gt (amountSum (revenuesOf (inCell m c)) txs) 0 = true in
  let wellFormed f := length f = 3%nat /\ Forall (fun v => PrimFloat.ltb v 0 = false) f in
  (is_Some (own (pr_costs (predictions r)) !! cat) <->
   cat ∈ categories (extractFeatures txs) /\ cat <> "__proto__") /\
  (forall f, pr_costs (predictions r) !! cat = Some f -> wellFormed f) /\
  ((exists revs, pr_revenue (predictions r) = Some revs /\ is_Some (own revs !! cat)) <->
   earns cat) /\
  (forall revs f, pr_revenue (predictions r) = Some revs -> revs !! cat = Some f ->
                  wellFormed f) /\
  (pr_revenue (predictions r) = None <-> forall c, ~ earns c).
Proof.
  intros Hr earns wellFormed.
  apply ieee_analyzeFinances_returned in Hr as (txs' & [= <-] & _ & _ & ->).
  unfold assembleReport. cbn [predictions pr_costs pr_revenue].
  set (md := monthlyData (extractFeatures txs)).
  set (cats := categories (extractFeatures txs)).
  set (stats := calculateStatistics md cats).
  set (forecasts := fold_left (categoryForecastStep md stats) cats (∅, ∅)).
  assert (Hcosts : forall c, fst forecasts !! c =
            if bool_decide (c ∈ cats)
            then Some (predictWithSmoothing (map (categoryCostAt md c) (months stats)) 3 0.3
                         (categoryAvgCost stats c))
            else None).
  { intros c. unfold forecasts. rewrite (ieee_forecast_fold txs). cbn [fst].
    rewrite (fold_insert_lookup (fun _ => true)
               (fun c => predictWithSmoothing _ 3 0.3 (categoryAvgCost stats c))).
    now rewrite andb_true_r, lookup_empty. }
  assert (Hrevs := ieee_revenue_entries txs). fold md cats stats forecasts in Hrevs.
  assert (Hearn : forall c, snd forecasts !! c <> None <-> earns c).
  { intros c. rewrite Hrevs. change (months stats) with (Js.sorted_keys md).
    pose proof (ieee_earning_month txs c) as Hmonth. fold md in Hmonth.
    destruct (existsb _ _) eqn:Hex.
    - assert (Hc : earns c) by now apply Hmonth.
      assert (Hin : c ∈ cats).
      { destruct Hc as (_ & m & Hm).
        assert (Hcell : existsb (inCell m c) txs = true).
        { destruct (existsb (inCell m c) txs) eqn:Hcell; [reflexivity|]. exfalso.
          rewrite (ieee_amountSum_none (inCell m c)) in Hm; [discriminate|exact Hcell|].
          unfold revenuesOf. intros tx Htx. now apply andb_true_iff in Htx. }
        apply ieee_inCell_spec in Hcell as (tx & Htx & Hcat & _).
        apply (ieee_extractFeatures_categories txs). exists tx.
        unfold inCategory in Hcat. apply andb_true_iff in Hcat as [Hp Hc'].
        apply bool_decide_eq_true in Hc'. auto. }
      rewrite (bool_decide_eq_true_2 _ Hin). cbn [andb]. split; [auto|discriminate].
    - rewrite andb_false_r. split; [congruence|].
      intros Hc. apply Hmonth in Hc. discriminate. }
  assert (Hproto : snd forecasts !! "__proto__" = None).
  { destruct (snd forecasts !! "__proto__") eqn:Hp; [|reflexivity].
    assert (Hc : earns "__proto__") by (apply Hearn; congruence).
    destruct Hc as [Hc _]. vm_compute in Hc. discriminate. }
  assert (Hown : own (snd forecasts) = snd forecasts).
  { unfold own. now rewrite delete_id. }
  unfold ownSize. rewrite Hown.
  assert (Hshape : forall values avg, wellFormed (predictWithSmoothing values 3 0.3 avg)).
  { intros values avg. split;
      [apply ieee_predictWithSmoothing_length|apply ieee_predictWithSmoothing_nonneg]. }
  split; [|split; [|split; [|split]]].
  - unfold own. destruct (decide (cat = "__proto__")) as [->|Hne].
    + rewrite lookup_delete_eq. split; [intros [f Hf]; discriminate|tauto].
    + rewrite lookup_delete_ne by congruence. rewrite Hcosts. case_bool_decide as Hin.
      * split; [intros _; auto|eauto].
      * split; [intros [f Hf]; discriminate|tauto].
  - intros f. rewrite Hcosts. case_bool_decide; [|discriminate].
    intros [= <-]. apply Hshape.
  - rewrite <- Hearn. destruct (0 <? size (snd forecasts))%nat eqn:Hpos.
    + split.
      * intros (revs & [= <-] & [f Hf]). rewrite Hown in Hf. congruence.
      * intros Hsome. exists (snd forecasts). split; [reflexivity|]. rewrite Hown.
        destruct (snd forecasts !! cat); [eauto|contradiction].
    + apply Nat.ltb_ge in Hpos. assert (Hempty : snd forecasts = ∅).
      { apply map_size_empty_iff. lia. }
      rewrite Hempty, lookup_empty. split; [intros (revs & [=] & _)|contradiction].
  - intros revs f. destruct (0 <? size (snd forecasts))%nat; [|discriminate].
    intros [= <-]. rewrite Hrevs.
    destruct (_ && _); [|discriminate]. intros [= <-]. apply Hshape.
  - destruct (0 <? size (snd forecasts))%nat eqn:Hpos.
    + split; [discriminate|]. intros Hnone. exfalso.
      apply Nat.ltb_lt in Hpos.
      destruct (map_choose (snd forecasts)) as (c & f & Hc).
      { intros Hempty. rewrite Hempty, map_size_empty in Hpos. lia. }
      apply (Hnone c). apply Hearn. congruence.
    + split; [|reflexivity]. intros _ c Hc. apply Hearn in Hc.
      apply Nat.ltb_ge in Hpos. assert (Hempty : snd forecasts = ∅).
      { apply map_size_empty_iff. lia. }
      rewrite Hempty, lookup_empty in Hc. contradiction.
Qed.

End ieee_forecasts.

(** ** The order of the input *)

Section ieee_order.

Import Ieee.
Local Open Scope float_scope.

Lemma ieee_existsb_perm (sel : Transaction -> bool) (l l' : list Transaction) :
  l ≡ₚ l' -> existsb sel l = existsb sel l'.
Proof.
  intros Hp. apply eq_true_iff_eq. rewrite !existsb_exists.
  split; intros (x & Hin & Hx); exists x; split; auto;
    apply list_elem_of_In; apply list_elem_of_In in Hin.
  - now rewrite <- Hp.
  - now rewrite Hp.
Qed.

(** X8. The order of the transactions decides neither the months nor the
    sub-buckets nor the categories that [extractFeatures] returns (the
    categories are listed in a possibly different order).  The amounts of
    a bucket are added in the order of the input, and on doubles the sum
    depends on it: costs of 0.1, 0.2 and 0.3 in one month add up to
    0.6000000000000001, and in the reverse order to 0.6. *)
Theorem extractFeatures_order_of_input (txs txs' : list Transaction) :
  txs ≡ₚ txs' ->
  let md := monthlyData (extractFeatures txs) in
  let md' := monthlyData (extractFeatures txs') in
  (forall key, is_Some (md !! key) <-> is_Some (md' !! key)) /\
  (forall key cat, is_Some (mb_categories (monthAt md key) !! cat) <->
                   is_Some (mb_categories (monthAt md' key) !! cat)) /\
  categories (extractFeatures txs) ≡ₚ categories (extractFeatures txs') /\
  mb_cost (monthAt (monthlyData (extractFeatures Sample.dimes)) "2024-01") <>
  mb_cost (monthAt (monthlyData (extractFeatures (rev Sample.dimes))) "2024-01").
Proof.
  intros Hp. cbv zeta. split; [|split; [|split]].
  - intros key.
    pose proof (ieee_extractFeatures_months txs key) as H.
    pose proof (ieee_extractFeatures_months txs' key) as H'.
    unfold MonthOk in *. rewrite (ieee_existsb_perm _ _ _ Hp) in H.
    destruct (monthlyData (extractFeatures txs) !! key) as [b|],
             (monthlyData (extractFeatures txs') !! key) as [b'|].
    + split; eauto.
    + destruct H as [H _]. congruence.
    + destruct H' as [H' _]. congruence.
    + split; intros [? [=]].
  - intros key cat.
    pose proof (ieee_cell_ok txs key cat) as H.
    pose proof (ieee_cell_ok txs' key cat) as H'.
    unfold CellOk in *. rewrite (ieee_existsb_perm _ _ _ Hp) in H.
    destruct (mb_categories (monthAt (monthlyData (extractFeatures txs)) key) !! cat) as [c|],
             (mb_categories (monthAt (monthlyData (extractFeatures txs')) key) !! cat) as [c'|].
    + split; eauto.
    + destruct H as (Hown & Hex & _). destruct H' as [H'|H']; congruence.
    + destruct H' as (Hown & Hex & _). destruct H as [H|H]; congruence.
    + split; intros [? [=]].
  - destruct (ieee_extractFeatures_categories txs) as [Hnd Hmem].
    destruct (ieee_extractFeatures_categories txs') as [Hnd' Hmem'].
    apply NoDup_Permutation; [assumption..|].
    intros c. rewrite Hmem, Hmem'. split; intros (tx & Hin & H); exists tx.
    + now rewrite <- Hp.
    + now rewrite Hp.
  - vm_compute. discriminate.
Qed.

End ieee_order.

(** ** The top spending categories *)

Section ieee_top_categories.

Import Ieee.
Local Open Scope float_scope.

Lemma ieee_insertEntry_perm (x : string * CategoryTotal) (l : list (string * CategoryTotal)) :
  insertEntry x l ≡ₚ x :: l.
Proof.
  induction l as [|y l IH]; [reflexivity|]. simpl.
  destruct (Num.gt _ 0); [|reflexivity]. rewrite IH. apply perm_swap.
Qed.

Lemma ieee_sortByCost_perm (l : list (string * CategoryTotal)) : sortByCost l ≡ₚ l.
Proof.
  induction l as [|x l IH]; [reflexivity|]. simpl.
  rewrite ieee_insertEntry_perm. now rewrite IH.
Qed.

Lemma ieee_insertEntry_sorted (x : string * CategoryTotal)
    (l : list (string * CategoryTotal)) :
  Sorted keepsOrder l -> Sorted keepsOrder (insertEntry x l).
Proof.
  induction 1 as [|y rest Hrest IH Hy]; [repeat constructor|].
  simpl. destruct (Num.gt _ 0) eqn:E.
  - constructor; [exact IH|].
    assert (Hyx : keepsOrder y x) by (unfold keepsOrder; now apply sub_antisym).
    destruct rest as [|z rest']; [now constructor|].
    simpl. destruct (Num.gt (ct_cost (snd z) - ct_cost (snd x)) 0); constructor;
      [now inversion Hy|exact Hyx].
  - constructor; [now constructor|]. constructor. exact E.
Qed.

Lemma ieee_sortByCost_sorted (l : list (string * CategoryTotal)) :
  Sorted keepsOrder (sortByCost l).
Proof.
  induction l as [|x l IH]; [constructor|]. simpl. now apply ieee_insertEntry_sorted.
Qed.

Lemma sorted_neighbours {A} (R : A -> A -> Prop) (l : list A) (i : nat) (a b : A) :
  Sorted R l -> l !! i = Some a -> l !! S i = Some b -> R a b.
Proof.
  intros Hl. revert i. induction Hl as [|x l Hl IH Hx]; intros i Ha Hb; [discriminate|].
  destruct i as [|i].
  - injection Ha as <-. destruct l as [|y l]; [discriminate|].
    injection Hb as <-. now inversion Hx.
  - now apply (IH i).
Qed.

Lemma ieee_entries_keys (totals : gmap string CategoryTotal) (keys : list string) :
  map fst (omap (fun key => pair key <$> totals !! key) keys) `sublist_of` keys.
Proof.
  induction keys as [|key keys IH]; [constructor|].
  change (omap (fun key => pair key <$> totals !! key) (key :: keys))
    with (match pair key <$> totals !! key with
          | Some e => e :: omap (fun key => pair key <$> totals !! key) keys
          | None => omap (fun key => pair key <$> totals !! key) keys
          end).
  destruct (totals !! key); simpl; now constructor.
Qed.

Lemma ownNames_elem (created : list string) (key : string) :
  key ∈ ownNames created <-> key ∈ created /\ key <> "__proto__".
Proof.
  unfold ownNames. rewrite ownKeys_perm, filter_elem, negb_true_iff, bool_decide_eq_false.
  reflexivity.
Qed.

Lemma ownNames_NoDup (created : list string) : NoDup created -> NoDup (ownNames created).
Proof.
  intros Hnd. unfold ownNames.
  apply (proj2 (NoDup_Permutation_proper _ _ (ownKeys_perm _))).
  apply (sublist_NoDup _ created); [exact Hnd|apply filter_sublist].
Qed.

Context (totals : gmap string CategoryTotal) (created : list string).

Let ranked : list (string * CategoryTotal) :=
  sortByCost
    (List.filter (fun e => Num.gt (ct_cost (snd e)) 0)
       (omap (fun key => pair key <$> totals !! key) (ownNames created))).

Lemma ieee_topSpending_take : topSpending totals created = map fst (take 3 ranked).
Proof. unfold topSpending. now rewrite (slice_prefix 3). Qed.

Lemma ieee_ranked_elem (e : string * CategoryTotal) :
  e ∈ ranked <->
  fst e ∈ created /\ fst e <> "__proto__" /\ totals !! fst e = Some (snd e) /\
  Num.gt (ct_cost (snd e)) 0 = true.
Proof.
  unfold ranked. rewrite ieee_sortByCost_perm, filter_elem, list_elem_of_omap.
  destruct e as [key total]. simpl. split.
  - intros [(k & Hk & He) Hpos]. apply ownNames_elem in Hk as [Hk Hown].
    destruct (totals !! k) as [v|] eqn:Hv; [|discriminate].
    injection He as <- <-. auto.
  - intros (Hk & Hown & Hv & Hpos). split; [|assumption].
    exists key. rewrite ownNames_elem, Hv. auto.
Qed.

Lemma ieee_ranked_NoDup : NoDup created -> NoDup (map fst ranked).
Proof.
  intros Hnd. unfold ranked.
  apply (proj2 (NoDup_Permutation_proper _ _ (Permutation_map fst (ieee_sortByCost_perm _)))).
  apply (sublist_NoDup _ (ownNames created)); [now apply ownNames_NoDup|].
  etransitivity; [|apply ieee_entries_keys].
  apply (fmap_sublist fst), filter_sublist.
Qed.

(** Up to three own entries with a positive cost. *)
Lemma ieee_topSpending_members :
  NoDup created ->
  let top := topSpending totals created in
  (length top <= 3)%nat /\
  NoDup top /\
  (forall cat, cat ∈ top ->
     cat ∈ created /\ cat <> "__proto__" /\
     exists t, totals !! cat = Some t /\ Num.gt (ct_cost t) 0 = true) /\
  (forall cat t, cat ∈ created -> cat <> "__proto__" -> totals !! cat = Some t ->
                 Num.gt (ct_cost t) 0 = true -> cat ∉ top -> length top = 3%nat) /\
  (forall i a b ta tb, top !! i = Some a -> top !! S i = Some b ->
                       totals !! a = Some ta -> totals !! b = Some tb ->
                       Num.gt (ct_cost tb - ct_cost ta) 0 = false).
Proof.
  intros Hnd top. subst top. rewrite ieee_topSpending_take.
  split; [|split; [|split; [|split]]].
  - rewrite length_map, length_take. lia.
  - change (map fst (take 3 ranked)) with (fst <$> take 3 ranked).
    rewrite fmap_take. apply (sublist_NoDup _ (map fst ranked)); [|apply sublist_take].
    now apply ieee_ranked_NoDup.
  - intros cat Hcat. apply list_elem_of_fmap in Hcat as (e & -> & He).
    apply (subseteq_take 3), ieee_ranked_elem in He as (H1 & H2 & H3 & H4). eauto.
  - intros cat t Hcat Hown Ht Hpos Hout.
    assert (Hin : (cat, t) ∈ ranked) by (apply ieee_ranked_elem; simpl; auto).
    rewrite <- (take_drop 3 ranked) in Hin. apply elem_of_app in Hin as [Hin|Hin].
    { exfalso. apply Hout. apply list_elem_of_fmap. now exists (cat, t). }
    assert (Hlen : (3 < length ranked)%nat).
    { destruct (le_lt_dec (length ranked) 3) as [Hle|]; [|assumption].
      rewrite drop_ge in Hin by assumption. inversion Hin. }
    rewrite length_map, length_take. lia.
  - intros i a b ta tb Ha Hb Hta Htb.
    change (map fst (take 3 ranked)) with (fst <$> take 3 ranked) in Ha, Hb.
    rewrite list_lookup_fmap in Ha, Hb.
    destruct (take 3 ranked !! i) as [ea|] eqn:Hea; [|discriminate].
    destruct (take 3 ranked !! S i) as [eb|] eqn:Heb; [|discriminate].
    injection Ha as <-. injection Hb as <-.
    apply lookup_take_Some in Hea as [Hea Hi]. apply lookup_take_Some in Heb as [Heb Hj].
    pose proof (ieee_sortByCost_sorted
      (List.filter (fun e => Num.gt (ct_cost (snd e)) 0)
         (omap (fun key => pair key <$> totals !! key) (ownNames created)))) as Hsorted.
    fold ranked in Hsorted.
    pose proof (sorted_neighbours _ _ _ _ _ Hsorted Hea Heb) as Hord.
    assert (Ha : ea ∈ ranked) by (eapply list_elem_of_lookup_2; exact Hea).
    assert (Hb : eb ∈ ranked) by (eapply list_elem_of_lookup_2; exact Heb).
    apply ieee_ranked_elem in Ha as (_ & _ & Ha & _).
    apply ieee_ranked_elem in Hb as (_ & _ & Hb & _).
    rewrite Ha in Hta. rewrite Hb in Htb. injection Hta as <-. injection Htb as <-.
    exact Hord.
Qed.

End ieee_top_categories.

Section ieee_top_spending.

Import Ieee.
Local Open Scope float_scope.

Context (txs : list Transaction).

Let features : Features := extractFeatures txs.
Let stats : Statistics :=
  calculateStatistics (monthlyData features) (categories features).

Lemma ieee_categoryTotals_lookup (cat : string) :
  cat ∈ categories features ->
  categoryTotals stats !! cat = Some (totalAt stats cat).
Proof.
  intros Hcat. unfold totalAt, stats, calculateStatistics. cbn [categoryTotals].
  rewrite ieee_totals_fold_lookup
    by (try assumption; apply (ieee_extractFeatures_categories txs)).
  cbn [acc_categories]. now rewrite ieee_initTotals_lookup by assumption.
Qed.

(** X11. [topCategories] of [calculateStatistics], over doubles: it lists
    at most three distinct categories of the history, none of them named
    like an inherited member, each with a positive total of cost amounts;
    a category with a positive total and an ordinary name is left out only
    when three categories are listed; and no listed category is followed
    by one that the comparison of the sort ranks above it (the difference
    of the totals, next minus previous, is not above 0).  The total of a
    category adds, from 0 and oldest month first, the month sums of its
    cost amounts. *)
Theorem topCategories_by_spending :
  let top := topCategories stats in
  let spent cat :=
    Num.sum (map (fun m => amountSum (costsOf (inCell m cat)) txs) (activeMonths txs cat)) in
  (length top <= 3)%nat /\
  NoDup top /\
  (forall cat, cat ∈ top ->
     cat ∈ categories features /\ inherited cat = false /\ Num.gt (spent cat) 0 = true) /\
  (forall cat, cat ∈ categories features -> inherited cat = false ->
               Num.gt (spent cat) 0 = true -> cat ∉ top -> length top = 3%nat) /\
  (forall i a b, top !! i = Some a -> top !! S i = Some b ->
                 Num.gt (spent b - spent a) 0 = false).
Proof.
  intros top spent.
  destruct (ieee_topSpending_members (categoryTotals stats) (categories features)
              (proj1 (ieee_extractFeatures_categories txs)))
    as (Hlen & Hnd & Hmem & Hmax & Hord).
  change (topSpending (categoryTotals stats) (categories features)) with top
    in Hlen, Hnd, Hmem, Hmax, Hord.
  assert (Hlisted : forall cat, cat ∈ top ->
            cat ∈ categories features /\ inherited cat = false /\
            Num.gt (spent cat) 0 = true /\
            categoryTotals stats !! cat = Some (totalAt stats cat) /\
            ct_cost (totalAt stats cat) = spent cat).
  { intros cat Hcat. destruct (Hmem cat Hcat) as (Hin & _ & t & Ht & Hpos).
    pose proof (ieee_categoryTotals_lookup cat Hin) as Hlook.
    rewrite Hlook in Ht. injection Ht as <-.
    split; [exact Hin|].
    destruct (inherited cat) eqn:Hinh.
    + exfalso. destruct (ieee_totals_inherited txs cat Hin Hinh) as (Hc & _).
      fold features stats in Hc. rewrite Hc in Hpos. discriminate.
    + destruct (ieee_totals_own txs cat Hin Hinh) as (Hc & _).
      fold features stats in Hc. unfold spent. rewrite <- Hc. auto. }
  split; [exact Hlen|]. split; [exact Hnd|]. split; [|split].
  3:{ intros i a b Ha Hb.
      destruct (Hlisted a) as (_ & _ & _ & Hta & Hca);
        [eapply list_elem_of_lookup_2; exact Ha|].
      destruct (Hlisted b) as (_ & _ & _ & Htb & Hcb);
        [eapply list_elem_of_lookup_2; exact Hb|].
      rewrite <- Hca, <- Hcb. exact (Hord i a b _ _ Ha Hb Hta Htb). }
  - intros cat Hcat. destruct (Hmem cat Hcat) as (Hin & _ & t & Ht & Hpos).
    rewrite (ieee_categoryTotals_lookup cat Hin) in Ht. injection Ht as <-.
    split; [exact Hin|].
    destruct (inherited cat) eqn:Hinh.
    + exfalso. destruct (ieee_totals_inherited txs cat Hin Hinh) as (Hc & _).
      fold features stats in Hc. rewrite Hc in Hpos. discriminate.
    + split; [reflexivity|].
      destruct (ieee_totals_own txs cat Hin Hinh) as (Hc & _).
      fold features stats in Hc. unfold spent. now rewrite <- Hc.
  - intros cat Hin Hinh Hpos Hout.
    apply (Hmax cat (totalAt stats cat)); auto.
    + intros ->. vm_compute in Hinh. discriminate.
    + now apply ieee_categoryTotals_lookup.
    + destruct (ieee_totals_own txs cat Hin Hinh) as (Hc & _).
      fold features stats in Hc. now rewrite Hc.
Qed.

End ieee_top_spending.

(** ** Examples over doubles *)

Section ieee_examples.

Import Ieee.
Local Open Scope float_scope.

Lemma category_average_of_own_name_witness :
  analyzeFinances Sample.failingBackend (Some Sample.partial) =
    Returned (Sample.report Sample.partial) /\
  "Food" ∈ categories (extractFeatures Sample.partial) /\
  inherited "Food" = false /\
  exists e, categoryBreakdown (Sample.report Sample.partial) !! "Food" = Some e /\
            currentAverage e = 100.
Proof.
  assert (H1 : analyzeFinances Sample.failingBackend (Some Sample.partial) =
               Returned (Sample.report Sample.partial)) by (vm_compute; reflexivity).
  assert (H2 : "Food" ∈ categories (extractFeatures Sample.partial))
    by (vm_compute; left).
  assert (H3 : inherited "Food" = false) by (vm_compute; reflexivity).
  split; [exact H1|]. split; [exact H2|]. split; [exact H3|].
  destruct (category_average_of_own_name _ _ _ _ H1 H2 H3)
    as (_ & _ & _ & _ & (e & He & Havg)).
  exists e. split; [exact He|]. rewrite Havg. vm_compute. reflexivity.
Defined.

Lemma inherited_category_entry_witness :
  analyzeFinances Sample.failingBackend (Some Sample.toStringNamed) =
    Returned (Sample.report Sample.toStringNamed) /\
  "toString" ∈ categories (extractFeatures Sample.toStringNamed) /\
  inherited "toString" = true /\
  pr_costs (predictions (Sample.report Sample.toStringNamed)) !! "toString" =
    Some [0; 0; 0].
Proof.
  assert (H1 : analyzeFinances Sample.failingBackend (Some Sample.toStringNamed) =
               Returned (Sample.report Sample.toStringNamed)) by (vm_compute; reflexivity).
  assert (H2 : "toString" ∈ categories (extractFeatures Sample.toStringNamed))
    by (vm_compute; left).
  assert (H3 : inherited "toString" = true) by (vm_compute; reflexivity).
  split; [exact H1|]. split; [exact H2|]. split; [exact H3|].
  exact (proj1 (proj2 (proj2 (inherited_category_entry _ _ _ _ H1 H2 H3)))).
Defined.

Lemma revenue_only_category_witness :
  analyzeFinances Sample.failingBackend (Some Sample.salaried) =
    Returned (Sample.report Sample.salaried) /\
  "Salary" ∈ categories (extractFeatures Sample.salaried) /\
  (forall tx, tx ∈ Sample.salaried -> inCategory "Salary" tx = true ->
              isCost tx = false) /\
  exists e,
    categoryBreakdown (Sample.report Sample.salaried) !! "Salary" = Some e /\
    predictedTrend e = "stable" /\
    recommendation e = "Salary spending is stable.".
Proof.
  assert (H1 : analyzeFinances Sample.failingBackend (Some Sample.salaried) =
               Returned (Sample.report Sample.salaried)) by (vm_compute; reflexivity).
  assert (H2 : "Salary" ∈ categories (extractFeatures Sample.salaried))
    by (vm_compute; left).
  assert (H3 : forall tx, tx ∈ Sample.salaried -> inCategory "Salary" tx = true ->
                          isCost tx = false).
  { intros tx Htx. unfold Sample.salaried in Htx.
    rewrite !elem_of_cons in Htx. rewrite elem_of_nil in Htx.
    destruct Htx as [->|[->|[->|[]]]]; vm_compute; congruence. }
  split; [exact H1|]. split; [exact H2|]. split; [exact H3|].
  destruct (revenue_only_category _ _ _ _ H1 H2 H3) as (e & He & Ht & Hr & _).
  exists e. auto.
Defined.

Lemma category_forecasts_presence_witness :
  analyzeFinances Sample.failingBackend (Some Sample.salaried) =
    Returned (Sample.report Sample.salaried) /\
  (is_Some (own (pr_costs (predictions (Sample.report Sample.salaried))) !! "Salary") <->
   "Salary" ∈ categories (extractFeatures Sample.salaried) /\ "Salary" <> "__proto__").
Proof.
  assert (H1 : analyzeFinances Sample.failingBackend (Some Sample.salaried) =
               Returned (Sample.report Sample.salaried)) by (vm_compute; reflexivity).
  split; [exact H1|].
  exact (proj1 (category_forecasts_presence _ _ _ "Salary" H1)).
Defined.

Lemma extractFeatures_order_of_input_witness :
  Sample.partial ≡ₚ rev Sample.partial /\
  categories (extractFeatures Sample.partial) ≡ₚ
  categories (extractFeatures (rev Sample.partial)).
Proof.
  assert (H1 : Sample.partial ≡ₚ rev Sample.partial) by apply perm_swap.
  split; [exact H1|].
  exact (proj1 (proj2 (proj2 (extractFeatures_order_of_input _ _ H1)))).
Defined.

End ieee_examples.

(** * Properties of the handlers *)

Section handlers.

Import App.

Lemma always_exec (P : Request -> Prop) (h : Handler) :
  always P h -> forall host n, Forall (fun e => P (request e)) (exec host n h).
Proof.
  induction 1 as [|q k Hq _ IH]; intros host n; simpl.
  - constructor.
  - constructor; [exact Hq|apply IH].
Qed.

Lemma always_forEach {A} (P : Request -> Prop) (l : list A)
    (body : A -> Handler -> Handler) (next : Handler) :
  (forall x h, x ∈ l -> always P h -> always P (body x h)) ->
  always P next -> always P (forEach l body next).
Proof.
  intros Hbody Hnext. induction l as [|x l IH]; simpl; [exact Hnext|].
  apply Hbody; [left|]. apply IH. intros y h Hy. apply Hbody. now right.
Qed.

Lemma always_writeBalance (P : Request -> Prop) (card : Card) (a : Q)
    (message : string) (next : Handler) :
  P (UpdateCard (card_id card) a) -> P (SetCards (card_id card) a) ->
  P (Alert message) -> always P next -> always P (writeBalance card a message next).
Proof.
  intros Hu Hs Ha Hnext. unfold writeBalance. constructor; [exact Hu|].
  intros [[]|e]; (constructor; [assumption|]); intros _; [exact Hnext|constructor].
Qed.

Lemma checks_skipped (st : State) (tx : Entry) (next : Handler) :
  checkLimit st tx true (checkPlan st tx true next) = next.
Proof. unfold checkLimit, checkPlan. now rewrite andb_false_r. Qed.

(** X14. A transaction dated after the clock reading is only stored: the
    handler asks for no confirmation and writes no balance; it stores the
    transaction with [scheduled = true] and [isAffect = false] and then at
    most adds it to the local list, or reports the failure of the store. *)
Theorem scheduled_transaction_only_stored (host : Host) (n : nat) (st : State)
    (tx : Entry) (m : Moment) :
  e_date tx = Some m ->
  (host n Now < timeValue m)%Z ->
  exists rest,
    map request (exec host n (addTransaction st tx)) =
      Now :: AddTransactionToTable tx true false :: rest /\
    Forall (fun q =>
              match q with
              | SetTransactions (Prepend newTx) =>
                  s_entry newTx = tx /\
                  s_scheduled newTx = Some true /\ s_isAffect newTx = Some false
              | Alert _ => True
              | _ => False
              end) rest.
Proof.
  intros Hdate Hnow. unfold addTransaction. cbn [exec map request].
  assert (Hfuture : isAfter (e_date tx) (host n Now) = true).
  { rewrite Hdate. unfold isAfter. now apply Z.ltb_lt. }
  rewrite Hfuture, checks_skipped. unfold storeTransaction. cbn [negb exec map request].
  eexists. split; [reflexivity|].
  destruct (host (S n) (AddTransactionToTable tx true false)) as [id|failure].
  - destruct (bool_decide (Some (e_cardId tx) = selectedCardId st)); cbn.
    + repeat constructor.
    + constructor.
  - cbn. repeat constructor.
Qed.

End handlers.

Section discipline.

Import App.

Lemma guarded_exec (prev : option Event) (h : Handler) :
  guarded prev h ->
  forall host n i e,
    exec host n h !! i = Some e ->
    permitted (match i with O => prev | S j => exec host n h !! j end) (request e) /\
    ((exists message, request e = Alert message) -> length (exec host n h) = S i).
Proof.
  induction 1 as [prev|prev q k Hq Hfinal _ IH]; intros host n i e Hi; [discriminate|].
  cbn [exec] in *. destruct i as [|i].
  - injection Hi as <-. cbn [request]. split; [exact Hq|].
    intros [message ->]. cbn in Hfinal. now rewrite Hfinal.
  - cbn [lookup list_lookup] in Hi.
    destruct (IH (host n q) host (S n) i e Hi) as [Hperm Hlast]. split.
    + destruct i as [|i]; exact Hperm.
    + intros Halert. cbn [length]. now rewrite (Hlast Halert).
Qed.

Lemma guarded_checkLimit (st : State) (tx : Entry) (future : bool) (next : Handler) :
  (forall prev, guarded prev next) ->
  forall prev, guarded prev (checkLimit st tx future next).
Proof.
  intros Hnext prev. unfold checkLimit.
  repeat match goal with
         | |- guarded _ (if ?b then _ else _) => destruct b
         | |- guarded _ (match ?x with Some _ => _ | None => _ end) => destruct x
         end; try apply Hnext.
  constructor; [exact I|exact I|]. intros [|]; [apply Hnext|constructor].
Qed.

Lemma guarded_checkPlan (st : State) (tx : Entry) (future : bool) (next : Handler) :
  (forall prev, guarded prev next) ->
  forall prev, guarded prev (checkPlan st tx future next).
Proof.
  intros Hnext prev. unfold checkPlan.
  repeat match goal with
         | |- guarded _ (if ?b then _ else _) => destruct b
         | |- guarded _ (match ?x with Some _ => _ | None => _ end) => destruct x
         end; try apply Hnext.
  constructor; [exact I|exact I|]. intros [|]; [apply Hnext|constructor].
Qed.

Lemma guarded_alert (q : Request) (r : Reply q) (message : string) :
  failed (event q r) = true ->
  guarded (Some (event q r)) (Call (Alert message) (fun _ => Done)).
Proof.
  intros Hfailed. constructor.
  - now exists (event q r).
  - intros reply. reflexivity.
  - intros reply. constructor.
Qed.

Lemma guarded_writeBalance (card : Card) (a : Q) (message : string) (next : Handler) :
  (forall prev, guarded prev next) ->
  forall prev, guarded prev (writeBalance card a message next).
Proof.
  intros Hnext prev. unfold writeBalance. constructor; [exact I|exact I|].
  intros [[]|failure].
  - constructor; [|exact I|intros reply; apply Hnext].
    now exists (event (UpdateCard (card_id card) a) (Returned ())).
  - now apply guarded_alert.
Qed.

Lemma guarded_storeTransaction (st : State) (tx : Entry) (future : bool) :
  forall prev, guarded prev (storeTransaction st tx future).
Proof.
  intros prev. unfold storeTransaction. constructor; [exact I|exact I|].
  intros [id|failure]; [|now apply guarded_alert].
  assert (Hbalance : forall prev',
    guarded prev'
      (if negb future then
         match findCard (cards st) (e_cardId tx) with
         | Some card =>
             writeBalance card (applied tx (card_amount card))
               "Failed to add transaction. Please try again." Done
         | None => Done
         end
       else Done)).
  { intros prev'. destruct (negb future); [|constructor].
    destruct (findCard (cards st) (e_cardId tx)); [|constructor].
    apply guarded_writeBalance. intros; constructor. }
  cbn [s_entry].
  destruct (bool_decide (Some (e_cardId tx) = selectedCardId st)); [|apply Hbalance].
  constructor; [exact I|exact I|]. intros reply. apply Hbalance.
Qed.

Lemma guarded_addTransaction (st : State) (tx : Entry) :
  guarded None (addTransaction st tx).
Proof.
  unfold addTransaction. constructor; [exact I|exact I|]. intros now.
  apply guarded_checkLimit. apply guarded_checkPlan. apply guarded_storeTransaction.
Qed.

Lemma guarded_deleteTransaction (st : State) (txId : string) :
  guarded None (deleteTransaction st txId).
Proof.
  unfold deleteTransaction.
  destruct (List.find _ (transactions st)) as [transaction|]; [|constructor].
  constructor; [exact I|exact I|]. intros [[]|failure]; [|now apply guarded_alert].
  constructor; [exact I|exact I|]. intros reply.
  destruct (truthy (s_isAffect transaction)); [|constructor].
  destruct (findCard _ _); [|constructor].
  apply guarded_writeBalance. intros; constructor.
Qed.

Lemma guarded_forEach {A} (l : list A) (body : A -> Handler -> Handler)
    (next : Handler) :
  (forall x h, (forall prev, guarded prev h) -> forall prev, guarded prev (body x h)) ->
  (forall prev, guarded prev next) ->
  forall prev, guarded prev (forEach l body next).
Proof.
  intros Hbody Hnext. induction l as [|x l IH]; simpl; [exact Hnext|].
  now apply Hbody.
Qed.

Lemma guarded_applyScheduled (st : State) (tx : Stored) (nextTx : Handler) :
  (forall prev, guarded prev nextTx) ->
  forall prev, guarded prev (applyScheduled st tx nextTx).
Proof.
  intros HnextTx prev. unfold applyScheduled. constructor; [exact I|exact I|].
  intros [[]|failure]; [|constructor].
  destruct (findCard _ _) as [cardToUpdate|]; [|apply HnextTx].
  constructor; [exact I|exact I|]. intros [[]|failure]; [|constructor].
  constructor; [|exact I|intros reply; apply HnextTx].
  now eexists (event (UpdateCard _ _) (Returned ())).
Qed.

Lemma guarded_processScheduledTransactions (st : State) :
  guarded None (processScheduledTransactions st).
Proof.
  unfold processScheduledTransactions. constructor; [exact I|exact I|]. intros userId.
  destruct (_ || _); [constructor|].
  constructor; [exact I|exact I|]. intros [allTransactions|failure]; [|constructor].
  apply guarded_forEach; [|intros; constructor].
  intros card nextCard HnextCard prev. unfold processCard.
  constructor; [exact I|exact I|]. intros now.
  destruct (_ =? _)%nat; [apply HnextCard|].
  apply guarded_forEach.
  - intros tx nextTx. apply guarded_applyScheduled.
  - intros prev'. destruct (bool_decide _); [|apply HnextCard].
    constructor; [exact I|exact I|]. intros reply. apply HnextCard.
Qed.

(** X17. The state follows the store.  In every run of [addTransaction], of
    [deleteTransaction] and of [processScheduledTransactions], whatever the
    browser and the store answer, a balance is set in the state only right
    after the store accepted the write of that same balance to that same
    card, and an alert is raised only right after a call to the store
    failed, as the last thing the handler does. *)
Theorem state_follows_store (host : Host) (n : nat) (st : State) (h : Handler) :
  (exists tx, h = addTransaction st tx) \/
  (exists txId, h = deleteTransaction st txId) \/
  h = processScheduledTransactions st ->
  let log := exec host n h in
  forall i e,
    log !! i = Some e ->
    (forall cardId amount,
        request e = SetCards cardId amount ->
        exists j e', i = S j /\ log !! j = Some e' /\
                     request e' = UpdateCard cardId amount /\ failed e' = false) /\
    (forall message,
        request e = Alert message ->
        length log = S i /\
        exists j e', i = S j /\ log !! j = Some e' /\ failed e' = true).
Proof.
  intros Hh log i e Hi.
  assert (Hguarded : guarded None h).
  { destruct Hh as [[tx ->]|[[txId ->]| ->]].
    - apply guarded_addTransaction.
    - apply guarded_deleteTransaction.
    - apply guarded_processScheduledTransactions. }
  destruct (guarded_exec None h Hguarded host n i e Hi) as [Hperm Hlast].
  fold log in Hperm, Hlast. split.
  - intros cardId amount Hreq. rewrite Hreq in Hperm. cbn in Hperm.
    destruct Hperm as (e' & Hprev & Hreq' & Hok).
    destruct i as [|j]; [discriminate|]. now exists j, e'.
  - intros message Hreq. split; [apply Hlast; now exists message|].
    rewrite Hreq in Hperm. cbn in Hperm. destruct Hperm as (e' & Hprev & Hfailed).
    destruct i as [|j]; [discriminate|]. now exists j, e'.
Qed.

End discipline.

Section warnings.

Import App.

(** A check either passes silently or asks once. *)
Lemma exec_checkLimit (host : Host) (n : nat) (st : State) (tx : Entry)
    (future : bool) (next : Handler) :
  exec host n (checkLimit st tx future next) = exec host n next \/
  exists p,
    exec host n (checkLimit st tx future next) =
    event (Confirm p) (host n (Confirm p)) ::
    (if (host n (Confirm p) : bool) then exec host (S n) next else []).
Proof.
  unfold checkLimit.
  repeat match goal with
         | |- context [exec _ _ (if ?b then _ else _)] => destruct b
         | |- context [exec _ _ (match ?x with Some _ => _ | None => _ end)] => destruct x
         end; try (left; reflexivity).
  right. eexists. cbn [exec]. f_equal. now destruct (host n (Confirm _)).
Qed.

Lemma exec_checkPlan (host : Host) (n : nat) (st : State) (tx : Entry)
    (future : bool) (next : Handler) :
  exec host n (checkPlan st tx future next) = exec host n next \/
  exists p,
    exec host n (checkPlan st tx future next) =
    event (Confirm p) (host n (Confirm p)) ::
    (if (host n (Confirm p) : bool) then exec host (S n) next else []).
Proof.
  unfold checkPlan.
  repeat match goal with
         | |- context [exec _ _ (if ?b then _ else _)] => destruct b
         | |- context [exec _ _ (match ?x with Some _ => _ | None => _ end)] => destruct x
         end; try (left; reflexivity).
  right. eexists. cbn [exec]. f_equal. now destruct (host n (Confirm _)).
Qed.

Lemma store_asks_nothing (host : Host) (n : nat) (st : State) (tx : Entry)
    (future : bool) :
  Forall (fun e => declined e = false) (exec host n (storeTransaction st tx future)).
Proof.
  assert (Hnone : always (fun q => forall r, declined (event q r) = false)
                         (storeTransaction st tx future)).
  { unfold storeTransaction. constructor; [reflexivity|]. intros [id|failure].
    - assert (Hbalance : always (fun q => forall r, declined (event q r) = false)
        (if negb future then
           match findCard (cards st) (e_cardId tx) with
           | Some card =>
               writeBalance card (applied tx (card_amount card))
                 "Failed to add transaction. Please try again." Done
           | None => Done
           end
         else Done)).
      { destruct (negb future); [|constructor].
        destruct (findCard _ _); [|constructor].
        apply always_writeBalance; try reflexivity. constructor. }
      cbn [s_entry]. destruct (bool_decide _); [|exact Hbalance].
      constructor; [reflexivity|]. intros reply. exact Hbalance.
    - constructor; [reflexivity|]. intros reply. constructor. }
  pose proof (always_exec _ _ Hnone host n) as Hall.
  eapply Forall_impl; [exact Hall|]. intros [q r] Hq. apply Hq.
Qed.

Ltac prompts_only :=
  repeat match goal with
         | |- Forall _ [] => constructor
         | |- Forall _ (_ :: _) =>
             constructor; [first [left; reflexivity | right; eexists; reflexivity]|]
         end.

(** X16. A declined warning stops [addTransaction] before anything is
    written: if the answer to a confirmation is no, that confirmation is the
    last call of the run, and the run consists of the clock reading and of
    confirmations only. *)
Theorem declined_warning_stops (host : Host) (n : nat) (st : State) (tx : Entry)
    (i : nat) (e : Event) :
  let log := exec host n (addTransaction st tx) in
  log !! i = Some e ->
  declined e = true ->
  length log = S i /\
  Forall (fun e' => request e' = Now \/ exists p, request e' = Confirm p) log.
Proof.
  cbv zeta. unfold addTransaction. cbn [exec].
  set (future := isAfter (e_date tx) (host n Now)).
  pose proof (store_asks_nothing host) as Hstore.
  assert (Hcontra : forall l : list Event,
             Forall (fun e' => declined e' = false) l ->
             l !! i = Some e -> declined e = true -> False).
  { intros l Hall Hi He. rewrite Forall_lookup in Hall.
    rewrite (Hall i e Hi) in He. discriminate. }
  destruct (exec_checkLimit host (S n) st tx future
              (checkPlan st tx future (storeTransaction st tx future)))
    as [->|(p & ->)].
  - destruct (exec_checkPlan host (S n) st tx future (storeTransaction st tx future))
      as [->|(p' & ->)].
    + intros Hi He. exfalso. revert Hi He. apply Hcontra.
      constructor; [reflexivity|apply Hstore].
    + destruct (host (S n) (Confirm p')) eqn:Hp'.
      * intros Hi He. exfalso. revert Hi He. apply Hcontra.
        constructor; [reflexivity|]. constructor; [reflexivity|apply Hstore].
      * intros Hi He. destruct i as [|[|i]]; cbn in Hi; try discriminate.
        -- injection Hi as <-. discriminate.
        -- split; [reflexivity|]. prompts_only.
  - destruct (host (S n) (Confirm p)) eqn:Hp.
    + destruct (exec_checkPlan host (S (S n)) st tx future
                  (storeTransaction st tx future)) as [->|(p' & ->)].
      * intros Hi He. exfalso. revert Hi He. apply Hcontra.
        constructor; [reflexivity|]. constructor; [reflexivity|apply Hstore].
      * destruct (host (S (S n)) (Confirm p')) eqn:Hp'.
        -- intros Hi He. exfalso. revert Hi He. apply Hcontra.
           constructor; [reflexivity|]. constructor; [reflexivity|].
           constructor; [reflexivity|apply Hstore].
        -- intros Hi He. destruct i as [|[|[|i]]]; cbn in Hi; try discriminate.
           ++ injection Hi as <-. discriminate.
           ++ injection Hi as <-. discriminate.
           ++ split; [reflexivity|]. prompts_only.
    + intros Hi He. destruct i as [|[|i]]; cbn in Hi; try discriminate.
      * injection Hi as <-. discriminate.
      * split; [reflexivity|]. prompts_only.
Qed.

End warnings.

Section balances.

Import App.

Lemma cooperative_confirm (host : Host) (n : nat) (p : Prompt) :
  cooperative host -> host n (Confirm p) = true.
Proof.
  intros Hco. destruct (Hco n (Confirm p)) as [Hyes _]. cbn in Hyes.
  now apply negb_false_iff in Hyes.
Qed.

(** X15. A transaction that is not dated after the clock reading, on a card
    of the state, with a user who accepts the warnings and a store that does
    not fail, is stored with [scheduled = false] and [isAffect = true], and
    the balance of its card is then written once, to the store and to the
    state: the balance of the card minus the amount for a cost, plus the
    amount otherwise. *)
Theorem current_transaction_applied (host : Host) (n : nat) (st : State)
    (tx : Entry) (card : Card) :
  cooperative host ->
  isAfter (e_date tx) (host n Now) = false ->
  findCard (cards st) (e_cardId tx) = Some card ->
  let balance := applied tx (card_amount card) in
  exists before,
    map request (exec host n (addTransaction st tx)) =
      before ++ [UpdateCard (card_id card) balance; SetCards (card_id card) balance] /\
    AddTransactionToTable tx false true ∈ before /\
    Forall (fun q => match q with
                     | UpdateCard _ _ | SetCards _ _ | Alert _ => False
                     | _ => True
                     end) before.
Proof.
  intros Hco Hnow Hcard balance. unfold addTransaction. cbn [exec map request].
  rewrite Hnow.
  assert (Hstore : forall k, exists before,
    map request (exec host k (storeTransaction st tx false)) =
      before ++ [UpdateCard (card_id card) balance; SetCards (card_id card) balance] /\
    AddTransactionToTable tx false true ∈ before /\
    Forall (fun q => match q with
                     | UpdateCard _ _ | SetCards _ _ | Alert _ => False
                     | _ => True
                     end) before).
  { intros k. unfold storeTransaction. cbn [exec map request negb s_entry].
    rewrite Hcard.
    destruct (host k (AddTransactionToTable tx false true)) as [id|failure] eqn:Hadd.
    2:{ destruct (Hco k (AddTransactionToTable tx false true)) as [_ Hok].
        cbn in Hok. rewrite Hadd in Hok. discriminate. }
    assert (Hwrite : forall k',
      map request (exec host k'
        (writeBalance card (applied tx (card_amount card))
           "Failed to add transaction. Please try again." Done)) =
      [UpdateCard (card_id card) balance; SetCards (card_id card) balance]).
    { intros k'. unfold writeBalance. cbn [exec map request]. fold balance.
      destruct (host k' (UpdateCard (card_id card) balance)) as [[]|failure] eqn:Hup.
      - reflexivity.
      - destruct (Hco k' (UpdateCard (card_id card) balance)) as [_ Hok].
        cbn in Hok. rewrite Hup in Hok. discriminate. }
    destruct (bool_decide (Some (e_cardId tx) = selectedCardId st)).
    - cbn [exec map request]. rewrite Hwrite.
      eexists [_; _]. split; [reflexivity|]. split; [left|]. repeat constructor.
    - rewrite Hwrite. eexists [_]. split; [reflexivity|]. split; [left|].
      repeat constructor. }
  assert (Hplan : forall k, exists before,
    map request (exec host k (checkPlan st tx false (storeTransaction st tx false))) =
      before ++ [UpdateCard (card_id card) balance; SetCards (card_id card) balance] /\
    AddTransactionToTable tx false true ∈ before /\
    Forall (fun q => match q with
                     | UpdateCard _ _ | SetCards _ _ | Alert _ => False
                     | _ => True
                     end) before).
  { intros k.
    destruct (exec_checkPlan host k st tx false (storeTransaction st tx false))
      as [->|(p & ->)]; [apply Hstore|].
    rewrite (cooperative_confirm host k p Hco). cbn [map request].
    destruct (Hstore (S k)) as (before & -> & Hin & Hall).
    exists (Confirm p :: before). split; [reflexivity|]. split; [now right|].
    now constructor. }
  destruct (exec_checkLimit host (S n) st tx false
              (checkPlan st tx false (storeTransaction st tx false)))
    as [->|(p & ->)].
  - destruct (Hplan (S n)) as (before & -> & Hin & Hall).
    exists (Now :: before). split; [reflexivity|]. split; [now right|]. now constructor.
  - rewrite (cooperative_confirm host (S n) p Hco). cbn [map request].
    destruct (Hplan (S (S n))) as (before & -> & Hin & Hall).
    exists (Now :: Confirm p :: before). split; [reflexivity|].
    split; [now right; right|]. now repeat constructor.
Qed.

(** X18. [deleteTransaction] makes no call for an id that is not in the
    local list.  For an id of the list it asks the store to delete the
    document; when the store refuses, the handler only alerts; when the
    store accepts, the transaction is removed from the local list and, for
    a transaction flagged [isAffect] whose card is in the state, the
    balance of the card with the amount given back (added for a cost,
    subtracted otherwise) is written to the store and, once the store has
    accepted it, to the state; a refusal of that write is alerted. *)
Theorem deleted_transaction_reversed (host : Host) (n : nat) (st : State)
    (txId : string) :
  let requests := map request (exec host n (deleteTransaction st txId)) in
  let message := "Failed to delete transaction. Please try again." in
  match List.find (fun t => bool_decide (s_id t = txId)) (transactions st) with
  | None => requests = []
  | Some transaction =>
      if failed (event (DeleteDoc txId) (host n (DeleteDoc txId))) then
        requests = [DeleteDoc txId; Alert message]
      else
        match (if truthy (s_isAffect transaction)
               then findCard (cards st) (e_cardId (s_entry transaction))
               else None) with
        | None => requests = [DeleteDoc txId; SetTransactions (Remove txId)]
        | Some card =>
            let balance := reversed (s_entry transaction) (card_amount card) in
            let write := UpdateCard (card_id card) balance in
            requests =
              [DeleteDoc txId; SetTransactions (Remove txId); write;
               if failed (event write (host (S (S n)) write))
               then Alert message else SetCards (card_id card) balance]
        end
  end.
Proof.
  cbv zeta. unfold deleteTransaction.
  destruct (List.find _ (transactions st)) as [transaction|]; [|reflexivity].
  cbn [exec map request failed].
  destruct (host n (DeleteDoc txId)) as [[]|failure]; cbn [isThrown exec map request];
    [|reflexivity].
  destruct (truthy (s_isAffect transaction)); [|reflexivity].
  destruct (findCard _ _) as [card|]; [|reflexivity].
  unfold writeBalance. cbn [exec map request failed].
  destruct (host (S (S n)) (UpdateCard _ _)) as [[]|failure]; reflexivity.
Qed.

End balances.

Section scheduled.

Import App.

Lemma due_spec (now : Z) (tx : Stored) :
  due now tx = true ->
  s_scheduled tx = Some true /\ s_isAffect tx = Some false /\
  exists m, e_date (s_entry tx) = Some m /\ (timeValue m <= now)%Z.
Proof.
  unfold due. rewrite !andb_true_iff, !bool_decide_eq_true.
  intros [[Hs Ha] Hpast]. split; [exact Hs|]. split; [exact Ha|].
  unfold isPast in Hpast. destruct (e_date (s_entry tx)) as [m|]; [|discriminate].
  exists m. split; [reflexivity|]. now apply Z.leb_le.
Qed.

Lemma transactionsToProcess_spec (allTransactions : list Stored) (card : Card)
    (now : Z) (tx : Stored) :
  tx ∈ transactionsToProcess allTransactions card now <->
  tx ∈ allTransactions /\ e_cardId (s_entry tx) = card_id card /\ due now tx = true.
Proof.
  unfold transactionsToProcess. rewrite !list_elem_of_In, !filter_In, bool_decide_eq_true.
  tauto.
Qed.

Context (st : State).

Lemma sound_applyScheduled (allTransactions : list Stored) (card : Card) (now : Z)
    (tx : Stored) (nextTx : Handler) :
  card ∈ cards st ->
  tx ∈ transactionsToProcess allTransactions card now ->
  always (sound st allTransactions) nextTx ->
  always (sound st allTransactions) (applyScheduled st tx nextTx).
Proof.
  intros Hcard Htx HnextTx.
  apply transactionsToProcess_spec in Htx as (Hin & Hid & Hdue).
  apply due_spec in Hdue as (Hs & Ha & m & Hm & _).
  unfold applyScheduled. constructor.
  { exists tx, card. rewrite Hm. repeat split; eauto. }
  intros [[]|failure]; [|constructor].
  destruct (findCard (cards st) (e_cardId (s_entry tx))) as [cardToUpdate|] eqn:Hfind;
    [|exact HnextTx].
  assert (Hwrite : sound st allTransactions
                     (UpdateCard (card_id cardToUpdate)
                        (applied (s_entry tx) (card_amount cardToUpdate)))).
  { exists tx, cardToUpdate. repeat split; auto. }
  constructor; [exact Hwrite|]. intros [[]|failure]; [|constructor].
  constructor; [exact Hwrite|]. intros reply. exact HnextTx.
Qed.

Lemma sound_processCard (allTransactions : list Stored) (card : Card)
    (nextCard : Handler) :
  card ∈ cards st ->
  always (sound st allTransactions) nextCard ->
  always (sound st allTransactions) (processCard st allTransactions card nextCard).
Proof.
  intros Hcard HnextCard. unfold processCard. constructor; [exact I|]. intros now.
  destruct (_ =? _)%nat; [exact HnextCard|].
  apply always_forEach.
  - intros tx h Htx Hh. now apply (sound_applyScheduled allTransactions card now).
  - destruct (bool_decide _); [|exact HnextCard].
    constructor; [|intros reply; exact HnextCard]. now eexists.
Qed.

(** X19. [processScheduledTransactions] touches only what is due.  Whatever
    the store answers, it marks only fetched transactions of a card of the
    state that are scheduled, not yet applied and validly dated; every
    balance it writes is the balance that the card had when the handler was
    created, moved by the amount of one such transaction; it asks for no
    confirmation, raises no alert, adds and deletes no document. *)
Theorem scheduled_processing_is_sound (host : Host) (n : nat) :
  let log := exec host n (processScheduledTransactions st) in
  Forall (fun e =>
            match request e with
            | GetUserId | GetTransactions => True
            | _ =>
                exists allTransactions e0,
                  e0 ∈ log /\ fetched e0 = Some allTransactions /\
                  sound st allTransactions (request e)
            end) log.
Proof.
  cbv zeta. unfold processScheduledTransactions. cbn [exec].
  constructor; [exact I|].
  destruct (_ || _); [constructor|]. cbn [exec].
  constructor; [exact I|].
  destruct (host (S n) GetTransactions) as [allTransactions|failure] eqn:Hget;
    [|constructor].
  assert (Hsound : always (sound st allTransactions)
                     (forEach (cards st) (processCard st allTransactions) Done)).
  { apply always_forEach; [|constructor].
    intros card h Hcard Hh. now apply sound_processCard. }
  pose proof (always_exec _ _ Hsound host (S (S n))) as Hall.
  eapply Forall_impl; [exact Hall|]. intros e He. cbn beta in He.
  assert (Hfetched : exists e0,
             e0 ∈ event GetUserId (host n GetUserId) ::
                  event GetTransactions (Returned allTransactions) ::
                  exec host (S (S n))
                    (forEach (cards st) (processCard st allTransactions) Done) /\
             fetched e0 = Some allTransactions).
  { exists (event GetTransactions (Returned allTransactions)).
    split; [right; left|reflexivity]. }
  destruct Hfetched as (e0 & Hin & Hf).
  destruct (request e); try exact I; exists allTransactions, e0; auto.
Qed.

End scheduled.

Section cooperation.

Import App.

Context (st : State) (host : Host).
Hypothesis cooperates : cooperative host.

Lemma requests_forEach {A} (l : list A) (body : A -> Handler -> Handler)
    (requests : A -> list Request) :
  (forall x, x ∈ l -> forall k next, exists k',
      map request (exec host k (body x next)) =
      requests x ++ map request (exec host k' next)) ->
  forall k next, exists k',
    map request (exec host k (forEach l body next)) =
    flat_map requests l ++ map request (exec host k' next).
Proof.
  intros Hbody. induction l as [|x l IH]; intros k next; simpl.
  - now exists k.
  - destruct (Hbody x ltac:(left) k (forEach l body next)) as [k1 ->].
    destruct (IH (fun y Hy => Hbody y ltac:(now right)) k1 next) as [k2 ->].
    exists k2. now rewrite app_assoc.
Qed.

Lemma requests_applyScheduled (tx : Stored) (card : Card) :
  findCard (cards st) (e_cardId (s_entry tx)) = Some card ->
  forall k next, exists k',
    map request (exec host k (applyScheduled st tx next)) =
    [UpdateTransaction (s_id tx);
     UpdateCard (card_id card) (applied (s_entry tx) (card_amount card));
     SetCards (card_id card) (applied (s_entry tx) (card_amount card))] ++
    map request (exec host k' next).
Proof.
  intros Hfind k next. unfold applyScheduled. cbn [exec map request].
  destruct (host k (UpdateTransaction (s_id tx))) as [[]|failure] eqn:Hmark.
  2:{ destruct (cooperates k (UpdateTransaction (s_id tx))) as [_ Hok].
      cbn in Hok. rewrite Hmark in Hok. discriminate. }
  rewrite Hfind. cbn [exec map request].
  destruct (host (S k) (UpdateCard _ _)) as [[]|failure] eqn:Hwrite.
  2:{ destruct (cooperates (S k) (UpdateCard (card_id card)
                   (applied (s_entry tx) (card_amount card)))) as [_ Hok].
      cbn in Hok. rewrite Hwrite in Hok. discriminate. }
  cbn [exec map request]. now exists (S (S (S k))).
Qed.

Lemma findCard_unique (card : Card) :
  NoDup (map card_id (cards st)) -> card ∈ cards st ->
  findCard (cards st) (card_id card) = Some card.
Proof.
  unfold findCard. induction (cards st) as [|c cs IH]; intros Hnd Hin.
  - inversion Hin.
  - cbn [map] in Hnd. apply NoDup_cons in Hnd as [Hfresh Hnd]. cbn [find].
    case_bool_decide as Hid.
    + apply elem_of_cons in Hin as [->|Hin]; [reflexivity|].
      exfalso. apply Hfresh. rewrite Hid. apply list_elem_of_fmap. now exists card.
    + apply elem_of_cons in Hin as [->|Hin]; [congruence|]. now apply IH.
Qed.

Lemma requests_processCard (allTransactions : list Stored) (now : Z) (card : Card) :
  (forall k, host k Now = now) ->
  NoDup (map card_id (cards st)) -> card ∈ cards st ->
  forall k next, exists k',
    map request (exec host k (processCard st allTransactions card next)) =
    requestsFor st allTransactions now card ++ map request (exec host k' next).
Proof.
  intros Hclock Hnd Hcard k next. unfold processCard, requestsFor.
  cbn [exec map request]. rewrite Hclock.
  set (toProcess := transactionsToProcess allTransactions card now).
  destruct (length toProcess =? 0)%nat eqn:Hlen.
  - apply Nat.eqb_eq, nil_length_inv in Hlen. rewrite Hlen. cbn. now exists (S k).
  - cbn [negb andb].
    destruct (requests_forEach toProcess (applyScheduled st)
                (fun tx =>
                   [UpdateTransaction (s_id tx);
                    UpdateCard (card_id card) (applied (s_entry tx) (card_amount card));
                    SetCards (card_id card) (applied (s_entry tx) (card_amount card))])
                ltac:(intros tx Htx; apply requests_applyScheduled;
                      apply transactionsToProcess_spec in Htx as (_ & -> & _);
                      now apply findCard_unique)
                (S k)
                (if bool_decide (Some (card_id card) = selectedCardId st)
                 then Call (SetTransactions
                              (Replace (markProcessed toProcess (transactions st))))
                           (fun _ => next)
                 else next)) as [k1 Hloop].
    rewrite Hloop. destruct (bool_decide _).
    + cbn [exec map request]. exists (S k1).
      cbn [app]. f_equal. now rewrite <- app_assoc.
    + exists k1. cbn [app]. f_equal. now rewrite app_nil_r.
Qed.

(** The whole run with a store that does not fail and a clock that stands
    still. *)
Lemma cooperative_run (n : nat) (now : Z) (allTransactions : list Stored) :
  (forall k, host k Now = now) ->
  NoDup (map card_id (cards st)) ->
  host n GetUserId <> None -> host n GetUserId <> Some "" ->
  cards st <> [] ->
  host (S n) GetTransactions = Returned allTransactions ->
  map request (exec host n (processScheduledTransactions st)) =
  GetUserId :: GetTransactions ::
  flat_map (requestsFor st allTransactions now) (cards st).
Proof.
  intros Hclock Hnd Huser Hname Hcards Hget. unfold processScheduledTransactions.
  cbn [exec map request].
  rewrite (bool_decide_eq_false_2 _ Huser), (bool_decide_eq_false_2 _ Hname).
  destruct (length (cards st) =? 0)%nat eqn:Hlen.
  { apply Nat.eqb_eq, nil_length_inv in Hlen. contradiction. }
  cbn [orb exec map request]. rewrite Hget.
  destruct (requests_forEach (cards st) (processCard st allTransactions)
              (requestsFor st allTransactions now)
              ltac:(intros card Hcard; now apply requests_processCard)
              (S (S n)) Done) as [k ->].
  cbn [exec map]. now rewrite app_nil_r.
Qed.

Lemma omap_flat_map {A B C} (f : B -> option C) (g : A -> list B) (l : list A) :
  omap f (flat_map g l) = flat_map (fun x => omap f (g x)) l.
Proof.
  induction l as [|x l IH]; [reflexivity|]. cbn [flat_map].
  now rewrite omap_app, IH.
Qed.

Lemma applied_views (card : Card) (l : list Stored) :
  let requests :=
    flat_map
      (fun tx =>
         [UpdateTransaction (s_id tx);
          UpdateCard (card_id card) (applied (s_entry tx) (card_amount card));
          SetCards (card_id card) (applied (s_entry tx) (card_amount card))]) l in
  omap marked requests = map s_id l /\
  omap balanceWritten requests =
    map (fun tx => (card_id card, applied (s_entry tx) (card_amount card))) l.
Proof.
  cbv zeta. induction l as [|tx l [IHm IHb]]; [split; reflexivity|].
  cbn [flat_map app map]. split.
  - change (omap marked (?a :: ?b :: ?c :: ?r)) with (s_id tx :: omap marked r).
    now rewrite IHm.
  - change (omap balanceWritten (?a :: ?b :: ?c :: ?r))
      with ((card_id card, applied (s_entry tx) (card_amount card)) ::
            omap balanceWritten r).
    now rewrite IHb.
Qed.

Lemma requestsFor_views (allTransactions : list Stored) (now : Z) (card : Card) :
  omap marked (requestsFor st allTransactions now card) =
    map s_id (transactionsToProcess allTransactions card now) /\
  omap balanceWritten (requestsFor st allTransactions now card) =
    map (fun tx => (card_id card, applied (s_entry tx) (card_amount card)))
        (transactionsToProcess allTransactions card now).
Proof.
  unfold requestsFor.
  set (toProcess := transactionsToProcess allTransactions card now).
  set (last := if _ && _ then _ else _).
  assert (Hlast : omap marked last = [] /\ omap balanceWritten last = []).
  { subst last. now destruct (_ && _). }
  destruct Hlast as [Hm Hb].
  change (Now :: ?l ++ last) with ([Now] ++ l ++ last).
  rewrite !omap_app, Hm, Hb, !app_nil_r.
  destruct (applied_views card toProcess) as [-> ->]. split; reflexivity.
Qed.

(** X20. With a store that does not fail, a clock that stands still and
    cards of distinct ids, [processScheduledTransactions] marks every
    fetched transaction that is due, card by card in the order of the state,
    and writes one balance for each of them: the balance that the card had
    when the handler was created, moved by the amount of that transaction
    alone. *)
Theorem due_transactions_applied_from_snapshot (n : nat) (now : Z)
    (allTransactions : list Stored) (userId : string) :
  (forall k, host k Now = now) ->
  NoDup (map card_id (cards st)) ->
  host n GetUserId = Some userId -> userId <> "" ->
  host (S n) GetTransactions = Returned allTransactions ->
  let requests := map request (exec host n (processScheduledTransactions st)) in
  omap marked requests =
    flat_map (fun card => map s_id (transactionsToProcess allTransactions card now))
             (cards st) /\
  omap balanceWritten requests =
    flat_map (fun card =>
                map (fun tx => (card_id card, applied (s_entry tx) (card_amount card)))
                    (transactionsToProcess allTransactions card now))
             (cards st).
Proof.
  intros Hclock Hnd Huser Hname Hget requests. subst requests.
  destruct (cards st) as [|card rest] eqn:Hcards.
  { unfold processScheduledTransactions. cbn [exec]. rewrite Hcards. cbn [length Nat.eqb].
    rewrite !orb_true_r. split; reflexivity. }
  rewrite <- Hcards in *.
  rewrite (cooperative_run n now allTransactions Hclock Hnd); try assumption.
  - change (omap marked (GetUserId :: GetTransactions :: ?r)) with (omap marked r).
    change (omap balanceWritten (GetUserId :: GetTransactions :: ?r))
      with (omap balanceWritten r).
    rewrite !omap_flat_map. split.
    + apply flat_map_ext. intros c. apply requestsFor_views.
    + apply flat_map_ext. intros c. apply requestsFor_views.
  - rewrite Huser. discriminate.
  - rewrite Huser. congruence.
  - rewrite Hcards. discriminate.
Qed.

End cooperation.

Section handler_examples.

Import App.

Lemma agreeing_host_cooperative (now : Z) (documents : list Stored) :
  cooperative (Household.host now true documents).
Proof. intros n q. destruct q; split; reflexivity. Qed.

Lemma scheduled_transaction_only_stored_witness :
  let tx := Household.spend 10 Household.july in
  let host := Household.host 1715000000000 true [] in
  e_date tx = Some Household.july /\
  (host 0%nat Now < timeValue Household.july)%Z /\
  exists rest,
    map request (exec host 0 (addTransaction Household.state tx)) =
      Now :: AddTransactionToTable tx true false :: rest.
Proof.
  cbv zeta.
  assert (H1 : e_date (Household.spend 10 Household.july) = Some Household.july)
    by reflexivity.
  assert (H2 : (Household.host 1715000000000 true [] 0%nat Now <
                timeValue Household.july)%Z) by (vm_compute; reflexivity).
  split; [exact H1|]. split; [exact H2|].
  destruct (scheduled_transaction_only_stored _ 0 Household.state _ _ H1 H2)
    as (rest & Hlog & _).
  now exists rest.
Defined.

Lemma current_transaction_applied_witness :
  let tx := Household.spend 10 Household.march in
  let host := Household.host 1715000000000 true [] in
  cooperative host /\
  isAfter (e_date tx) (host 0%nat Now) = false /\
  findCard (cards Household.state) (e_cardId tx) = Some Household.card /\
  exists before,
    map request (exec host 0 (addTransaction Household.state tx)) =
    before ++ [UpdateCard "card-1" (100 - 10); SetCards "card-1" (100 - 10)].
Proof.
  cbv zeta.
  pose proof (agreeing_host_cooperative 1715000000000 []) as H1.
  assert (H2 : isAfter (e_date (Household.spend 10 Household.march))
                 (Household.host 1715000000000 true [] 0%nat Now) = false)
    by (vm_compute; reflexivity).
  assert (H3 : findCard (cards Household.state)
                 (e_cardId (Household.spend 10 Household.march)) = Some Household.card)
    by (vm_compute; reflexivity).
  split; [exact H1|]. split; [exact H2|]. split; [exact H3|].
  destruct (current_transaction_applied _ 0 Household.state _ _ H1 H2 H3)
    as (before & Hlog & _).
  now exists before.
Defined.

Lemma declined_warning_stops_witness :
  let tx := Household.spend 10 Household.march in
  let host := Household.host 1715000000000 false [] in
  let log := exec host 0 (addTransaction Household.state tx) in
  log !! 1%nat = Some (event (Confirm (LimitWarning 50 45 (45 + 10))) false) /\
  length log = 2%nat.
Proof.
  cbv zeta.
  assert (H1 : exec (Household.host 1715000000000 false []) 0
                 (addTransaction Household.state (Household.spend 10 Household.march))
               !! 1%nat =
               Some (event (Confirm (LimitWarning 50 45 (45 + 10))) false))
    by (vm_compute; reflexivity).
  split; [exact H1|].
  exact (proj1 (declined_warning_stops _ 0 Household.state _ 1 _ H1 eq_refl)).
Defined.

Lemma state_follows_store_witness :
  let tx := Household.spend 10 Household.march in
  let host := Household.host 1715000000000 true [] in
  let log := exec host 0 (addTransaction Household.state tx) in
  log !! 5%nat = Some (event (SetCards "card-1" (100 - 10)) tt) /\
  exists j e', 5%nat = S j /\ log !! j = Some e' /\
               request e' = UpdateCard "card-1" (100 - 10) /\ failed e' = false.
Proof.
  cbv zeta.
  assert (H1 : exec (Household.host 1715000000000 true []) 0
                 (addTransaction Household.state (Household.spend 10 Household.march))
               !! 5%nat = Some (event (SetCards "card-1" (100 - 10)) tt))
    by (vm_compute; reflexivity).
  split; [exact H1|].
  exact (proj1 (state_follows_store _ 0 Household.state _
                  (or_introl (ex_intro _ _ eq_refl)) 5 _ H1) _ _ eq_refl).
Defined.

Lemma due_transactions_applied_from_snapshot_witness :
  let host := Household.host 1715000000000 true Household.pending in
  cooperative host /\
  (forall k, host k Now = 1715000000000%Z) /\
  NoDup (map card_id (cards Household.state)) /\
  host 0%nat GetUserId = Some "user-1" /\ "user-1" <> "" /\
  host 1%nat GetTransactions = Returned Household.pending /\
  omap balanceWritten
    (map request (exec host 0 (processScheduledTransactions Household.state))) =
  [("card-1", 100 - 10); ("card-1", 100 - 20)].
Proof.
  cbv zeta.
  pose proof (agreeing_host_cooperative 1715000000000 Household.pending) as H1.
  assert (H2 : forall k, Household.host 1715000000000 true Household.pending k Now =
                         1715000000000%Z) by reflexivity.
  assert (H3 : NoDup (map card_id (cards Household.state)))
    by (vm_compute; repeat constructor; set_solver).
  assert (H4 : Household.host 1715000000000 true Household.pending 0%nat GetUserId =
               Some "user-1") by reflexivity.
  assert (H5 : "user-1" <> "") by discriminate.
  assert (H6 : Household.host 1715000000000 true Household.pending 1%nat GetTransactions =
               Returned Household.pending) by reflexivity.
  repeat (split; [assumption|]).
  destruct (due_transactions_applied_from_snapshot Household.state _ H1 0 _ _ _
              H2 H3 H4 H5 H6) as [_ Hwritten].
  rewrite Hwritten. vm_compute. reflexivity.
Defined.

End handler_examples.
